(** * Session and role-based access control core of the library server

    A shallow embedding of [internal/auth/session.go], of the RBAC part of
    [internal/db/database.go] and of the [hasPermission] helper of the
    handlers, with the properties of the design specification stated and
    proved (or refuted) over it; then of the account queries, of the auth
    and admin handlers, of the middlewares and of the routes of [main.go],
    with further properties of the code.

    Conventions.
    - Go's [time.Time] readings of one process are instants on one clock:
      an instant is a [Z] counting nanoseconds, a [time.Duration] is a [Z]
      of nanoseconds, [time.Now()] is an explicit argument [now].
    - Go's [map[string]*Session] is a [gmap string Session]; the sessions
      are never mutated through their pointers, so values stand for them.
    - The bytes that [rand.Read] delivers are an explicit argument.
    - A SQLite table is the list of its rows in rowid order; the order in
      which a query without ORDER BY delivers rows and the order of a
      [range] over a Go map are parameters.
    - A handler is a function from the request and the world (registry and
      database) to the new world and the list of its calls on the
      [http.ResponseWriter]; it stands for one request served on its own. *)

From Stdlib Require Import ZArith NArith List String Ascii Bool Lia.
From Stdlib Require Import Strings.Byte.
From Stdlib Require Import Permutation.
From Stdlib Require Import Sorting.Sorted.
From stdpp Require Import base gmap strings list fin_maps.

Local Open Scope string_scope.
Local Open Scope Z_scope.

(** ** Results: a Go pair [(value, error)] where exactly one side is set *)

Inductive Result (E A : Type) : Type :=
| Ok (a : A)
| Err (e : E).
Arguments Ok {E A} a.
Arguments Err {E A} e.

Definition rbind {E A B} (r : Result E A) (k : A -> Result E B) : Result E B :=
  match r with
  | Ok a => k a
  | Err e => Err e
  end.

Notation "x <<- c1 ;; c2" := (rbind c1 (fun x => c2))
  (at level 100, c1 at next level, right associativity).

Module Auth.

(** *** Errors of [session.go] *)

Inductive error : Type :=
| ErrNoAuthHeader
| ErrInvalidAuthType
| ErrInvalidToken
| ErrNoCookie.        (* http.ErrNoCookie, internal to GetSessionToken *)

(** *** Time *)

Definition Time := Z.
Definition Duration := Z.

Definition Nanosecond : Duration := 1.
Definition Second : Duration := 1000000000 * Nanosecond.
Definition Minute : Duration := 60 * Second.
Definition Hour : Duration := 60 * Minute.

(* t.Add(d) *)
Definition Add (t : Time) (d : Duration) : Time := t + d.
(* t.After(u): t is strictly later than u *)
Definition After (t u : Time) : bool := u <? t.

(** *** base64.URLEncoding.EncodeToString *)

Definition encodeURL : string :=
  "ABCDEFGHIJKLMNOPQRSTUVWXYZabcdefghijklmnopqrstuvwxyz0123456789-_".

Definition StdPadding : ascii := "="%char.

Definition sextet (n : N) : ascii :=
  match String.get (N.to_nat (N.land n 63)) encodeURL with
  | Some c => c
  | None => StdPadding
  end.

Fixpoint EncodeToString (src : list byte) : string :=
  match src with
  | [] => ""
  | [b0] =>
      let v := N.shiftl (Byte.to_N b0) 16 in
      String (sextet (N.shiftr v 18))
        (String (sextet (N.shiftr v 12))
           (String StdPadding (String StdPadding "")))
  | [b0; b1] =>
      let v := N.lor (N.shiftl (Byte.to_N b0) 16) (N.shiftl (Byte.to_N b1) 8) in
      String (sextet (N.shiftr v 18))
        (String (sextet (N.shiftr v 12))
           (String (sextet (N.shiftr v 6)) (String StdPadding "")))
  | b0 :: b1 :: b2 :: rest =>
      let v := N.lor (N.lor (N.shiftl (Byte.to_N b0) 16)
                            (N.shiftl (Byte.to_N b1) 8)) (Byte.to_N b2) in
      String (sextet (N.shiftr v 18))
        (String (sextet (N.shiftr v 12))
           (String (sextet (N.shiftr v 6))
              (String (sextet v) (EncodeToString rest))))
  end.

(** *** Sessions and the registry *)

Record Session : Type := mkSession {
  UserID : Z;
  Username : string;
  ExpiresAt : Time
}.

Record SessionManager : Type := mkSessionManager {
  sessions : gmap string Session
}.

Definition NewSessionManager : SessionManager :=
  {| sessions := ∅ |}.

(* [entropy] is the content of the 32-byte buffer after rand.Read. *)
Definition generateToken (entropy : list byte) : string :=
  EncodeToString entropy.

Definition CreateSession (sm : SessionManager) (entropy : list byte) (now : Time)
    (userID : Z) (username : string) : Result error string * SessionManager :=
  let token := generateToken entropy in
  let expiresAt := Add now (24 * Hour) in
  (Ok token,
   {| sessions := <[token := {| UserID := userID;
                                Username := username;
                                ExpiresAt := expiresAt |}]> (sessions sm) |}).

Definition ValidateSession (sm : SessionManager) (now : Time) (token : string)
    : Result error Session * SessionManager :=
  match sessions sm !! token with
  | None => (Err ErrInvalidToken, sm)
  | Some session =>
      if After now (ExpiresAt session)
      then (Err ErrInvalidToken, {| sessions := delete token (sessions sm) |})
      else (Ok session, sm)
  end.

Definition DestroySession (sm : SessionManager) (token : string) : SessionManager :=
  {| sessions := delete token (sessions sm) |}.

(* One pass of the [range] loop over the entries in the order [entries];
   Go fixes no iteration order, and deleting the entry being visited is
   allowed during a range. *)
Definition sweep (now : Time) (entries : list (string * Session))
    (m : gmap string Session) : gmap string Session :=
  fold_left
    (fun acc e => if After now (ExpiresAt (snd e)) then delete (fst e) acc else acc)
    entries m.

Definition CleanupExpiredSessionsIn (order : list (string * Session))
    (sm : SessionManager) (now : Time) : SessionManager :=
  {| sessions := sweep now order (sessions sm) |}.

Definition CleanupExpiredSessions (sm : SessionManager) (now : Time) : SessionManager :=
  CleanupExpiredSessionsIn (map_to_list (sessions sm)) sm now.

(** *** The request, as far as token extraction reads it *)

Record Cookie : Type := mkCookie {
  Name : string;
  Value : string
}.

Record Request : Type := mkRequest {
  Cookies : list Cookie;                 (* r.Cookies(), in header order *)
  Header : gmap string (list string)     (* r.Header, canonical keys *)
}.

(* r.Cookie(name): the first cookie of that name, or ErrNoCookie *)
Definition RequestCookie (r : Request) (name : string) : Result error Cookie :=
  match List.find (fun c => String.eqb (Name c) name) (Cookies r) with
  | Some c => Ok c
  | None => Err ErrNoCookie
  end.

(* h.Get(key): the first value of the key, the empty string if there is none *)
Definition HeaderGet (h : gmap string (list string)) (key : string) : string :=
  match h !! key with
  | Some (v :: _) => v
  | _ => ""
  end.

(* strings.Split(s, sep) for a separator of one byte *)
Fixpoint Split (s : string) (sep : ascii) : list string :=
  match s with
  | EmptyString => [EmptyString]
  | String c s' =>
      if Ascii.eqb c sep then EmptyString :: Split s' sep
      else match Split s' sep with
           | p :: ps => String c p :: ps
           | [] => [String c EmptyString]
           end
  end.

Definition GetSessionToken (r : Request) : Result error string :=
  match RequestCookie r "session_token" with
  | Ok cookie => Ok (Value cookie)
  | Err _ =>
      let authHeader := HeaderGet (Header r) "Authorization" in
      if String.eqb authHeader "" then Err ErrNoAuthHeader
      else
        match Split authHeader " "%char with
        | [p0; p1] =>
            if String.eqb p0 "Bearer" then Ok p1 else Err ErrInvalidAuthType
        | _ => Err ErrInvalidAuthType
        end
  end.

(* Whether r.Cookie("session_token") finds a cookie. *)
Definition carriesSessionCookie (r : Request) : bool :=
  existsb (fun c => String.eqb (Name c) "session_token") (Cookies r).

End Auth.


(** ** The role and permission store of [database.go]

    Only the tables the RBAC code reads or writes are kept ([users],
    [roles], [permissions], [user_roles], [role_permissions]), each as the
    list of its rows in rowid order, which for an AUTOINCREMENT table is the
    order of creation, together with the counters of [sqlite_sequence].
    The [created_at] and [assigned_at] columns default to CURRENT_TIMESTAMP
    and are never compared by the code modelled here; they are left out of
    the rows.

    The statements behave as SQLite executes them for this program:
    - PRIMARY KEY and UNIQUE are enforced; FOREIGN KEY clauses are not,
      since the program never turns [PRAGMA foreign_keys] on;
    - an INSERT takes its rowid from the AUTOINCREMENT counter before the
      conflict clause is evaluated, so an ignored INSERT OR IGNORE still
      advances the counter;
    - a SELECT without ORDER BY delivers the rows in an order of the
      engine's choosing (SQLite reads [SELECT id FROM users] from one of the
      UNIQUE indexes); the order is a parameter of the code that depends
      on it.
    The storage layer itself does not fail: the errors a statement can
    produce are [sql.ErrNoRows] and a constraint violation. *)

Module Models.

Record Permission : Type := mkPermission {
  PermID : Z;
  PermName : string;
  Resource : string;
  Action : string;
  PermDescription : string
}.

Record Role : Type := mkRole {
  RoleID : Z;
  RoleName : string;
  RoleDescription : string;
  Permissions : list Permission
}.

Record User : Type := mkUser {
  ID : Z;
  Username : string;
  Email : string;
  PasswordHash : string;
  Roles : list Role
}.

End Models.

Module DB.
Import Models.

Inductive error : Type :=
| ErrNoRows                              (* sql.ErrNoRows *)
| ErrConstraint                          (* UNIQUE constraint failed *)
| Wrap (context : string) (cause : error). (* fmt.Errorf("...: %w", err) *)

(* The contexts keep the text of the messages; a number formatted into a
   message is left out. *)
Definition wrap {A} (context : string) (r : Result error A) : Result error A :=
  match r with
  | Ok a => Ok a
  | Err e => Err (Wrap context e)
  end.

(** *** Rows *)

Record UserRow : Type := mkUserRow {
  u_id : Z;
  u_username : string;
  u_email : string;
  u_password_hash : string
}.

Record RoleRow : Type := mkRoleRow {
  r_id : Z;
  r_name : string;
  r_description : string
}.

Record PermissionRow : Type := mkPermissionRow {
  p_id : Z;
  p_name : string;
  p_resource : string;
  p_action : string;
  p_description : string
}.

Record UserRoleRow : Type := mkUserRoleRow {
  ur_id : Z;
  ur_user_id : Z;
  ur_role_id : Z;
  ur_assigned_by : option Z       (* NULL when the grant has no granter *)
}.

Record RolePermissionRow : Type := mkRolePermissionRow {
  rp_id : Z;
  rp_role_id : Z;
  rp_permission_id : Z
}.

Record Store : Type := mkStore {
  users : list UserRow;
  roles : list RoleRow;
  permissions : list PermissionRow;
  user_roles : list UserRoleRow;
  role_permissions : list RolePermissionRow;
  seq_users : Z;
  seq_roles : Z;
  seq_permissions : Z;
  seq_user_roles : Z;
  seq_role_permissions : Z
}.

(* What the CREATE TABLE IF NOT EXISTS statements leave on a new file. *)
Definition empty_store : Store :=
  mkStore [] [] [] [] [] 0 0 0 0 0.

(* INTEGER PRIMARY KEY AUTOINCREMENT: one more than the largest rowid the
   table holds or has ever held. *)
Definition next_rowid (seq : Z) (ids : list Z) : Z :=
  1 + fold_right Z.max seq ids.

(** *** Statements *)

(* Only the AUTOINCREMENT counter of a table moves. *)
Definition with_seq_roles (st : Store) (seq : Z) : Store :=
  mkStore (users st) (roles st) (permissions st) (user_roles st) (role_permissions st)
          (seq_users st) seq (seq_permissions st) (seq_user_roles st)
          (seq_role_permissions st).

Definition with_seq_permissions (st : Store) (seq : Z) : Store :=
  mkStore (users st) (roles st) (permissions st) (user_roles st) (role_permissions st)
          (seq_users st) (seq_roles st) seq (seq_user_roles st)
          (seq_role_permissions st).

Definition with_seq_role_permissions (st : Store) (seq : Z) : Store :=
  mkStore (users st) (roles st) (permissions st) (user_roles st) (role_permissions st)
          (seq_users st) (seq_roles st) (seq_permissions st) (seq_user_roles st)
          seq.

(* INSERT OR IGNORE INTO roles (name, description): ignored when the
   UNIQUE name is taken. *)
Definition insert_or_ignore_role (st : Store) (name description : string) : Store :=
  let id := next_rowid (seq_roles st) (map r_id (roles st)) in
  if existsb (fun r => String.eqb (r_name r) name) (roles st)
  then with_seq_roles st id
  else
    mkStore (users st) (roles st ++ [mkRoleRow id name description])
            (permissions st) (user_roles st) (role_permissions st)
            (seq_users st) id (seq_permissions st) (seq_user_roles st)
            (seq_role_permissions st).

(* INSERT OR IGNORE INTO permissions (name, resource, action, description) *)
Definition insert_or_ignore_permission (st : Store)
    (name resource action description : string) : Store :=
  let id := next_rowid (seq_permissions st) (map p_id (permissions st)) in
  if existsb (fun p => String.eqb (p_name p) name) (permissions st)
  then with_seq_permissions st id
  else
    mkStore (users st) (roles st)
            (permissions st ++ [mkPermissionRow id name resource action description])
            (user_roles st) (role_permissions st)
            (seq_users st) (seq_roles st) id (seq_user_roles st)
            (seq_role_permissions st).

(* INSERT OR IGNORE INTO role_permissions (role_id, permission_id): ignored
   when the UNIQUE pair is taken. *)
Definition insert_or_ignore_role_permission (st : Store) (roleID permID : Z) : Store :=
  let id := next_rowid (seq_role_permissions st) (map rp_id (role_permissions st)) in
  if existsb (fun rp => (rp_role_id rp =? roleID) && (rp_permission_id rp =? permID))
             (role_permissions st)
  then with_seq_role_permissions st id
  else
    mkStore (users st) (roles st) (permissions st) (user_roles st)
            (role_permissions st ++ [mkRolePermissionRow id roleID permID])
            (seq_users st) (seq_roles st) (seq_permissions st) (seq_user_roles st)
            id.

(* INSERT OR REPLACE INTO user_roles (user_id, role_id, assigned_by): the
   rows that hold the UNIQUE pair are deleted, then the new row is added
   under a new rowid. *)
Definition same_pair (userID roleID : Z) (ur : UserRoleRow) : bool :=
  (ur_user_id ur =? userID) && (ur_role_id ur =? roleID).

Definition insert_or_replace_user_role (st : Store) (userID roleID : Z)
    (assignedBy : option Z) : Store :=
  let id := next_rowid (seq_user_roles st) (map ur_id (user_roles st)) in
  let kept := List.filter (fun ur => negb (same_pair userID roleID ur)) (user_roles st) in
  mkStore (users st) (roles st) (permissions st)
          (kept ++ [mkUserRoleRow id userID roleID assignedBy])
          (role_permissions st)
          (seq_users st) (seq_roles st) (seq_permissions st) id
          (seq_role_permissions st).

(* DELETE FROM user_roles WHERE user_id = ? AND role_id = ? *)
Definition delete_user_role (st : Store) (userID roleID : Z) : Store :=
  mkStore (users st) (roles st) (permissions st)
          (List.filter (fun ur => negb (same_pair userID roleID ur)) (user_roles st))
          (role_permissions st)
          (seq_users st) (seq_roles st) (seq_permissions st) (seq_user_roles st)
          (seq_role_permissions st).

(** *** Queries and commands *)

Definition getRoleIDByName (st : Store) (name : string) : Result error Z :=
  match List.find (fun r => String.eqb (r_name r) name) (roles st) with
  | Some r => Ok (r_id r)
  | None => Err ErrNoRows
  end.

Definition getPermissionIDByName (st : Store) (name : string) : Result error Z :=
  match List.find (fun p => String.eqb (p_name p) name) (permissions st) with
  | Some p => Ok (p_id p)
  | None => Err ErrNoRows
  end.

Definition GetUserByID (st : Store) (id : Z) : Result error User :=
  match List.find (fun u => u_id u =? id) (users st) with
  | Some u => Ok (mkUser (u_id u) (u_username u) (u_email u) (u_password_hash u) [])
  | None => Err ErrNoRows
  end.

(* roles r INNER JOIN user_roles ur ON r.id = ur.role_id WHERE ur.user_id = ? *)
Definition GetUserRoles (st : Store) (userID : Z) : Result error (list Role) :=
  Ok (flat_map
        (fun r =>
           map (fun _ => mkRole (r_id r) (r_name r) (r_description r) [])
               (List.filter (fun ur => (r_id r =? ur_role_id ur) && (ur_user_id ur =? userID))
                            (user_roles st)))
        (roles st)).

Definition GetUserWithRoles (st : Store) (userID : Z) : Result error User :=
  user <<- GetUserByID st userID ;;
  roles <<- GetUserRoles st userID ;;
  Ok (mkUser (ID user) (Username user) (Email user) (PasswordHash user) roles).

(* permissions p INNER JOIN role_permissions rp ON p.id = rp.permission_id
   WHERE rp.role_id = ? *)
Definition GetRolePermissions (st : Store) (roleID : Z) : Result error (list Permission) :=
  Ok (flat_map
        (fun p =>
           map (fun _ => mkPermission (p_id p) (p_name p) (p_resource p) (p_action p)
                                      (p_description p))
               (List.filter (fun rp => (p_id p =? rp_permission_id rp) && (rp_role_id rp =? roleID))
                            (role_permissions st)))
        (permissions st)).

(* The rows of user_roles ur INNER JOIN role_permissions rp ON ur.role_id =
   rp.role_id INNER JOIN permissions p ON rp.permission_id = p.id WHERE
   ur.user_id = ? AND p.name = ? *)
Definition permission_join (st : Store) (userID : Z) (permissionName : string)
    : list (UserRoleRow * RolePermissionRow * PermissionRow) :=
  flat_map
    (fun ur =>
       flat_map
         (fun rp =>
            flat_map
              (fun p =>
                 if (ur_role_id ur =? rp_role_id rp) && (rp_permission_id rp =? p_id p)
                    && (ur_user_id ur =? userID) && String.eqb (p_name p) permissionName
                 then [(ur, rp, p)] else [])
              (permissions st))
         (role_permissions st))
    (user_roles st).

Definition HasPermission (st : Store) (userID : Z) (permissionName : string)
    : Result error bool :=
  let count := Z.of_nat (length (permission_join st userID permissionName)) in
  Ok (0 <? count).

Definition AssignRole (st : Store) (userID roleID : Z) (assignedBy : option Z)
    : Result error Store :=
  Ok (insert_or_replace_user_role st userID roleID assignedBy).

Definition RemoveRole (st : Store) (userID roleID : Z) : Result error Store :=
  Ok (delete_user_role st userID roleID).

(* One transaction: an error rolls it back, so no store comes with it. *)
Definition CreateUser (st : Store) (username email passwordHash : string)
    : Result error Store :=
  (* INSERT INTO users (username, email, password_hash) *)
  if existsb (fun u => String.eqb (u_username u) username || String.eqb (u_email u) email)
             (users st)
  then Err ErrConstraint
  else
    (* result.LastInsertId() *)
    let userID := next_rowid (seq_users st) (map u_id (users st)) in
    userRoleID <<- wrap "failed to get user role ID" (getRoleIDByName st "user") ;;
    (* INSERT INTO user_roles (user_id, role_id) *)
    if existsb (same_pair userID userRoleID) (user_roles st)
    then Err ErrConstraint
    else
      let id := next_rowid (seq_user_roles st) (map ur_id (user_roles st)) in
      Ok (mkStore (users st ++ [mkUserRow userID username email passwordHash])
                  (roles st) (permissions st)
                  (user_roles st ++ [mkUserRoleRow id userID userRoleID None])
                  (role_permissions st)
                  userID (seq_roles st) (seq_permissions st) id
                  (seq_role_permissions st)).

(** *** Bootstrap *)

(* A [for] loop whose body may return an error. *)
Fixpoint forM {A} (l : list A) (body : Store -> A -> Result error Store) (st : Store)
    : Result error Store :=
  match l with
  | [] => Ok st
  | x :: l' => st' <<- body st x ;; forM l' body st'
  end.

Definition default_roles : list (string * string) :=
  [ ("admin", "System administrator with full access");
    ("user", "Regular user with catalog access") ].

Definition default_permissions : list (string * string * string * string) :=
  [ ("upload_pdf", "pdf", "create", "Upload PDF files");
    ("view_pdf", "pdf", "read", "View PDF files");
    ("edit_pdf", "pdf", "update", "Edit PDF metadata");
    ("delete_pdf", "pdf", "delete", "Delete PDF files");
    ("manage_users", "user", "manage", "Manage user accounts");
    ("manage_roles", "role", "manage", "Manage user roles") ].

Definition rolePermissions : list (string * list string) :=
  [ ("admin", ["upload_pdf"; "view_pdf"; "edit_pdf"; "delete_pdf";
               "manage_users"; "manage_roles"]);
    ("user", ["view_pdf"]) ].

Section Bootstrap.

(* [range] over the two-key map visits the keys in either order. *)
Variable admin_first : bool.

(* The order in which [SELECT id FROM users] delivers the rows. *)
Variable scan_users : list UserRow -> list UserRow.

Definition range_rolePermissions : list (string * list string) :=
  if admin_first then rolePermissions else rev rolePermissions.

Definition initializeRBAC (st : Store) : Result error Store :=
  st <<- forM default_roles
           (fun st role => Ok (insert_or_ignore_role st (fst role) (snd role))) st ;;
  st <<- forM default_permissions
           (fun st perm =>
              let '(name, resource, action, description) := perm in
              Ok (insert_or_ignore_permission st name resource action description)) st ;;
  forM range_rolePermissions
    (fun st entry =>
       let roleName := fst entry in
       let permNames := snd entry in
       roleID <<- wrap ("failed to get role ID for " ++ roleName)
                       (getRoleIDByName st roleName) ;;
       forM permNames
         (fun st permName =>
            permID <<- wrap ("failed to get permission ID for " ++ permName)
                            (getPermissionIDByName st permName) ;;
            Ok (insert_or_ignore_role_permission st roleID permID)) st) st.

Definition assignDefaultRoles (st : Store) : Result error Store :=
  (* SELECT id FROM users *)
  let userIDs := map u_id (scan_users (users st)) in
  userRoleID <<- wrap "failed to get user role ID" (getRoleIDByName st "user") ;;
  adminRoleID <<- wrap "failed to get admin role ID" (getRoleIDByName st "admin") ;;
  st <<- forM userIDs
           (fun st userID =>
              userRoles <<- wrap "failed to check user roles" (GetUserRoles st userID) ;;
              if Nat.eqb (length userRoles) 0
              then wrap "failed to assign user role" (AssignRole st userID userRoleID None)
              else Ok st) st ;;
  (* SELECT COUNT( * ) FROM user_roles WHERE role_id = ? *)
  let adminCount :=
    Z.of_nat (length (List.filter (fun ur => ur_role_id ur =? adminRoleID) (user_roles st))) in
  if (adminCount =? 0) && (0 <? Z.of_nat (length userIDs))
  then wrap "failed to assign admin role to first user"
            (AssignRole st (nth 0 userIDs 0) adminRoleID None)
  else Ok st.

(* The CREATE TABLE IF NOT EXISTS statements give a new file the empty
   tables of [empty_store] and leave existing tables alone. *)
Definition createTables (st : Store) : Result error Store :=
  st <<- wrap "failed to initialize RBAC" (initializeRBAC st) ;;
  wrap "failed to assign default roles" (assignDefaultRoles st).

End Bootstrap.

End DB.

Module Handlers.
Import Models.

(* The [user] argument is a [*models.User]; [None] is the nil pointer. *)
Definition hasPermission (st : DB.Store) (user : option User) (permissionName : string)
    : Result DB.error bool :=
  match user with
  | None => Ok false
  | Some u => DB.HasPermission st (ID u) permissionName
  end.

End Handlers.

(** ** Vocabulary of the statements about the store *)

Module Schema.
Import Models DB.

(* The identities: the ids of the rows of [users], in creation order. *)
Definition identities (st : Store) : list Z := map u_id (users st).


(* The permission set of a role id, as GetRolePermissions reports it. *)
Definition permissionSet (st : Store) (roleID : Z) : list Permission :=
  match GetRolePermissions st roleID with
  | Ok ps => ps
  | Err _ => []
  end.

(* The roles of a user id, as GetUserRoles reports them. *)
Definition rolesOf (st : Store) (userID : Z) : list Role :=
  match GetUserRoles st userID with
  | Ok rs => rs
  | Err _ => []
  end.

Definition holdsRole (st : Store) (userID : Z) (roleName : string) : bool :=
  existsb (fun r => String.eqb (RoleName r) roleName) (rolesOf st userID).

(* The assignment rows of a pair, and their granters. *)
Definition assignmentsOf (st : Store) (userID roleID : Z) : list UserRoleRow :=
  List.filter (same_pair userID roleID) (user_roles st).

(* Two stores with the same rows in all five tables. *)
Definition same_tables (st st' : Store) : Prop :=
  users st' = users st /\ roles st' = roles st /\ permissions st' = permissions st /\
  user_roles st' = user_roles st /\ role_permissions st' = role_permissions st.

(** Constraints of the schema.  SQLite keeps the first two in every store;
    the foreign keys hold only as long as no statement breaks them. *)

(* roles.id INTEGER PRIMARY KEY *)
Definition pk_roles (st : Store) : Prop := List.NoDup (map r_id (roles st)).

(* roles.name TEXT UNIQUE *)
Definition unique_role_names (st : Store) : Prop := List.NoDup (map r_name (roles st)).

(* user_roles: FOREIGN KEY (user_id) REFERENCES users(id) *)
Definition fk_user_roles_user (st : Store) : Prop :=
  forall ur, In ur (user_roles st) -> In (ur_user_id ur) (identities st).

(* user_roles: FOREIGN KEY (role_id) REFERENCES roles(id) *)
Definition fk_user_roles_role (st : Store) : Prop :=
  forall ur, In ur (user_roles st) -> In (ur_role_id ur) (map r_id (roles st)).

(** Orders in which the rows of [users] may be delivered. *)

Definition fair_scan (scan : list UserRow -> list UserRow) : Prop :=
  forall rows, Permutation (scan rows) rows.

(* By rowid, that is in creation order. *)
Definition scan_rowid (rows : list UserRow) : list UserRow := rows.

(* Through the UNIQUE index on email: sorted by email, bytewise. *)
Fixpoint insert_by_email (u : UserRow) (sorted : list UserRow) : list UserRow :=
  match sorted with
  | [] => [u]
  | v :: rest =>
      if String.leb (u_email u) (u_email v) then u :: v :: rest
      else v :: insert_by_email u rest
  end.

Definition scan_email_index (rows : list UserRow) : list UserRow :=
  fold_right insert_by_email [] rows.

(* The ids that [SELECT id FROM users] delivers, in the order of the scan. *)
Definition scanned_ids (scan : list UserRow -> list UserRow) (st : Store) : list Z :=
  map u_id (scan (users st)).

End Schema.

(** ** Two histories of a server

    Each store below is what the program's own calls leave behind, starting
    from a new database file. *)

Module Scenario.
Import DB Schema.

Definition or_empty (r : Result error Store) : Store :=
  match r with
  | Ok st => st
  | Err _ => empty_store
  end.

(* The server starts on a new file; alice registers; the server restarts
   and promotes her; as admin she posts /admin/assign-role with user_id=999
   and the admin role, then /admin/remove-role for her own admin role. *)
Definition orphaned_admin_history : Result error Store :=
  st <<- createTables true scan_rowid empty_store ;;
  st <<- CreateUser st "alice" "alice@example.org" "$2a$10$hash" ;;
  st <<- createTables true scan_rowid st ;;
  adminRoleID <<- getRoleIDByName st "admin" ;;
  st <<- AssignRole st 999 adminRoleID (Some 1) ;;
  RemoveRole st 1 adminRoleID.

Definition orphaned_admin_store : Store :=
  Eval vm_compute in or_empty orphaned_admin_history.

(* The server starts on a new file; zed registers, then amy. *)
Definition two_users_history : Result error Store :=
  st <<- createTables true scan_rowid empty_store ;;
  st <<- CreateUser st "zed" "zed@example.org" "$2a$10$hash1" ;;
  CreateUser st "amy" "amy@example.org" "$2a$10$hash2".

Definition two_users_store : Store :=
  Eval vm_compute in or_empty two_users_history.

(* ... and the server restarts. *)
Definition two_users_restarted : Store :=
  Eval vm_compute in or_empty (createTables true scan_rowid two_users_store).

End Scenario.

(** ** Relations between the stores before and after a bootstrap step *)

Module Invariants.
Import Models DB Schema.

Definition has_role (st : Store) (name : string) : bool :=
  existsb (fun r => String.eqb (r_name r) name) (roles st).

Definition has_permission (st : Store) (name : string) : bool :=
  existsb (fun p => String.eqb (p_name p) name) (permissions st).

Definition has_role_permission (st : Store) (roleID permID : Z) : bool :=
  existsb (fun rp => (rp_role_id rp =? roleID) && (rp_permission_id rp =? permID))
          (role_permissions st).

(* What initializeRBAC may do to a store: append rows to the catalog. *)
Definition catalog_grows (st st' : Store) : Prop :=
  users st' = users st /\ user_roles st' = user_roles st /\
  (exists new, roles st' = (roles st ++ new)%list) /\
  (exists new, permissions st' = (permissions st ++ new)%list) /\
  (exists new, role_permissions st' = (role_permissions st ++ new)%list) /\
  (pk_roles st -> pk_roles st') /\
  (unique_role_names st -> unique_role_names st').

(* The role of a given name is attached to the permission of a given name. *)
Definition attached (st : Store) (roleName permName : string) : Prop :=
  exists roleID permID,
    getRoleIDByName st roleName = Ok roleID /\
    getPermissionIDByName st permName = Ok permID /\
    has_role_permission st roleID permID = true.

(* The default roles and permissions are there. *)
Definition catalog_present (st : Store) : Prop :=
  (forall role, In role default_roles -> has_role st (fst role) = true) /\
  (forall perm, In perm default_permissions ->
     has_permission st (fst (fst (fst perm))) = true).

(* The catalog that initializeRBAC ensures is all there. *)
Definition initialized (st : Store) : Prop :=
  (forall role, In role default_roles -> has_role st (fst role) = true) /\
  (forall perm, In perm default_permissions ->
     has_permission st (fst (fst (fst perm))) = true) /\
  (forall entry permName, In entry rolePermissions -> In permName (snd entry) ->
     attached st (fst entry) permName).

(* What the first loop of assignDefaultRoles may do: append rows that give
   the role [userRoleID], without granter, to scanned users that had no
   role. *)
Definition defaults_added (userRoleID : Z) (scanned : list Z) (st st' : Store) : Prop :=
  users st' = users st /\ roles st' = roles st /\ permissions st' = permissions st /\
  role_permissions st' = role_permissions st /\
  exists added,
    user_roles st' = (user_roles st ++ added)%list /\
    forall ur, In ur added ->
      ur_role_id ur = userRoleID /\ ur_assigned_by ur = None /\
      In (ur_user_id ur) scanned /\ rolesOf st (ur_user_id ur) = [].

(* What a completed bootstrap leaves: the catalog, a role for every
   identity, and an admin assignment unless there is no identity. *)
Definition bootstrapped (st : Store) : Prop :=
  initialized st /\
  (forall userID, In userID (identities st) -> rolesOf st userID <> []) /\
  (identities st = [] \/
   exists adminRoleID ur,
     getRoleIDByName st "admin" = Ok adminRoleID /\
     In ur (user_roles st) /\ ur_role_id ur = adminRoleID).

End Invariants.

(** ** Traces of the session manager

    The registry of a running server is what a sequence of calls leaves
    behind, starting from [NewSessionManager]. *)

Module SessionTrace.
Import Auth.

Inductive call : Type :=
| CallCreate (entropy : list byte) (now : Time) (userID : Z) (username : string)
| CallValidate (now : Time) (token : string)
| CallDestroy (token : string)
| CallCleanup (now : Time).

Definition step (sm : SessionManager) (c : call) : SessionManager :=
  match c with
  | CallCreate entropy now userID username =>
      snd (CreateSession sm entropy now userID username)
  | CallValidate now token => snd (ValidateSession sm now token)
  | CallDestroy token => DestroySession sm token
  | CallCleanup now => CleanupExpiredSessions sm now
  end.

Definition run (calls : list call) : SessionManager :=
  fold_left step calls NewSessionManager.

(* The tokens that CreateSession handed out along a trace. *)
Fixpoint issued (calls : list call) : list string :=
  match calls with
  | [] => []
  | CallCreate entropy _ _ _ :: rest => generateToken entropy :: issued rest
  | _ :: rest => issued rest
  end.

End SessionTrace.

(** ** Vocabulary of the statements about tokens *)

Module TokenAlphabet.
Import Auth.

(* The position of a character in the URL-safe alphabet. *)
Fixpoint index_from (i : N) (c : ascii) (alphabet : string) : option N :=
  match alphabet with
  | EmptyString => None
  | String a rest => if Ascii.eqb a c then Some i else index_from (N.succ i) c rest
  end.

Definition alphabet_index (c : ascii) : option N := index_from 0 c encodeURL.

(* Letters, digits, '-' and '_': what RFC 3986 leaves unreserved, and '='. *)
Definition token_char (c : ascii) : bool :=
  let n := N_of_ascii c in
  ((65 <=? n) && (n <=? 90) || (97 <=? n) && (n <=? 122) || (48 <=? n) && (n <=? 57)
   || (n =? 45) || (n =? 95) || (n =? 61))%N.

Fixpoint all_chars (p : ascii -> bool) (s : string) : bool :=
  match s with
  | EmptyString => true
  | String c rest => p c && all_chars p rest
  end.

End TokenAlphabet.

(** ** Vocabulary of the statements about header values *)

Module Text.

(* Whether the character occurs in the string. *)
Fixpoint has_char (c : ascii) (s : string) : bool :=
  match s with
  | EmptyString => false
  | String a rest => Ascii.eqb a c || has_char c rest
  end.

End Text.

(** ** Histories of the database file

    The store of a running installation is what a sequence of calls of the
    data layer leaves behind, starting from a new file.  A call that fails
    leaves the file as it was: CreateUser runs in a transaction that is
    rolled back, and the other calls do not fail. *)

Module History.
Import Models DB Schema.

Inductive command : Type :=
| Start (admin_first : bool)                          (* NewDatabase: createTables *)
| Register (username email passwordHash : string)     (* CreateUser *)
| Grant (userID roleID : Z) (assignedBy : option Z)   (* AssignRole *)
| Revoke (userID roleID : Z).                         (* RemoveRole *)

Section Scan.

Variable scan_users : list UserRow -> list UserRow.

Definition apply (st : Store) (c : command) : Result error Store :=
  match c with
  | Start admin_first => createTables admin_first scan_users st
  | Register username email passwordHash => CreateUser st username email passwordHash
  | Grant userID roleID assignedBy => AssignRole st userID roleID assignedBy
  | Revoke userID roleID => RemoveRole st userID roleID
  end.

Definition exec (st : Store) (c : command) : Store :=
  match apply st c with
  | Ok st' => st'
  | Err _ => st
  end.

Definition replay (cmds : list command) : Store := fold_left exec cmds empty_store.

End Scan.

(* The server starts on a new file and zed registers. *)
Definition one_user_store : Store :=
  Eval vm_compute in
    replay scan_rowid [Start true; Register "zed" "zed@example.org" "$2a$10$hash1"].

(* Whether the [rolePermissions] map of initializeRBAC lists the permission
   under the role. *)
Definition granted (roleName permName : string) : bool :=
  existsb (fun entry => String.eqb (fst entry) roleName
                        && existsb (String.eqb permName) (snd entry))
          rolePermissions.

(* The catalog: the three tables that only initializeRBAC writes. *)
Definition same_catalog (st st' : Store) : Prop :=
  roles st' = roles st /\ permissions st' = permissions st /\
  role_permissions st' = role_permissions st.

(* The catalog that initializeRBAC writes into a new file. *)
Definition first_catalog : Store :=
  Eval vm_compute in
    match initializeRBAC true empty_store with
    | Ok st => st
    | Err _ => empty_store
    end.

Definition link (rp : RolePermissionRow) : Z * Z := (rp_role_id rp, rp_permission_id rp).

Definition cataloged (st : Store) : Prop :=
  roles st = roles first_catalog /\ permissions st = permissions first_catalog /\
  Permutation (map link (role_permissions st)) (map link (role_permissions first_catalog)).

(** Constraints of the schema on [users] and [user_roles]. *)

(* users.id and user_roles.id: INTEGER PRIMARY KEY *)
Definition pk_users (st : Store) : Prop := List.NoDup (map u_id (users st)).
Definition pk_user_roles (st : Store) : Prop := List.NoDup (map ur_id (user_roles st)).

(* users.username and users.email: TEXT UNIQUE *)
Definition unique_usernames (st : Store) : Prop := List.NoDup (map u_username (users st)).
Definition unique_emails (st : Store) : Prop := List.NoDup (map u_email (users st)).

(* user_roles: UNIQUE(user_id, role_id) *)
Definition unique_assignments (st : Store) : Prop :=
  List.NoDup (map (fun ur => (ur_user_id ur, ur_role_id ur)) (user_roles st)).

(* AUTOINCREMENT: the counter of a table is at or above every rowid in it. *)
Definition counters_cover (st : Store) : Prop :=
  (forall u, In u (users st) -> u_id u <= seq_users st) /\
  (forall ur, In ur (user_roles st) -> ur_id ur <= seq_user_roles st).

Definition constrained (st : Store) : Prop :=
  pk_users st /\ unique_usernames st /\ unique_emails st /\
  pk_user_roles st /\ unique_assignments st /\ counters_cover st.

End History.

(** ** Further queries of [database.go] *)

Module Directory.
Import Models DB.

Definition GetUserByUsername (st : Store) (username : string) : Result error User :=
  match List.find (fun u => String.eqb (u_username u) username) (users st) with
  | Some u => Ok (mkUser (u_id u) (u_username u) (u_email u) (u_password_hash u) [])
  | None => Err ErrNoRows
  end.

(* ORDER BY a TEXT column: ascending, bytewise.  Rows with equal keys stay
   in the order of the table; the code sorts on UNIQUE columns only. *)
Section OrderBy.

Context {A : Type}.
Variable key : A -> string.

Fixpoint insert_by (x : A) (sorted : list A) : list A :=
  match sorted with
  | [] => [x]
  | y :: rest =>
      if String.leb (key x) (key y) then x :: y :: rest else y :: insert_by x rest
  end.

Definition order_by (rows : list A) : list A := fold_right insert_by [] rows.

Definition in_order (a b : A) : Prop := String.leb (key a) (key b) = true.

End OrderBy.

(* SELECT ... FROM roles ORDER BY name *)
Definition GetAllRoles (st : Store) : Result error (list Role) :=
  Ok (map (fun r => mkRole (r_id r) (r_name r) (r_description r) [])
          (order_by r_name (roles st))).

(* The loop over the rows of SELECT ... FROM users ORDER BY username *)
Fixpoint scanUsersWithRoles (st : Store) (rows : list UserRow) (users : list User)
    : Result error (list User) :=
  match rows with
  | [] => Ok users
  | u :: rest =>
      (* Get user roles *)
      roles <<- GetUserRoles st (u_id u) ;;
      scanUsersWithRoles st rest
        (users ++ [mkUser (u_id u) (u_username u) (u_email u) (u_password_hash u) roles])
  end.

Definition GetAllUsersWithRoles (st : Store) : Result error (list User) :=
  scanUsersWithRoles st (order_by u_username (users st)) [].

End Directory.

(** ** The HTTP handlers

    A handler reads the request, the clock and the random source, reads
    and writes the session registry and the database, and writes to the
    [http.ResponseWriter]; what it writes is kept as the list of the calls
    it makes on the writer, in order.  The templates are not part of the
    code read here: a rendered page is recorded by its name and arguments.

    A handler is taken as it runs on its own: its calls on the registry and
    on the database follow one another on the world it found.  The program
    holds no lock while a handler runs, so what other requests and the
    cleanup pass do between two calls of a handler is not covered. *)

Module Strconv.

Inductive error : Type :=
| ErrSyntax       (* strconv.ErrSyntax *)
| ErrRange.       (* strconv.ErrRange *)

Definition digit (c : ascii) : option Z :=
  let n := Z.of_N (N_of_ascii c) in
  if (48 <=? n) && (n <=? 57) then Some (n - 48) else None.

Fixpoint digits (s : string) (acc : Z) : option Z :=
  match s with
  | EmptyString => Some acc
  | String c rest =>
      match digit c with
      | Some d => digits rest (acc * 10 + d)
      | None => None
      end
  end.

(* strconv.Atoi, for the 64-bit [int] of the platforms the server runs on:
   an optional sign, then decimal digits only, and a value that fits. *)
Definition Atoi (s : string) : Result error Z :=
  match s with
  | EmptyString => Err ErrSyntax
  | String c rest =>
      let negative := Ascii.eqb c "-"%char in
      let body := if negative || Ascii.eqb c "+"%char then rest else s in
      match body with
      | EmptyString => Err ErrSyntax
      | _ =>
          match digits body 0 with
          | None => Err ErrSyntax
          | Some n =>
              let v := if negative then - n else n in
              if (- 2 ^ 63 <=? v) && (v <=? 2 ^ 63 - 1) then Ok v else Err ErrRange
          end
      end
  end.

End Strconv.

Module Http.
Import Models.

Definition StatusOK : Z := 200.
Definition StatusSeeOther : Z := 303.
Definition StatusBadRequest : Z := 400.
Definition StatusForbidden : Z := 403.
Definition StatusNotFound : Z := 404.
Definition StatusMethodNotAllowed : Z := 405.
Definition StatusInternalServerError : Z := 500.

Inductive SameSite : Type :=
| SameSiteUnset            (* the zero value: no SameSite attribute *)
| SameSiteLaxMode.

(* The fields of [http.Cookie] that the code sets. *)
Record SetCookie : Type := mkSetCookie {
  CookieName : string;
  CookieValue : string;
  CookiePath : string;
  MaxAge : Z;                (* seconds; below zero: delete the cookie now *)
  Secure : bool;
  HttpOnly : bool;
  CookieSameSite : SameSite
}.

Inductive Page : Type :=
| LandingPage                                   (* templates.Landing() *)
| LoginPage                                     (* templates.Login() *)
| RegisterPage                                  (* templates.Register() *)
| AdminIndexPage (users : list User) (roles : list Role) (user : option User).

(* The calls on the response writer. *)
Inductive Effect : Type :=
| HttpSetCookie (c : SetCookie)                 (* http.SetCookie(w, c) *)
| HeaderSet (key value : string)                (* w.Header().Set(key, value) *)
| WriteHeader (status : Z)                      (* w.WriteHeader(status) *)
| Write (body : string)                         (* w.Write(body) *)
| HttpError (message : string) (status : Z)     (* http.Error(w, message, status) *)
| HttpRedirect (url : string) (status : Z)      (* http.Redirect(w, r, url, status) *)
| HttpNotFound                                  (* http.NotFound(w, r) *)
| Render (page : Page)                          (* templates.X(...).Render(ctx, w) *)
| Panic.                                        (* nil pointer dereference *)

Record Request : Type := mkHttpRequest {
  Method : string;
  Path : string;                                (* r.URL.Path *)
  Form : gmap string (list string);             (* r.Form, once parsed *)
  Base : Auth.Request;                          (* cookies and headers *)
  ContextUser : option User                     (* r.Context().Value("user") *)
}.

(* r.FormValue(key): the first value of the key, the empty string if there
   is none. *)
Definition FormValue (r : Request) (key : string) : string :=
  match Form r !! key with
  | Some (v :: _) => v
  | _ => ""
  end.

(* r.WithContext(context.WithValue(r.Context(), "user", user)) *)
Definition WithUser (r : Request) (user : User) : Request :=
  mkHttpRequest (Method r) (Path r) (Form r) (Base r) (Some user).

(* What the handlers share: the registry and the database. *)
Record World : Type := mkWorld {
  sessionManager : Auth.SessionManager;
  database : DB.Store
}.

(* What a request finds outside: time.Now() and the bytes of rand.Read. *)
Record Env : Type := mkEnv {
  now : Auth.Time;
  entropy : list byte
}.

Definition Handler : Type := Env -> World -> Request -> World * list Effect.

(* SetSessionCookie and ClearSessionCookie of [session.go] *)
Definition SetSessionCookie (token : string) : Effect :=
  HttpSetCookie (mkSetCookie "session_token" token "/" 86400 false true SameSiteLaxMode).

Definition ClearSessionCookie : Effect :=
  HttpSetCookie (mkSetCookie "session_token" "" "/" (-1) false true SameSiteUnset).

End Http.

(** *** [handlers/admin.go] *)

Module AdminHandler.
Import Models Http.

Definition getUserFromContext (r : Request) : option User := ContextUser r.

Definition hasPermission (st : DB.Store) (user : option User) (permissionName : string)
    : Result DB.error bool :=
  Handlers.hasPermission st user permissionName.

Definition Index : Handler :=
  fun env w r =>
    let user := getUserFromContext r in
    (* Check admin permission *)
    match hasPermission (database w) user "manage_roles" with
    | Err _ => (w, [HttpError "Failed to check permissions" StatusInternalServerError])
    | Ok false => (w, [HttpError "Access denied" StatusForbidden])
    | Ok true =>
        match Directory.GetAllUsersWithRoles (database w) with
        | Err _ => (w, [HttpError "Failed to fetch users" StatusInternalServerError])
        | Ok users =>
            match Directory.GetAllRoles (database w) with
            | Err _ => (w, [HttpError "Failed to fetch roles" StatusInternalServerError])
            | Ok roles => (w, [Render (AdminIndexPage users roles user)])
            end
        end
    end.

Definition AssignRole : Handler :=
  fun env w r =>
    let user := getUserFromContext r in
    match hasPermission (database w) user "manage_roles" with
    | Err _ => (w, [HttpError "Failed to check permissions" StatusInternalServerError])
    | Ok false => (w, [HttpError "Access denied" StatusForbidden])
    | Ok true =>
        if negb (String.eqb (Method r) "POST")
        then (w, [HttpError "Method not allowed" StatusMethodNotAllowed])
        else
          let userIDStr := FormValue r "user_id" in
          let roleIDStr := FormValue r "role_id" in
          if String.eqb userIDStr "" || String.eqb roleIDStr ""
          then (w, [HttpError "User ID and Role ID are required" StatusBadRequest])
          else
            match Strconv.Atoi userIDStr with
            | Err _ => (w, [HttpError "Invalid User ID" StatusBadRequest])
            | Ok userID =>
                match Strconv.Atoi roleIDStr with
                | Err _ => (w, [HttpError "Invalid Role ID" StatusBadRequest])
                | Ok roleID =>
                    match user with
                    | None => (w, [Panic])        (* &user.ID *)
                    | Some user =>
                        match DB.AssignRole (database w) userID roleID (Some (ID user)) with
                        | Err _ =>
                            (w, [HttpError "Failed to assign role" StatusInternalServerError])
                        | Ok db =>
                            (mkWorld (sessionManager w) db,
                             [HttpRedirect "/admin" StatusSeeOther])
                        end
                    end
                end
            end
    end.

Definition RemoveRole : Handler :=
  fun env w r =>
    let user := getUserFromContext r in
    match hasPermission (database w) user "manage_roles" with
    | Err _ => (w, [HttpError "Failed to check permissions" StatusInternalServerError])
    | Ok false => (w, [HttpError "Access denied" StatusForbidden])
    | Ok true =>
        if negb (String.eqb (Method r) "POST")
        then (w, [HttpError "Method not allowed" StatusMethodNotAllowed])
        else
          let userIDStr := FormValue r "user_id" in
          let roleIDStr := FormValue r "role_id" in
          if String.eqb userIDStr "" || String.eqb roleIDStr ""
          then (w, [HttpError "User ID and Role ID are required" StatusBadRequest])
          else
            match Strconv.Atoi userIDStr with
            | Err _ => (w, [HttpError "Invalid User ID" StatusBadRequest])
            | Ok userID =>
                match Strconv.Atoi roleIDStr with
                | Err _ => (w, [HttpError "Invalid Role ID" StatusBadRequest])
                | Ok roleID =>
                    match DB.RemoveRole (database w) userID roleID with
                    | Err _ =>
                        (w, [HttpError "Failed to remove role" StatusInternalServerError])
                    | Ok db =>
                        (mkWorld (sessionManager w) db,
                         [HttpRedirect "/admin" StatusSeeOther])
                    end
                end
            end
    end.

(* No wrapped handler reads the clock, so the instant of the session check
   stands for the whole request. *)
Definition AuthMiddleware (next : Handler) : Handler :=
  fun env w r =>
    match Auth.GetSessionToken (Base r) with
    | Err _ => (w, [HttpRedirect "/login" StatusSeeOther])
    | Ok sessionToken =>
        let '(validated, sm) :=
          Auth.ValidateSession (sessionManager w) (now env) sessionToken in
        let w := mkWorld sm (database w) in
        match validated with
        | Err _ => (w, [ClearSessionCookie; HttpRedirect "/login" StatusSeeOther])
        | Ok session =>
            (* Add user with roles to context *)
            match DB.GetUserWithRoles (database w) (Auth.UserID session) with
            | Err _ => (w, [HttpRedirect "/login" StatusSeeOther])
            | Ok user => next env w (WithUser r user)
            end
        end
    end.

End AdminHandler.

(** *** [handlers/library.go], the middleware *)

Module LibraryHandler.
Import Models Http.

Definition AuthMiddleware (next : Handler) : Handler :=
  fun env w r =>
    match Auth.GetSessionToken (Base r) with
    | Err _ => (w, [HttpRedirect "/login" StatusSeeOther])
    | Ok sessionToken =>
        let '(validated, sm) :=
          Auth.ValidateSession (sessionManager w) (now env) sessionToken in
        let w := mkWorld sm (database w) in
        match validated with
        | Err _ => (w, [ClearSessionCookie; HttpRedirect "/login" StatusSeeOther])
        | Ok session =>
            (* Add user to context *)
            match DB.GetUserByID (database w) (Auth.UserID session) with
            | Err _ => (w, [HttpRedirect "/login" StatusSeeOther])
            | Ok user => next env w (WithUser r user)
            end
        end
    end.

End LibraryHandler.

(** *** [handlers/auth.go] *)

Module AuthHandler.
Import Models Http.

(* err.Error() *)
Fixpoint ErrorText (e : DB.error) : string :=
  match e with
  | DB.ErrNoRows => "sql: no rows in result set"
  | DB.ErrConstraint => "UNIQUE constraint failed"   (* then the columns *)
  | DB.Wrap context cause => context ++ ": " ++ ErrorText cause
  end.

Fixpoint HasPrefix (s prefix : string) : bool :=
  match prefix, s with
  | EmptyString, _ => true
  | String a prefix', String b s' => Ascii.eqb a b && HasPrefix s' prefix'
  | String _ _, EmptyString => false
  end.

(* strings.Contains *)
Fixpoint Contains (s substr : string) : bool :=
  HasPrefix s substr ||
  match s with
  | EmptyString => false
  | String _ s' => Contains s' substr
  end.

Definition quote : string := String "034"%char EmptyString.

Definition renderAuthError (message : string) : list Effect :=
  [ HeaderSet "Content-Type" "text/html";
    WriteHeader StatusBadRequest;
    Write ("<div class=" ++ quote ++ "error-message" ++ quote ++ ">" ++ message ++ "</div>") ].

Section Passwords.

(* [auth.CheckPassword] and [auth.HashPassword]: their file is not among
   the sources read here. *)
Variable CheckPassword : string -> string -> bool.
Variable HashPassword : string -> Result unit string.

Definition Login : Handler :=
  fun env w r =>
    if String.eqb (Method r) "GET" then (w, [Render LoginPage])
    else if negb (String.eqb (Method r) "POST")
    then (w, [HttpError "Method not allowed" StatusMethodNotAllowed])
    else
      let username := FormValue r "username" in
      let password := FormValue r "password" in
      if String.eqb username "" || String.eqb password ""
      then (w, renderAuthError "Username and password are required")
      else
        match Directory.GetUserByUsername (database w) username with
        | Err _ => (w, renderAuthError "Invalid username or password")
        | Ok user =>
            if negb (CheckPassword password (PasswordHash user))
            then (w, renderAuthError "Invalid username or password")
            else
              let '(created, sm) :=
                Auth.CreateSession (sessionManager w) (entropy env) (now env)
                                   (ID user) (Username user) in
              let w := mkWorld sm (database w) in
              match created with
              | Err _ =>
                  (w, [HttpError "Failed to create session" StatusInternalServerError])
              | Ok sessionToken =>
                  (w, SetSessionCookie sessionToken ::
                      (* r.Header.Get makes the key canonical *)
                      if String.eqb (Auth.HeaderGet (Auth.Header (Base r)) "Hx-Request") "true"
                      then [HeaderSet "HX-Redirect" "/library"; WriteHeader StatusOK]
                      else [HttpRedirect "/library" StatusSeeOther])
              end
        end.

Definition Register : Handler :=
  fun env w r =>
    if String.eqb (Method r) "GET" then (w, [Render RegisterPage])
    else if negb (String.eqb (Method r) "POST")
    then (w, [HttpError "Method not allowed" StatusMethodNotAllowed])
    else
      let username := FormValue r "username" in
      let email := FormValue r "email" in
      let password := FormValue r "password" in
      let confirmPassword := FormValue r "confirm-password" in
      if String.eqb username "" || String.eqb email "" || String.eqb password ""
      then (w, renderAuthError "All fields are required")
      else if negb (String.eqb password confirmPassword)
      then (w, renderAuthError "Passwords do not match")
      else if (String.length password <? 6)%nat
      then (w, renderAuthError "Password must be at least 6 characters")
      else
        (* Check if user already exists *)
        match Directory.GetUserByUsername (database w) username with
        | Ok _ => (w, renderAuthError "Username already exists")
        | Err _ =>
            match HashPassword password with
            | Err _ => (w, [HttpError "Failed to hash password" StatusInternalServerError])
            | Ok passwordHash =>
                match DB.CreateUser (database w) username email passwordHash with
                | Err err =>
                    if Contains (ErrorText err) "UNIQUE constraint failed"
                    then (w, renderAuthError "Username or email already exists")
                    else (w, [HttpError "Failed to create user" StatusInternalServerError])
                | Ok db =>
                    let w := mkWorld (sessionManager w) db in
                    (* Auto-login after registration *)
                    match Directory.GetUserByUsername (database w) username with
                    | Err _ =>
                        (w, [HttpError "Failed to retrieve user" StatusInternalServerError])
                    | Ok user =>
                        let '(created, sm) :=
                          Auth.CreateSession (sessionManager w) (entropy env) (now env)
                                             (ID user) (Username user) in
                        let w := mkWorld sm (database w) in
                        match created with
                        | Err _ =>
                            (w, [HttpError "Failed to create session"
                                           StatusInternalServerError])
                        | Ok sessionToken =>
                            (w, SetSessionCookie sessionToken ::
                                if String.eqb (Auth.HeaderGet (Auth.Header (Base r))
                                                              "Hx-Request") "true"
                                then [HeaderSet "HX-Redirect" "/library";
                                      WriteHeader StatusOK]
                                else [HttpRedirect "/library" StatusSeeOther])
                        end
                    end
                end
            end
        end.

End Passwords.

Definition Logout : Handler :=
  fun env w r =>
    let w :=
      match Auth.GetSessionToken (Base r) with
      | Ok sessionToken =>
          mkWorld (Auth.DestroySession (sessionManager w) sessionToken) (database w)
      | Err _ => w
      end in
    (w, [ClearSessionCookie; HttpRedirect "/" StatusSeeOther]).

Definition AuthMiddleware (next : Handler) : Handler :=
  fun env w r =>
    match Auth.GetSessionToken (Base r) with
    | Err _ => (w, [HttpRedirect "/login" StatusSeeOther])
    | Ok sessionToken =>
        let '(validated, sm) :=
          Auth.ValidateSession (sessionManager w) (now env) sessionToken in
        let w := mkWorld sm (database w) in
        match validated with
        | Err _ => (w, [ClearSessionCookie; HttpRedirect "/login" StatusSeeOther])
        | Ok session =>
            match DB.GetUserWithRoles (database w) (Auth.UserID session) with
            | Err _ => (w, [HttpRedirect "/login" StatusSeeOther])
            | Ok user => next env w (WithUser r user)
            end
        end
    end.

End AuthHandler.

(** *** [main.go] *)

Module Main.
Import Models Http.

(* The handler of the pattern "/" *)
Definition home : Handler :=
  fun env w r =>
    if String.eqb (Path r) "/"
    then
      (* Check if user is logged in *)
      match Auth.GetSessionToken (Base r) with
      | Ok sessionToken =>
          let '(validated, sm) :=
            Auth.ValidateSession (sessionManager w) (now env) sessionToken in
          let w := mkWorld sm (database w) in
          match validated with
          | Ok _ => (w, [HttpRedirect "/library" StatusSeeOther])
          | Err _ => (w, [Render LandingPage])
          end
      | Err _ => (w, [Render LandingPage])
      end
    else (w, [HttpNotFound]).

(* The patterns that [main] registers, the static files apart. *)
Inductive route : Type :=
| RouteHome              (* "/" *)
| RouteLogin             (* "/login", "/auth/login" *)
| RouteRegister          (* "/register", "/auth/register" *)
| RouteLogout            (* "/auth/logout" *)
| RouteLibrary           (* "/library", "/library/search", "/library/view/", "/upload",
                            "/library/upload", "/library/delete" *)
| RouteAdmin             (* "/admin" *)
| RouteAdminAssignRole   (* "/admin/assign-role" *)
| RouteAdminRemoveRole.  (* "/admin/remove-role" *)

Section Routes.

Variable CheckPassword : string -> string -> bool.
Variable HashPassword : string -> Result unit string.

(* The handlers of the library read and write the PDF tables and the
   upload directory, which are not part of the world kept here: to this
   world, they only answer. *)
Variable library : Env -> World -> Request -> list Effect.

Definition mux (rt : route) : Handler :=
  match rt with
  | RouteHome => home
  | RouteLogin => AuthHandler.Login CheckPassword
  | RouteRegister => AuthHandler.Register HashPassword
  | RouteLogout => AuthHandler.Logout
  | RouteLibrary => LibraryHandler.AuthMiddleware (fun env w r => (w, library env w r))
  | RouteAdmin => AdminHandler.AuthMiddleware AdminHandler.Index
  | RouteAdminAssignRole => AdminHandler.AuthMiddleware AdminHandler.AssignRole
  | RouteAdminRemoveRole => AdminHandler.AuthMiddleware AdminHandler.RemoveRole
  end.

End Routes.

End Main.

(** ** Vocabulary of the statements about handlers *)

Module Access.
Import Models Http.

(* The request carries the token of a session that has not expired. *)
Definition carries_session (env : Env) (w : World) (r : Request)
    (token : string) (session : Auth.Session) : Prop :=
  Auth.GetSessionToken (Base r) = Ok token /\
  Auth.sessions (sessionManager w) !! token = Some session /\
  now env <= Auth.ExpiresAt session.

(* The request carries a token that the registry does not know or whose
   session has expired. *)
Definition carries_dead_token (env : Env) (w : World) (r : Request) (token : string)
    : Prop :=
  Auth.GetSessionToken (Base r) = Ok token /\
  forall session, Auth.sessions (sessionManager w) !! token = Some session ->
                  Auth.ExpiresAt session < now env.

(* The world after the request is the world before, or lacks only the
   entry of the dead token that the request carried. *)
Definition drops_dead_token (env : Env) (r : Request) (w w' : World) : Prop :=
  database w' = database w /\
  (sessionManager w' = sessionManager w \/
   exists token, carries_dead_token env w r token /\
                 sessionManager w' = Auth.DestroySession (sessionManager w) token).

(* What a middleware does with the query [getUser]: it hands the request
   to the wrapped handler, with the user in the context and the world as
   it is, exactly when the request carries a live session of a user the
   query finds; otherwise it answers itself with a redirect to /login,
   whatever the wrapped handler is.  Before the redirect it clears the
   cookie exactly when the token is dead, and then the entry of that token
   is what the registry loses; without a dead token the world stays. *)
Definition guards (getUser : DB.Store -> Z -> Result DB.error User)
    (middleware : Handler -> Handler) (env : Env) (w : World) (r : Request) : Prop :=
  (forall token session user,
     carries_session env w r token session ->
     getUser (database w) (Auth.UserID session) = Ok user ->
     forall next, middleware next env w r = next env w (WithUser r user)) /\
  ((forall token session user,
      carries_session env w r token session ->
      getUser (database w) (Auth.UserID session) = Ok user -> False) ->
   exists w' cleared,
     (forall next, middleware next env w r
                   = (w', cleared ++ [HttpRedirect "/login" StatusSeeOther])%list) /\
     database w' = database w /\
     (forall token, carries_dead_token env w r token ->
        cleared = [ClearSessionCookie] /\
        sessionManager w' = Auth.DestroySession (sessionManager w) token) /\
     ((forall token, ~ carries_dead_token env w r token) -> cleared = [] /\ w' = w)).

(* The user of the context may manage roles. *)
Definition may_manage_roles (w : World) (r : Request) (user : User) : Prop :=
  ContextUser r = Some user /\
  DB.HasPermission (database w) (ID user) "manage_roles" = Ok true.

(* The form of a role request is complete. *)
Definition role_form (r : Request) (userID roleID : Z) : Prop :=
  Method r = "POST" /\
  Strconv.Atoi (FormValue r "user_id") = Ok userID /\
  Strconv.Atoi (FormValue r "role_id") = Ok roleID.

(* What the two role handlers have in common, in the order of their
   checks: without the permission the answer is 403, whatever the method and
   the form; with it, 405 for a method other than POST; with it and a POST
   whose ids are missing or are no integers, 400; with it and a complete
   form the database changes, by [change], and the answer is a redirect to
   /admin.  Only in the last case does the world change.  The registry is
   never touched and a nil user is never dereferenced. *)
Definition role_handler (handler : Handler)
    (change : DB.Store -> User -> Z -> Z -> DB.Store)
    (env : Env) (w : World) (r : Request) : Prop :=
  let result := handler env w r in
  ((forall user, ~ may_manage_roles w r user) ->
     result = (w, [HttpError "Access denied" StatusForbidden])) /\
  ((exists user, may_manage_roles w r user) -> Method r <> "POST" ->
     result = (w, [HttpError "Method not allowed" StatusMethodNotAllowed])) /\
  ((exists user, may_manage_roles w r user) -> Method r = "POST" ->
     (forall userID roleID, ~ role_form r userID roleID) ->
     exists message, result = (w, [HttpError message StatusBadRequest])) /\
  (forall user userID roleID,
     may_manage_roles w r user -> role_form r userID roleID ->
     result = (mkWorld (sessionManager w) (change (database w) user userID roleID),
               [HttpRedirect "/admin" StatusSeeOther])) /\
  (fst result <> w ->
     exists user userID roleID,
       may_manage_roles w r user /\ role_form r userID roleID) /\
  sessionManager (fst result) = sessionManager w /\
  ~ In Panic (snd result).

(* The login form names an account and the password passes the check. *)
Definition presents_credentials (CheckPassword : string -> string -> bool)
    (w : World) (r : Request) (user : User) : Prop :=
  Method r = "POST" /\
  FormValue r "username" <> "" /\ FormValue r "password" <> "" /\
  Directory.GetUserByUsername (database w) (FormValue r "username") = Ok user /\
  CheckPassword (FormValue r "password") (PasswordHash user) = true.

(* The registration form passes the checks made before the database is
   asked. *)
Definition registration_form (r : Request) : Prop :=
  Method r = "POST" /\
  FormValue r "username" <> "" /\ FormValue r "email" <> "" /\
  FormValue r "password" <> "" /\
  FormValue r "confirm-password" = FormValue r "password" /\
  (6 <= String.length (FormValue r "password"))%nat.

(* The two ways a handler sends the browser to /library: for HTMX, and
   for everyone else. *)
Definition to_library (effects : list Effect) : Prop :=
  effects = [HeaderSet "HX-Redirect" "/library"; WriteHeader StatusOK] \/
  effects = [HttpRedirect "/library" StatusSeeOther].

(* The session under [token] was opened by this request for an account of
   the database: it carries the id and the username of the account. *)
Definition opened_for_account (env : Env) (db : DB.Store) (token : string)
    (session : Auth.Session) : Prop :=
  token = Auth.generateToken (entropy env) /\
  Auth.ExpiresAt session = now env + 24 * Auth.Hour /\
  exists u, In u (DB.users db) /\
            DB.u_id u = Auth.UserID session /\
            DB.u_username u = Auth.Username session.

End Access.

(** * Properties of the session manager *)

Module SessionSpec.
Import Auth SessionTrace.

Lemma After_spec (t u : Time) : After t u = true <-> u < t.
Proof. unfold After. apply Z.ltb_lt. Qed.

Lemma After_false (t u : Time) : After t u = false <-> t <= u.
Proof. unfold After. apply Z.ltb_ge. Qed.

Lemma day_length : 24 * Hour = 86400000000000.
Proof. reflexivity. Qed.

(** CreateSession stores the session under the token it returns, with the
    expiry one day after the call. *)
Lemma CreateSession_lookup sm entropy now userID username :
  fst (CreateSession sm entropy now userID username) = Ok (generateToken entropy) /\
  sessions (snd (CreateSession sm entropy now userID username)) !! generateToken entropy
    = Some (mkSession userID username (now + 24 * Hour)).
Proof.
  split; [reflexivity|]. cbn [CreateSession snd sessions].
  apply lookup_insert_eq.
Qed.

(** A present session is handed back exactly while [now] is not after its
    expiry; the registry is then left as it is. *)
Lemma ValidateSession_present sm now token s :
  sessions sm !! token = Some s ->
  ValidateSession sm now token =
    if After now (ExpiresAt s)
    then (Err ErrInvalidToken, DestroySession sm token)
    else (Ok s, sm).
Proof. intros H. unfold ValidateSession. rewrite H. reflexivity. Qed.

Lemma ValidateSession_absent sm now token :
  sessions sm !! token = None ->
  ValidateSession sm now token = (Err ErrInvalidToken, sm).
Proof. intros H. unfold ValidateSession. rewrite H. reflexivity. Qed.

(** C1, as amended: for a session that CreateSession issued at [created],
    validating its token at [now] succeeds iff [now <= created + 24h]; at the
    boundary instant itself the session is still valid and is returned. *)
Theorem ValidateSession_succeeds_iff_within_day
    (sm : SessionManager) (entropy : list byte) (created now : Time)
    (userID : Z) (username : string) :
  let issued_sm := snd (CreateSession sm entropy created userID username) in
  let token := generateToken entropy in
  let session := mkSession userID username (created + 24 * Hour) in
  (fst (ValidateSession issued_sm now token) = Ok session <-> now <= created + 24 * Hour) /\
  (fst (ValidateSession issued_sm now token) = Err ErrInvalidToken <-> created + 24 * Hour < now) /\
  ValidateSession issued_sm (created + 24 * Hour) token = (Ok session, issued_sm).
Proof.
  intros issued_sm token session.
  destruct (CreateSession_lookup sm entropy created userID username) as [_ Hl].
  fold issued_sm token session in Hl.
  assert (Hv : forall t, ValidateSession issued_sm t token =
                 if After t (created + 24 * Hour)
                 then (Err ErrInvalidToken, DestroySession issued_sm token)
                 else (Ok session, issued_sm)).
  { intros t. rewrite (ValidateSession_present _ _ _ _ Hl). reflexivity. }
  repeat split.
  - rewrite Hv. destruct (After now _) eqn:E; cbn; [discriminate|].
    intros _. apply After_false; exact E.
  - intros Hle. rewrite Hv. apply After_false in Hle. rewrite Hle. reflexivity.
  - rewrite Hv. destruct (After now _) eqn:E; cbn; [|discriminate].
    intros _. apply After_spec; exact E.
  - intros Hlt. rewrite Hv. apply After_spec in Hlt. rewrite Hlt. reflexivity.
  - rewrite Hv. replace (After _ _) with false; [reflexivity|].
    symmetry. apply After_false. lia.
Qed.

(** C1 as stated fails at the boundary: a session created at instant 1000
    and validated exactly 24 hours later is returned, not rejected. *)
Lemma ValidateSession_boundary_is_valid :
  let sm := snd (CreateSession NewSessionManager (repeat x00 32) 1000 7 "alice") in
  let token := generateToken (repeat x00 32) in
  fst (ValidateSession sm (1000 + 24 * Hour) token)
    = Ok (mkSession 7 "alice" (1000 + 24 * Hour)) /\
  fst (ValidateSession sm (1000 + 24 * Hour) token) <> Err ErrInvalidToken.
Proof.
  intros sm token.
  assert (H : fst (ValidateSession sm (1000 + 24 * Hour) token)
              = Ok (mkSession 7 "alice" (1000 + 24 * Hour))).
  { unfold sm, token.
    destruct (CreateSession_lookup NewSessionManager (repeat x00 32) 1000 7 "alice")
      as [_ Hl].
    rewrite (ValidateSession_present _ _ _ _ Hl). reflexivity. }
  split; [exact H|]. rewrite H. discriminate.
Qed.

(** *** Lookup-triggered eviction *)

Lemma DestroySession_lookup sm token k :
  sessions (DestroySession sm token) !! k =
    if decide (token = k) then None else sessions sm !! k.
Proof.
  cbn [DestroySession sessions]. rewrite lookup_delete. reflexivity.
Qed.

(** *** The sweep *)

Lemma sweep_lookup now (entries : list (string * Session)) (m : gmap string Session) k :
  sweep now entries m !! k =
    if existsb (fun e => bool_decide (fst e = k) && After now (ExpiresAt (snd e))) entries
    then None else m !! k.
Proof.
  revert m. induction entries as [|[k0 s0] entries IH]; intros m; [reflexivity|].
  cbn [sweep fold_left existsb fst snd].
  change (fold_left _ entries ?m0) with (sweep now entries m0).
  rewrite IH. clear IH.
  destruct (existsb _ entries).
  - rewrite orb_true_r. reflexivity.
  - rewrite orb_false_r.
    destruct (After now (ExpiresAt s0)) eqn:E.
    + rewrite andb_true_r. rewrite lookup_delete.
      destruct (decide (k0 = k)) as [Heq|Hne].
      * rewrite bool_decide_eq_true_2 by assumption. reflexivity.
      * rewrite bool_decide_eq_false_2 by assumption. reflexivity.
    + rewrite andb_false_r. reflexivity.
Qed.

(* The entries visited are those of the registry, whatever the order. *)
Lemma visited_expired now (order : list (string * Session)) (m : gmap string Session) k :
  order ≡ₚ map_to_list m ->
  existsb (fun e => bool_decide (fst e = k) && After now (ExpiresAt (snd e))) order = true
  <-> exists s, m !! k = Some s /\ After now (ExpiresAt s) = true.
Proof.
  intros Hperm. rewrite existsb_exists. split.
  - intros [[k0 s0] [Hin Hb]]. cbn [fst snd] in Hb.
    apply andb_true_iff in Hb as [Hk He]. apply bool_decide_eq_true in Hk. subst k0.
    exists s0. split; [|exact He].
    apply elem_of_map_to_list. rewrite <- Hperm. apply list_elem_of_In. exact Hin.
  - intros [s [Hl He]]. exists (k, s). split.
    + apply list_elem_of_In. rewrite Hperm. apply elem_of_map_to_list. exact Hl.
    + cbn [fst snd]. rewrite bool_decide_eq_true_2 by reflexivity. exact He.
Qed.

(** Whatever order the range loop takes, the registry after the sweep is the
    old one without its expired entries. *)
Lemma CleanupExpiredSessionsIn_lookup order sm now k :
  order ≡ₚ map_to_list (sessions sm) ->
  sessions (CleanupExpiredSessionsIn order sm now) !! k =
    match sessions sm !! k with
    | Some s => if After now (ExpiresAt s) then None else Some s
    | None => None
    end.
Proof.
  intros Hperm. cbn [CleanupExpiredSessionsIn sessions]. rewrite sweep_lookup.
  destruct (existsb _ order) eqn:E.
  - apply (visited_expired now order (sessions sm) k Hperm) in E as [s [Hl He]].
    rewrite Hl, He. reflexivity.
  - destruct (sessions sm !! k) as [s|] eqn:Hl; [|reflexivity].
    destruct (After now (ExpiresAt s)) eqn:He; [|reflexivity].
    assert (Ht : existsb (fun e => bool_decide (fst e = k) && After now (ExpiresAt (snd e)))
                   order = true).
    { apply (visited_expired now order (sessions sm) k Hperm). eauto. }
    congruence.
Qed.

Lemma CleanupExpiredSessions_lookup sm now k :
  sessions (CleanupExpiredSessions sm now) !! k =
    match sessions sm !! k with
    | Some s => if After now (ExpiresAt s) then None else Some s
    | None => None
    end.
Proof. apply CleanupExpiredSessionsIn_lookup. reflexivity. Qed.

(** The outcome does not depend on the iteration order. *)
Lemma CleanupExpiredSessionsIn_order order sm now :
  order ≡ₚ map_to_list (sessions sm) ->
  sessions (CleanupExpiredSessionsIn order sm now) = sessions (CleanupExpiredSessions sm now).
Proof.
  intros Hperm. apply map_eq. intros k.
  rewrite CleanupExpiredSessionsIn_lookup by assumption.
  rewrite CleanupExpiredSessions_lookup. reflexivity.
Qed.

(** *** Only issued tokens are ever in the registry *)

Lemma step_keys sm c k :
  is_Some (sessions (step sm c) !! k) ->
  is_Some (sessions sm !! k) \/
  exists entropy now userID username,
    c = CallCreate entropy now userID username /\ k = generateToken entropy.
Proof.
  destruct c as [entropy now userID username|now token|token|now]; cbn [step].
  - cbn [CreateSession snd sessions]. rewrite lookup_insert.
    destruct (decide (generateToken entropy = k)) as [<-|Hne]; intros H.
    + right. eauto 6.
    + left. exact H.
  - unfold ValidateSession. destruct (sessions sm !! token) as [s|] eqn:Hl.
    + destruct (After now (ExpiresAt s)); cbn [snd sessions]; [|auto].
      rewrite lookup_delete. destruct (decide (token = k)); [|auto].
      intros [? ?]; discriminate.
    + cbn [snd]. auto.
  - rewrite DestroySession_lookup. destruct (decide (token = k)); [|auto].
    intros [? ?]; discriminate.
  - rewrite CleanupExpiredSessions_lookup.
    destruct (sessions sm !! k) as [s|]; [eauto|].
    intros [? ?]; discriminate.
Qed.

Lemma issued_app calls1 calls2 :
  issued (calls1 ++ calls2) = (issued calls1 ++ issued calls2)%list.
Proof.
  induction calls1 as [|c calls1 IH]; [reflexivity|].
  destruct c; cbn [issued app]; rewrite ?IH; reflexivity.
Qed.

Lemma run_snoc calls c : run (calls ++ [c]) = step (run calls) c.
Proof. unfold run. rewrite fold_left_app. reflexivity. Qed.

Lemma registry_keys_issued calls k :
  is_Some (sessions (run calls) !! k) -> In k (issued calls).
Proof.
  induction calls as [|c calls IH] using rev_ind.
  - cbn. rewrite lookup_empty. intros [? ?]; discriminate.
  - rewrite run_snoc, issued_app. intros H. apply in_or_app.
    apply step_keys in H as [H|(entropy & now & userID & username & -> & ->)].
    + left. auto.
    + right. cbn. auto.
Qed.

(** C3: a token absent from the registry is rejected with InvalidToken and
    the registry is left as it is; so is every token that no CreateSession of
    the trace issued.  A present but expired token is rejected with
    InvalidToken, its entry is removed, and every other entry is kept. *)
Theorem ValidateSession_rejects_unknown_and_expired
    (sm : SessionManager) (now : Time) (token : string) :
  (sessions sm !! token = None ->
     ValidateSession sm now token = (Err ErrInvalidToken, sm)) /\
  (forall calls, sm = run calls -> ~ In token (issued calls) ->
     ValidateSession sm now token = (Err ErrInvalidToken, sm)) /\
  (forall s, sessions sm !! token = Some s -> ExpiresAt s < now ->
     fst (ValidateSession sm now token) = Err ErrInvalidToken /\
     sessions (snd (ValidateSession sm now token)) !! token = None /\
     forall other, other <> token ->
       sessions (snd (ValidateSession sm now token)) !! other = sessions sm !! other).
Proof.
  split; [apply ValidateSession_absent|]. split.
  - intros calls -> Hnot. apply ValidateSession_absent.
    destruct (sessions (run calls) !! token) eqn:Hl; [|reflexivity].
    exfalso. apply Hnot. apply registry_keys_issued. rewrite Hl. eauto.
  - intros s Hl Hexp. rewrite (ValidateSession_present _ _ _ _ Hl).
    apply After_spec in Hexp. rewrite Hexp. cbn [fst snd].
    split; [reflexivity|]. split.
    + rewrite DestroySession_lookup. rewrite decide_True by reflexivity. reflexivity.
    + intros other Hne. rewrite DestroySession_lookup.
      rewrite decide_False by congruence. reflexivity.
Qed.

Lemma ValidateSession_rejects_unknown_and_expired_witness :
  let calls := [CallCreate (repeat x00 32) 0 7 "alice";
                CallCreate (repeat x01 32) 5 8 "bob"] in
  let sm := run calls in
  let alice := generateToken (repeat x00 32) in
  let bob := generateToken (repeat x01 32) in
  ValidateSession sm 10 "forged" = (Err ErrInvalidToken, sm) /\
  (fst (ValidateSession sm (1 + 24 * Hour) alice) = Err ErrInvalidToken /\
   sessions (snd (ValidateSession sm (1 + 24 * Hour) alice)) !! alice = None /\
   sessions (snd (ValidateSession sm (1 + 24 * Hour) alice)) !! bob = sessions sm !! bob).
Proof.
  intros calls sm alice bob. split.
  - apply (proj1 (proj2 (ValidateSession_rejects_unknown_and_expired sm 10 "forged")) calls).
    + reflexivity.
    + vm_compute. intros [H|[H|[]]]; discriminate H.
  - destruct (proj2 (proj2 (ValidateSession_rejects_unknown_and_expired
                              sm (1 + 24 * Hour) alice))
                (mkSession 7 "alice" (0 + 24 * Hour))) as (H1 & H2 & H3).
    + vm_compute. reflexivity.
    + vm_compute. reflexivity.
    + split; [exact H1|]. split; [exact H2|]. apply H3.
      vm_compute. discriminate.
Defined.

(** C8: the sweep removes exactly the entries whose expiry has passed: what
    it removes was expired, what was expired is removed, what was not expired
    stays as it was, and nothing is added. *)
Theorem CleanupExpiredSessions_removes_exactly_expired
    (sm : SessionManager) (now : Time) (token : string) (s : Session) :
  sessions sm !! token = Some s ->
  (sessions (CleanupExpiredSessions sm now) !! token = None -> ExpiresAt s < now) /\
  (ExpiresAt s < now -> sessions (CleanupExpiredSessions sm now) !! token = None) /\
  (now <= ExpiresAt s -> sessions (CleanupExpiredSessions sm now) !! token = Some s) /\
  (forall k, sessions sm !! k = None ->
             sessions (CleanupExpiredSessions sm now) !! k = None).
Proof.
  intros Hl. repeat split.
  - rewrite CleanupExpiredSessions_lookup, Hl.
    destruct (After now (ExpiresAt s)) eqn:E; [|discriminate].
    intros _. apply After_spec. exact E.
  - intros H. apply After_spec in H.
    rewrite CleanupExpiredSessions_lookup, Hl, H. reflexivity.
  - intros H. apply After_false in H.
    rewrite CleanupExpiredSessions_lookup, Hl, H. reflexivity.
  - intros k Hk. rewrite CleanupExpiredSessions_lookup, Hk. reflexivity.
Qed.

Lemma CleanupExpiredSessions_removes_exactly_expired_witness :
  let sm := run [CallCreate (repeat x00 32) 0 7 "alice";
                 CallCreate (repeat x01 32) 5 8 "bob"] in
  let alice := generateToken (repeat x00 32) in
  let bob := generateToken (repeat x01 32) in
  let now := 3 + 24 * Hour in
  sessions (CleanupExpiredSessions sm now) !! alice = None /\
  sessions (CleanupExpiredSessions sm now) !! bob = Some (mkSession 8 "bob" (5 + 24 * Hour)).
Proof.
  intros sm alice bob now. split.
  - refine (proj1 (proj2 (CleanupExpiredSessions_removes_exactly_expired
                            sm now alice (mkSession 7 "alice" (0 + 24 * Hour)) _)) _).
    + vm_compute. reflexivity.
    + vm_compute. reflexivity.
  - refine (proj1 (proj2 (proj2 (CleanupExpiredSessions_removes_exactly_expired
                            sm now bob (mkSession 8 "bob" (5 + 24 * Hour)) _))) _).
    + vm_compute. reflexivity.
    + vm_compute. discriminate.
Defined.

End SessionSpec.

(** * Properties of token extraction *)

Module TokenSpec.
Import Auth.

Lemma RequestCookie_found r name c :
  RequestCookie r name = Ok c -> In c (Cookies r) /\ Name c = name.
Proof.
  unfold RequestCookie. destruct (List.find _ (Cookies r)) as [c0|] eqn:E; [|discriminate].
  intros [= <-]. apply find_some in E as [Hin Hn].
  apply String.eqb_eq in Hn. auto.
Qed.

Lemma RequestCookie_carries r :
  carriesSessionCookie r = true <-> exists c, RequestCookie r "session_token" = Ok c.
Proof.
  unfold carriesSessionCookie, RequestCookie. split.
  - intros H. apply existsb_exists in H as [c [Hin Hn]].
    destruct (List.find _ (Cookies r)) as [c0|] eqn:E; [eauto|].
    apply (find_none _ _ E) in Hin. congruence.
  - destruct (List.find _ (Cookies r)) as [c0|] eqn:E; intros [c H]; [|discriminate].
    apply find_some in E as [Hin Hn]. apply existsb_exists. eauto.
Qed.

Lemma RequestCookie_none r :
  carriesSessionCookie r = false <-> RequestCookie r "session_token" = Err ErrNoCookie.
Proof.
  split.
  - intros H. unfold RequestCookie.
    destruct (List.find _ (Cookies r)) as [c0|] eqn:E; [|reflexivity].
    assert (Hc : carriesSessionCookie r = true).
    { apply RequestCookie_carries. unfold RequestCookie. rewrite E. eauto. }
    congruence.
  - intros H. destruct (carriesSessionCookie r) eqn:E; [|reflexivity].
    apply RequestCookie_carries in E as [c Hc]. congruence.
Qed.

(* What the fallback does with the header value that Get returns. *)
Lemma GetSessionToken_no_cookie r :
  carriesSessionCookie r = false ->
  GetSessionToken r =
    let authHeader := HeaderGet (Header r) "Authorization" in
    if String.eqb authHeader "" then Err ErrNoAuthHeader
    else match Split authHeader " "%char with
         | [p0; p1] => if String.eqb p0 "Bearer" then Ok p1 else Err ErrInvalidAuthType
         | _ => Err ErrInvalidAuthType
         end.
Proof.
  intros H. apply RequestCookie_none in H. unfold GetSessionToken. rewrite H. reflexivity.
Qed.

(** C7, as amended: the session cookie wins over the header; without the
    cookie, extraction fails with NoAuthHeader when the Authorization header
    is absent or its value is the empty string, fails with InvalidAuthType
    when the non-empty value does not split at single spaces into exactly
    [Bearer] and one more part, and returns that second part otherwise. *)
Theorem GetSessionToken_cookie_then_bearer (r : Request) :
  (forall c, RequestCookie r "session_token" = Ok c -> GetSessionToken r = Ok (Value c)) /\
  (carriesSessionCookie r = false ->
     (Header r !! "Authorization" = None -> GetSessionToken r = Err ErrNoAuthHeader) /\
     (Header r !! "Authorization" = Some [] -> GetSessionToken r = Err ErrNoAuthHeader) /\
     (forall v more, Header r !! "Authorization" = Some (v :: more) ->
        (v = "" -> GetSessionToken r = Err ErrNoAuthHeader) /\
        (v <> "" -> (forall token, Split v " "%char <> ["Bearer"; token]) ->
           GetSessionToken r = Err ErrInvalidAuthType) /\
        (forall token, Split v " "%char = ["Bearer"; token] ->
           GetSessionToken r = Ok token))).
Proof.
  split.
  { intros c Hc. unfold GetSessionToken. rewrite Hc. reflexivity. }
  intros Hno. rewrite (GetSessionToken_no_cookie r Hno). unfold HeaderGet.
  split; [intros ->; reflexivity|].
  split; [intros ->; reflexivity|].
  intros v more ->. cbv zeta. repeat split.
  - intros ->. reflexivity.
  - intros Hne Hsplit.
    destruct (String.eqb v "") eqn:E; [apply String.eqb_eq in E; contradiction|].
    destruct (Split v " "%char) as [|p0 [|p1 [|p2 ps]]]; try reflexivity.
    destruct (String.eqb p0 "Bearer") eqn:Eb; [|reflexivity].
    apply String.eqb_eq in Eb. subst p0. exfalso. exact (Hsplit p1 eq_refl).
  - intros token Hsplit.
    destruct (String.eqb v "") eqn:E.
    + apply String.eqb_eq in E. subst v. discriminate Hsplit.
    + rewrite Hsplit. reflexivity.
Qed.

Lemma GetSessionToken_cookie_then_bearer_witness :
  GetSessionToken (mkRequest [mkCookie "session_token" "tok1"]
                             {["Authorization" := ["Bearer abc"]]}) = Ok "tok1" /\
  GetSessionToken (mkRequest [] ∅) = Err ErrNoAuthHeader /\
  GetSessionToken (mkRequest [] {["Authorization" := ["Token abc"]]})
    = Err ErrInvalidAuthType /\
  GetSessionToken (mkRequest [] {["Authorization" := ["Bearer abc"]]}) = Ok "abc".
Proof.
  split; [|split; [|split]].
  - apply (proj1 (GetSessionToken_cookie_then_bearer
                    (mkRequest [mkCookie "session_token" "tok1"]
                               {["Authorization" := ["Bearer abc"]]}))
             (mkCookie "session_token" "tok1")).
    reflexivity.
  - refine (proj1 (proj2 (GetSessionToken_cookie_then_bearer (mkRequest [] ∅)) _) _).
    + reflexivity.
    + reflexivity.
  - refine (proj1 (proj2 (proj2 (proj2 (proj2 (GetSessionToken_cookie_then_bearer
              (mkRequest [] {["Authorization" := ["Token abc"]]})) _)) "Token abc" [] _)) _ _).
    + reflexivity.
    + vm_compute. reflexivity.
    + discriminate.
    + intros token H. vm_compute in H. discriminate H.
  - refine (proj2 (proj2 (proj2 (proj2 (proj2 (GetSessionToken_cookie_then_bearer
              (mkRequest [] {["Authorization" := ["Bearer abc"]]})) _)) "Bearer abc" [] _))
              "abc" _).
    + reflexivity.
    + vm_compute. reflexivity.
    + reflexivity.
Defined.

(** C7 as stated fails for a request without cookie whose Authorization
    header is present with an empty value: the value does not split into two
    parts, yet the error is NoAuthHeader and not InvalidAuthType. *)
Lemma GetSessionToken_empty_header_is_NoAuthHeader :
  let r := mkRequest [] {["Authorization" := [""]]} in
  carriesSessionCookie r = false /\
  Header r !! "Authorization" = Some [""] /\
  (forall p0 p1, Split "" " "%char <> [p0; p1]) /\
  GetSessionToken r = Err ErrNoAuthHeader /\
  GetSessionToken r <> Err ErrInvalidAuthType.
Proof.
  intros r. split; [reflexivity|]. split; [vm_compute; reflexivity|].
  split; [intros p0 p1; discriminate|].
  assert (H : GetSessionToken r = Err ErrNoAuthHeader) by (vm_compute; reflexivity).
  split; [exact H|]. rewrite H. discriminate.
Qed.

(** C10: when the request carries a session cookie, extraction returns the
    value of the first such cookie without error, also when that value is
    empty, and whatever the headers are; so NoAuthHeader and InvalidAuthType
    (the only errors there are) come only from requests without the cookie. *)
Theorem GetSessionToken_cookie_shadows_header (r : Request) :
  (carriesSessionCookie r = true ->
     exists c, In c (Cookies r) /\ Name c = "session_token" /\
               GetSessionToken r = Ok (Value c) /\
               forall h, GetSessionToken (mkRequest (Cookies r) h) = Ok (Value c)) /\
  (forall more h,
     GetSessionToken (mkRequest (mkCookie "session_token" "" :: more) h) = Ok "") /\
  (forall e, GetSessionToken r = Err e ->
     carriesSessionCookie r = false /\ (e = ErrNoAuthHeader \/ e = ErrInvalidAuthType)).
Proof.
  split; [|split].
  - intros H. apply RequestCookie_carries in H as [c Hc].
    destruct (RequestCookie_found _ _ _ Hc) as [Hin Hn].
    exists c. split; [exact Hin|]. split; [exact Hn|].
    split.
    + unfold GetSessionToken. rewrite Hc. reflexivity.
    + intros h. unfold GetSessionToken, RequestCookie in *. cbn [Cookies] in *.
      destruct (List.find _ (Cookies r)); [|discriminate].
      injection Hc as ->. reflexivity.
  - intros more h. reflexivity.
  - intros e He. destruct (carriesSessionCookie r) eqn:Hc.
    + apply RequestCookie_carries in Hc as [c Hc].
      unfold GetSessionToken in He. rewrite Hc in He. discriminate.
    + split; [reflexivity|]. rewrite (GetSessionToken_no_cookie r Hc) in He.
      cbv zeta in He.
      destruct (String.eqb _ ""); [injection He as <-; auto|].
      destruct (Split _ _) as [|p0 [|p1 [|p2 ps]]]; try (injection He as <-; auto).
      destruct (String.eqb p0 "Bearer"); [discriminate|injection He as <-; auto].
Qed.

Lemma GetSessionToken_cookie_shadows_header_witness :
  let r := mkRequest [mkCookie "lang" "en"; mkCookie "session_token" ""]
                     {["Authorization" := ["Token abc"]]} in
  exists c, In c (Cookies r) /\ Name c = "session_token" /\
            GetSessionToken r = Ok (Value c) /\
            forall h, GetSessionToken (mkRequest (Cookies r) h) = Ok (Value c).
Proof.
  intros r. apply (proj1 (GetSessionToken_cookie_shadows_header r)). reflexivity.
Defined.

End TokenSpec.

(** * Properties of the role and permission store *)

Module RBACSpec.
Import Models DB Schema Invariants Scenario.

(** *** Loops *)

Section Loops.
Context {A : Type}.
Variable body : Store -> A -> Result error Store.

(* A loop whose body cannot fail under an invariant does not fail. *)
Lemma forM_succeeds (I : Store -> Prop) (l : list A) :
  (forall st x, In x l -> I st -> exists st', body st x = Ok st' /\ I st') ->
  forall st, I st -> exists st', forM l body st = Ok st' /\ I st'.
Proof.
  induction l as [|x l IH]; intros Hbody st HI.
  - exists st. split; [reflexivity|exact HI].
  - destruct (Hbody st x (or_introl eq_refl) HI) as [st1 [Hx HI1]].
    cbn [forM]. rewrite Hx. cbn [rbind].
    apply IH; [|exact HI1]. intros st0 y Hin. apply Hbody. right. exact Hin.
Qed.

(* The body keeps the invariant [I] and moves inside the preorder [R]; what
   a round establishes for its element and [R] keeps, holds for every
   element when the loop is over. *)
Lemma forM_establishes (I : Store -> Prop) (R : Store -> Store -> Prop)
    (Q : A -> Store -> Prop) (l : list A) :
  (forall st, R st st) ->
  (forall st1 st2 st3, R st1 st2 -> R st2 st3 -> R st1 st3) ->
  (forall x st st', Q x st -> R st st' -> Q x st') ->
  (forall st x st', In x l -> I st -> body st x = Ok st' -> I st' /\ R st st' /\ Q x st') ->
  forall st st', I st -> forM l body st = Ok st' ->
    I st' /\ R st st' /\ forall x, In x l -> Q x st'.
Proof.
  intros Hrefl Htrans Hkeep. induction l as [|x l IH]; intros Hbody st st' HI Hrun.
  - injection Hrun as <-. split; [exact HI|]. split; [auto|]. intros x [].
  - cbn [forM] in Hrun. destruct (body st x) as [st1|e] eqn:Hx; [|discriminate].
    cbn [rbind] in Hrun.
    destruct (Hbody st x st1 (or_introl eq_refl) HI Hx) as (HI1 & HR1 & HQ1).
    destruct (IH (fun st x st' Hin => Hbody st x st' (or_intror Hin)) st1 st' HI1 Hrun)
      as (HI' & HR' & HQ').
    split; [exact HI'|]. split; [eauto|]. intros y [<-|Hin]; eauto.
Qed.

End Loops.

(** *** Lists *)

Lemma find_app_Some {A} (f : A -> bool) (l l' : list A) x :
  List.find f l = Some x -> List.find f (l ++ l') = Some x.
Proof.
  induction l as [|a l IH]; [discriminate|]. cbn.
  destruct (f a); auto.
Qed.

Lemma find_app_None {A} (f : A -> bool) (l l' : list A) :
  List.find f l = None -> List.find f (l ++ l') = List.find f l'.
Proof.
  induction l as [|a l IH]; [reflexivity|]. cbn.
  destruct (f a); [discriminate|auto].
Qed.

Lemma existsb_find {A} (f : A -> bool) (l : list A) :
  existsb f l = true <-> exists x, List.find f l = Some x.
Proof.
  induction l as [|a l IH]; cbn.
  - split; [discriminate|intros [x H]; discriminate].
  - destruct (f a); cbn; [split; eauto|exact IH].
Qed.

Lemma existsb_false_find {A} (f : A -> bool) (l : list A) :
  existsb f l = false <-> List.find f l = None.
Proof.
  induction l as [|a l IH]; cbn; [tauto|].
  destruct (f a); cbn; [split; discriminate|exact IH].
Qed.

Lemma filter_all {A} (f : A -> bool) (l : list A) :
  (forall x, In x l -> f x = true) -> List.filter f l = l.
Proof.
  induction l as [|a l IH]; intros H; [reflexivity|]. cbn.
  rewrite (H a (or_introl eq_refl)). f_equal. apply IH. intros x Hx. apply H. right. exact Hx.
Qed.

Lemma filter_nil_iff {A} (f : A -> bool) (l : list A) :
  List.filter f l = [] <-> forall x, In x l -> f x = false.
Proof.
  induction l as [|a l IH]; cbn.
  - split; [intros _ x []|reflexivity].
  - destruct (f a) eqn:E.
    + split; [discriminate|]. intros H. specialize (H a (or_introl eq_refl)). congruence.
    + rewrite IH. split.
      * intros H x [<-|Hx]; auto.
      * intros H x Hx. apply H. right. exact Hx.
Qed.

Lemma NoDup_snoc {A} (l : list A) (x : A) :
  List.NoDup l -> ~ In x l -> List.NoDup (l ++ [x]).
Proof.
  induction l as [|a l IH]; intros Hnd Hx; cbn.
  - constructor; [intros []|constructor].
  - apply List.NoDup_cons_iff in Hnd as [Ha Hnd]. constructor.
    + rewrite in_app_iff. intros [H|[<-|[]]]; [auto|]. apply Hx. left. reflexivity.
    + apply IH; [exact Hnd|]. intros H. apply Hx. right. exact H.
Qed.

Lemma next_rowid_above seq ids : forall i, In i ids -> i < next_rowid seq ids.
Proof.
  unfold next_rowid. induction ids as [|j ids IH]; intros i []; cbn [fold_right].
  - subst. lia.
  - specialize (IH i H). lia.
Qed.

Lemma next_rowid_fresh seq ids : ~ In (next_rowid seq ids) ids.
Proof. intros H. apply next_rowid_above with (seq := seq) in H. lia. Qed.

(** *** Results *)

Lemma rbind_Ok {E A B} (r : Result E A) (k : A -> Result E B) b :
  rbind r k = Ok b -> exists a, r = Ok a /\ k a = Ok b.
Proof. destruct r as [a|e]; cbn; [eauto|discriminate]. Qed.

Lemma wrap_Ok {A} context (r : Result error A) a : wrap context r = Ok a <-> r = Ok a.
Proof. destruct r; cbn; split; congruence. Qed.

(** *** Lookups by name *)

Lemma has_role_lookup st name :
  has_role st name = true <-> exists id, getRoleIDByName st name = Ok id.
Proof.
  unfold has_role, getRoleIDByName. rewrite existsb_find. split.
  - intros [r ->]. eauto.
  - destruct (List.find _ (roles st)) as [r|]; [eauto|]. intros [id H]. discriminate.
Qed.

Lemma has_permission_lookup st name :
  has_permission st name = true <-> exists id, getPermissionIDByName st name = Ok id.
Proof.
  unfold has_permission, getPermissionIDByName. rewrite existsb_find. split.
  - intros [r ->]. eauto.
  - destruct (List.find _ (permissions st)) as [r|]; [eauto|]. intros [id H]. discriminate.
Qed.

(* The role that a lookup by name finds is a row of the table. *)
Lemma getRoleIDByName_row st name id :
  getRoleIDByName st name = Ok id ->
  exists r, In r (roles st) /\ r_name r = name /\ r_id r = id.
Proof.
  unfold getRoleIDByName. destruct (List.find _ (roles st)) as [r|] eqn:E; [|discriminate].
  intros [= <-]. apply find_some in E as [Hin Hn]. apply String.eqb_eq in Hn. eauto.
Qed.

(* Under UNIQUE(name), every row of that name is the one the lookup finds. *)
Lemma getRoleIDByName_unique st name id r :
  unique_role_names st -> getRoleIDByName st name = Ok id ->
  In r (roles st) -> r_name r = name -> r_id r = id.
Proof.
  unfold unique_role_names. intros Hu Hl Hin Hn.
  apply getRoleIDByName_row in Hl as (r0 & Hin0 & Hn0 & <-).
  f_equal. assert (Hnn : r_name r = r_name r0) by congruence.
  clear -Hu Hin Hin0 Hnn. rename Hnn into Hn.
  induction (roles st) as [|a l IH]; [destruct Hin|].
  cbn in Hu. apply List.NoDup_cons_iff in Hu as [Hna Hu].
  destruct Hin as [<-|Hin], Hin0 as [<-|Hin0]; auto.
  - exfalso. apply Hna. rewrite Hn. apply in_map. exact Hin0.
  - exfalso. apply Hna. rewrite <- Hn. apply in_map. exact Hin.
Qed.

(* Under PRIMARY KEY(id), the row of an id is determined. *)
Lemma role_row_of_id st r r' :
  pk_roles st -> In r (roles st) -> In r' (roles st) -> r_id r = r_id r' -> r = r'.
Proof.
  unfold pk_roles. intros Hpk Hin Hin' Hid.
  induction (roles st) as [|a l IH]; [destruct Hin|].
  cbn in Hpk. apply List.NoDup_cons_iff in Hpk as [Hna Hpk].
  destruct Hin as [<-|Hin], Hin' as [<-|Hin']; auto.
  - exfalso. apply Hna. rewrite Hid. apply in_map. exact Hin'.
  - exfalso. apply Hna. rewrite <- Hid. apply in_map. exact Hin.
Qed.

(** *** The catalog only grows *)

Lemma catalog_grows_refl st : catalog_grows st st.
Proof.
  unfold catalog_grows. repeat split; auto; exists []; rewrite app_nil_r; reflexivity.
Qed.

Lemma catalog_grows_trans st1 st2 st3 :
  catalog_grows st1 st2 -> catalog_grows st2 st3 -> catalog_grows st1 st3.
Proof.
  intros (Hu & Hur & [r Hr] & [p Hp] & [rp Hrp] & Hpk & Hun)
         (Hu' & Hur' & [r' Hr'] & [p' Hp'] & [rp' Hrp'] & Hpk' & Hun').
  unfold catalog_grows. repeat split; try congruence; auto.
  - exists (r ++ r')%list. rewrite Hr', Hr, app_assoc. reflexivity.
  - exists (p ++ p')%list. rewrite Hp', Hp, app_assoc. reflexivity.
  - exists (rp ++ rp')%list. rewrite Hrp', Hrp, app_assoc. reflexivity.
Qed.

Lemma getRoleIDByName_grows st st' name id :
  catalog_grows st st' -> getRoleIDByName st name = Ok id -> getRoleIDByName st' name = Ok id.
Proof.
  intros (_ & _ & [new Hr] & _) H. unfold getRoleIDByName in *. rewrite Hr.
  destruct (List.find _ (roles st)) as [r|] eqn:E; [|discriminate].
  rewrite (find_app_Some _ _ new _ E). exact H.
Qed.

Lemma getPermissionIDByName_grows st st' name id :
  catalog_grows st st' ->
  getPermissionIDByName st name = Ok id -> getPermissionIDByName st' name = Ok id.
Proof.
  intros (_ & _ & _ & [new Hp] & _) H. unfold getPermissionIDByName in *. rewrite Hp.
  destruct (List.find _ (permissions st)) as [r|] eqn:E; [|discriminate].
  rewrite (find_app_Some _ _ new _ E). exact H.
Qed.

Lemma has_role_grows st st' name :
  catalog_grows st st' -> has_role st name = true -> has_role st' name = true.
Proof.
  intros Hg H. apply has_role_lookup in H as [id H]. apply has_role_lookup.
  exists id. eapply getRoleIDByName_grows; eauto.
Qed.

Lemma has_permission_grows st st' name :
  catalog_grows st st' -> has_permission st name = true -> has_permission st' name = true.
Proof.
  intros Hg H. apply has_permission_lookup in H as [id H]. apply has_permission_lookup.
  exists id. eapply getPermissionIDByName_grows; eauto.
Qed.

Lemma has_role_permission_grows st st' roleID permID :
  catalog_grows st st' ->
  has_role_permission st roleID permID = true -> has_role_permission st' roleID permID = true.
Proof.
  intros (_ & _ & _ & _ & [new Hrp] & _). unfold has_role_permission. rewrite Hrp.
  rewrite existsb_app. intros ->. reflexivity.
Qed.

Lemma attached_grows st st' roleName permName :
  catalog_grows st st' -> attached st roleName permName -> attached st' roleName permName.
Proof.
  intros Hg (roleID & permID & Hr & Hp & Hrp). exists roleID, permID.
  split; [eapply getRoleIDByName_grows; eauto|].
  split; [eapply getPermissionIDByName_grows; eauto|].
  eapply has_role_permission_grows; eauto.
Qed.

(** *** The three INSERT OR IGNORE statements *)

Lemma insert_or_ignore_role_grows st name description :
  catalog_grows st (insert_or_ignore_role st name description).
Proof.
  unfold insert_or_ignore_role. cbv zeta.
  destruct (existsb _ (roles st)) eqn:E.
  - unfold catalog_grows, pk_roles, unique_role_names. cbn.
    repeat split; auto; exists []; rewrite app_nil_r; reflexivity.
  - unfold catalog_grows, pk_roles, unique_role_names. cbn.
    repeat split; eauto; try (exists []; rewrite app_nil_r; reflexivity).
    + intros Hpk. rewrite map_app. cbn. apply NoDup_snoc; [exact Hpk|].
      apply next_rowid_fresh.
    + intros Hun. rewrite map_app. cbn. apply NoDup_snoc; [exact Hun|].
      intros Hi. apply in_map_iff in Hi as (r & Hn & Hin).
      assert (Ht : existsb (fun r => String.eqb (r_name r) name) (roles st) = true).
      { apply existsb_exists. exists r. split; [exact Hin|]. apply String.eqb_eq. exact Hn. }
      congruence.
Qed.

Lemma insert_or_ignore_role_has st name description :
  has_role (insert_or_ignore_role st name description) name = true.
Proof.
  unfold insert_or_ignore_role, has_role. cbv zeta.
  destruct (existsb _ (roles st)) eqn:E; cbn; [exact E|].
  rewrite existsb_app. cbn. rewrite String.eqb_refl, orb_true_r. reflexivity.
Qed.

Lemma insert_or_ignore_role_ignored st name description :
  has_role st name = true ->
  same_tables st (insert_or_ignore_role st name description).
Proof.
  unfold insert_or_ignore_role, has_role. cbv zeta. intros ->.
  unfold same_tables. cbn. auto.
Qed.

Lemma insert_or_ignore_permission_grows st name resource action description :
  catalog_grows st (insert_or_ignore_permission st name resource action description).
Proof.
  unfold insert_or_ignore_permission. cbv zeta.
  destruct (existsb _ (permissions st)) eqn:E;
    unfold catalog_grows, pk_roles, unique_role_names; cbn;
    repeat split; eauto; exists []; rewrite app_nil_r; reflexivity.
Qed.

Lemma insert_or_ignore_permission_has st name resource action description :
  has_permission (insert_or_ignore_permission st name resource action description) name = true.
Proof.
  unfold insert_or_ignore_permission, has_permission. cbv zeta.
  destruct (existsb _ (permissions st)) eqn:E; cbn; [exact E|].
  rewrite existsb_app. cbn. rewrite String.eqb_refl, orb_true_r. reflexivity.
Qed.

Lemma insert_or_ignore_permission_ignored st name resource action description :
  has_permission st name = true ->
  same_tables st (insert_or_ignore_permission st name resource action description).
Proof.
  unfold insert_or_ignore_permission, has_permission. cbv zeta. intros ->.
  unfold same_tables. cbn. auto.
Qed.

Lemma insert_or_ignore_role_permission_grows st roleID permID :
  catalog_grows st (insert_or_ignore_role_permission st roleID permID).
Proof.
  unfold insert_or_ignore_role_permission. cbv zeta.
  destruct (existsb _ (role_permissions st)) eqn:E;
    unfold catalog_grows, pk_roles, unique_role_names; cbn;
    repeat split; eauto; exists []; rewrite app_nil_r; reflexivity.
Qed.

Lemma insert_or_ignore_role_permission_has st roleID permID :
  has_role_permission (insert_or_ignore_role_permission st roleID permID) roleID permID = true.
Proof.
  unfold insert_or_ignore_role_permission, has_role_permission. cbv zeta.
  destruct (existsb _ (role_permissions st)) eqn:E; cbn; [exact E|].
  rewrite existsb_app. cbn. rewrite !Z.eqb_refl, orb_true_r. reflexivity.
Qed.

Lemma insert_or_ignore_role_permission_ignored st roleID permID :
  has_role_permission st roleID permID = true ->
  same_tables st (insert_or_ignore_role_permission st roleID permID).
Proof.
  unfold insert_or_ignore_role_permission, has_role_permission. cbv zeta. intros ->.
  unfold same_tables. cbn. auto.
Qed.

(** *** Stores with the same tables *)

Lemma same_tables_refl st : same_tables st st.
Proof. unfold same_tables. auto. Qed.

Lemma same_tables_trans st1 st2 st3 :
  same_tables st1 st2 -> same_tables st2 st3 -> same_tables st1 st3.
Proof. unfold same_tables. intuition congruence. Qed.

Lemma initialized_same_tables st st' :
  same_tables st st' -> initialized st -> initialized st'.
Proof.
  intros (Hu & Hr & Hp & Hur & Hrp) (H1 & H2 & H3).
  unfold initialized, attached, has_role, has_permission, has_role_permission,
    getRoleIDByName, getPermissionIDByName in *.
  rewrite Hr, Hp, Hrp. auto.
Qed.

(** *** initializeRBAC *)

Lemma range_rolePermissions_In admin_first entry :
  In entry (range_rolePermissions admin_first) <-> In entry rolePermissions.
Proof.
  unfold range_rolePermissions. destruct admin_first; [reflexivity|].
  symmetry. apply in_rev.
Qed.

(* The map names roles and permissions of the two catalogs only. *)
Lemma rolePermissions_names entry :
  In entry rolePermissions ->
  (exists role, In role default_roles /\ fst role = fst entry) /\
  (forall permName, In permName (snd entry) ->
     exists perm, In perm default_permissions /\ fst (fst (fst perm)) = permName).
Proof.
  intros Hin.
  assert (Hchk : forallb
            (fun entry : string * list string =>
               existsb (fun role : string * string => String.eqb (fst role) (fst entry))
                       default_roles &&
               forallb (fun permName =>
                          existsb (fun perm : string * string * string * string =>
                                     String.eqb (fst (fst (fst perm))) permName)
                                  default_permissions)
                       (snd entry))
            rolePermissions = true) by reflexivity.
  rewrite forallb_forall in Hchk. specialize (Hchk entry Hin).
  apply andb_true_iff in Hchk as [Hr Hp]. split.
  - apply existsb_exists in Hr as (role & Hrole & Hn). apply String.eqb_eq in Hn. eauto.
  - intros permName Hpn. rewrite forallb_forall in Hp. specialize (Hp permName Hpn).
    apply existsb_exists in Hp as (perm & Hperm & Hn). apply String.eqb_eq in Hn. eauto.
Qed.

Lemma catalog_present_grows st st' :
  catalog_grows st st' -> catalog_present st -> catalog_present st'.
Proof.
  intros Hg [Hr Hp]. split.
  - intros role Hin. eapply has_role_grows; eauto.
  - intros perm Hin. eapply has_permission_grows; eauto.
Qed.

Lemma roles_loop st st' :
  forM default_roles
    (fun st role => Ok (insert_or_ignore_role st (fst role) (snd role))) st = Ok st' ->
  catalog_grows st st' /\ forall role, In role default_roles -> has_role st' (fst role) = true.
Proof.
  intros H.
  apply (forM_establishes _ (fun _ => True) catalog_grows
           (fun role st => has_role st (fst role) = true)) in H; auto.
  - tauto.
  - apply catalog_grows_refl.
  - apply catalog_grows_trans.
  - intros role st1 st2 Hq Hg. eapply has_role_grows; eauto.
  - intros st1 role st2 _ _ [= <-]. split; [exact I|]. split.
    + apply insert_or_ignore_role_grows.
    + apply insert_or_ignore_role_has.
Qed.

Lemma permissions_loop st st' :
  forM default_permissions
    (fun st perm =>
       let '(name, resource, action, description) := perm in
       Ok (insert_or_ignore_permission st name resource action description)) st = Ok st' ->
  catalog_grows st st' /\
  forall perm, In perm default_permissions -> has_permission st' (fst (fst (fst perm))) = true.
Proof.
  intros H.
  apply (forM_establishes _ (fun _ => True) catalog_grows
           (fun perm st => has_permission st (fst (fst (fst perm))) = true)) in H; auto.
  - tauto.
  - apply catalog_grows_refl.
  - apply catalog_grows_trans.
  - intros perm st1 st2 Hq Hg. eapply has_permission_grows; eauto.
  - intros st1 [[[name resource] action] description] st2 _ _ [= <-].
    split; [exact I|]. split.
    + apply insert_or_ignore_permission_grows.
    + apply insert_or_ignore_permission_has.
Qed.

(* The inner loop, for the role [roleName] whose id [roleID] was looked up. *)
Lemma attach_loop roleName roleID permNames st st' :
  getRoleIDByName st roleName = Ok roleID ->
  forM permNames
    (fun st permName =>
       permID <<- wrap ("failed to get permission ID for " ++ permName)
                       (getPermissionIDByName st permName) ;;
       Ok (insert_or_ignore_role_permission st roleID permID)) st = Ok st' ->
  catalog_grows st st' /\
  forall permName, In permName permNames -> attached st' roleName permName.
Proof.
  intros Hrole H.
  apply (forM_establishes _ (fun st => getRoleIDByName st roleName = Ok roleID)
           catalog_grows (fun permName st => attached st roleName permName)) in H; auto.
  - tauto.
  - apply catalog_grows_refl.
  - apply catalog_grows_trans.
  - intros permName st1 st2 Hq Hg. eapply attached_grows; eauto.
  - intros st1 permName st2 _ Hr Hb.
    apply rbind_Ok in Hb as (permID & Hp%wrap_Ok & [= <-]).
    pose proof (insert_or_ignore_role_permission_grows st1 roleID permID) as Hg.
    split; [eapply getRoleIDByName_grows; eauto|]. split; [exact Hg|].
    exists roleID, permID.
    split; [eapply getRoleIDByName_grows; eauto|].
    split; [eapply getPermissionIDByName_grows; eauto|].
    apply insert_or_ignore_role_permission_has.
Qed.

Lemma attachments_loop admin_first st st' :
  forM (range_rolePermissions admin_first)
    (fun st entry =>
       let roleName := fst entry in
       let permNames := snd entry in
       roleID <<- wrap ("failed to get role ID for " ++ roleName)
                       (getRoleIDByName st roleName) ;;
       forM permNames
         (fun st permName =>
            permID <<- wrap ("failed to get permission ID for " ++ permName)
                            (getPermissionIDByName st permName) ;;
            Ok (insert_or_ignore_role_permission st roleID permID)) st) st = Ok st' ->
  catalog_grows st st' /\
  forall entry permName, In entry rolePermissions -> In permName (snd entry) ->
    attached st' (fst entry) permName.
Proof.
  intros H.
  apply (forM_establishes _ (fun _ => True) catalog_grows
           (fun entry st => forall permName, In permName (snd entry) ->
                              attached st (fst entry) permName)) in H; auto.
  - destruct H as (_ & Hg & Hq). split; [exact Hg|].
    intros entry permName Hin. apply Hq. apply range_rolePermissions_In. exact Hin.
  - apply catalog_grows_refl.
  - apply catalog_grows_trans.
  - intros entry st1 st2 Hq Hg permName Hin. eapply attached_grows; eauto.
  - intros st1 entry st2 _ _ Hb. cbv zeta in Hb.
    apply rbind_Ok in Hb as (roleID & Hr%wrap_Ok & Hb).
    split; [exact I|]. eapply attach_loop; eauto.
Qed.

Lemma initializeRBAC_post admin_first st st' :
  initializeRBAC admin_first st = Ok st' -> catalog_grows st st' /\ initialized st'.
Proof.
  unfold initializeRBAC. intros H.
  apply rbind_Ok in H as (st1 & H1 & H). apply rbind_Ok in H as (st2 & H2 & H3).
  apply roles_loop in H1 as [G1 R1]. apply permissions_loop in H2 as [G2 P2].
  apply attachments_loop in H3 as [G3 A3].
  split; [eauto using catalog_grows_trans|].
  split; [|split].
  - intros role Hin. eapply has_role_grows; [exact G3|].
    eapply has_role_grows; [exact G2|]. auto.
  - intros perm Hin. eapply has_permission_grows; [exact G3|]. auto.
  - exact A3.
Qed.

Lemma initializeRBAC_succeeds admin_first st :
  exists st', initializeRBAC admin_first st = Ok st'.
Proof.
  unfold initializeRBAC.
  destruct (forM_succeeds
              (fun st role => Ok (insert_or_ignore_role st (fst role) (snd role)))
              (fun _ => True) default_roles) with (st := st) as (st1 & H1 & _); auto.
  { intros st0 role _ _. eauto. }
  rewrite H1. cbn [rbind].
  destruct (forM_succeeds
              (fun st perm =>
                 let '(name, resource, action, description) := perm in
                 Ok (insert_or_ignore_permission st name resource action description))
              (fun _ => True) default_permissions) with (st := st1) as (st2 & H2 & _); auto.
  { intros st0 [[[name resource] action] description] _ _. eauto. }
  rewrite H2. cbn [rbind].
  apply roles_loop in H1 as [G1 R1]. apply permissions_loop in H2 as [G2 P2].
  assert (Hc : catalog_present st2).
  { split; [|exact P2]. intros role Hin. eapply has_role_grows; eauto. }
  destruct (forM_succeeds
              (fun st entry =>
                 let roleName := fst entry in
                 let permNames := snd entry in
                 roleID <<- wrap ("failed to get role ID for " ++ roleName)
                                 (getRoleIDByName st roleName) ;;
                 forM permNames
                   (fun st permName =>
                      permID <<- wrap ("failed to get permission ID for " ++ permName)
                                      (getPermissionIDByName st permName) ;;
                      Ok (insert_or_ignore_role_permission st roleID permID)) st)
              catalog_present (range_rolePermissions admin_first)) with (st := st2)
    as (st3 & H3 & _); eauto.
  intros st0 entry Hin%range_rolePermissions_In Hc0. cbv zeta.
  destruct (rolePermissions_names entry Hin) as [(role & Hrole & Hname) Hperms].
  destruct Hc0 as [Hr0 Hp0].
  pose proof (Hr0 role Hrole) as Hhas. rewrite Hname in Hhas.
  apply has_role_lookup in Hhas as [roleID Hl]. rewrite Hl. cbn [wrap rbind].
  apply (forM_succeeds _ catalog_present); [|split; assumption].
  intros st4 permName Hpn [Hr4 Hp4].
  destruct (Hperms permName Hpn) as (perm & Hperm & Hpname).
  pose proof (Hp4 perm Hperm) as Hhasp. rewrite Hpname in Hhasp.
  apply has_permission_lookup in Hhasp as [permID Hlp]. rewrite Hlp. cbn [wrap rbind].
  eexists. split; [reflexivity|].
  eapply catalog_present_grows; [apply insert_or_ignore_role_permission_grows|].
  split; assumption.
Qed.

(* On a store whose catalog is complete every INSERT OR IGNORE is ignored. *)
Lemma initializeRBAC_again admin_first st st' :
  initialized st -> initializeRBAC admin_first st = Ok st' -> same_tables st st'.
Proof.
  intros Hinit. unfold initializeRBAC. intros H.
  apply rbind_Ok in H as (st1 & H1 & H). apply rbind_Ok in H as (st2 & H2 & H3).
  set (keeps := fun st0 : Store => same_tables st st0).
  assert (Hk : forall st0, keeps st0 -> initialized st0).
  { intros st0 Hs. eapply initialized_same_tables; eauto. }
  assert (K0 : keeps st) by apply same_tables_refl.
  apply (forM_establishes _ keeps (fun _ _ => True) (fun _ _ => True)) in H1; auto.
  2:{ intros st0 role st0' Hin Hs [= <-]. split; [|auto].
      eapply same_tables_trans; [exact Hs|].
      apply insert_or_ignore_role_ignored. apply (Hk st0 Hs). exact Hin. }
  destruct H1 as (K1 & _).
  apply (forM_establishes _ keeps (fun _ _ => True) (fun _ _ => True)) in H2; auto.
  2:{ intros st0 [[[name resource] action] description] st0' Hin Hs [= <-]. split; [|auto].
      eapply same_tables_trans; [exact Hs|].
      apply insert_or_ignore_permission_ignored.
      apply (proj1 (proj2 (Hk st0 Hs)) _ Hin). }
  destruct H2 as (K2 & _).
  apply (forM_establishes _ keeps (fun _ _ => True) (fun _ _ => True)) in H3; auto.
  2:{ intros st0 entry st0' Hin%range_rolePermissions_In Hs Hb. cbv zeta in Hb.
      apply rbind_Ok in Hb as (roleID & Hr%wrap_Ok & Hb). split; [|auto].
      apply (forM_establishes _
               (fun st4 => keeps st4 /\ getRoleIDByName st4 (fst entry) = Ok roleID)
               (fun _ _ => True) (fun _ _ => True)) in Hb; auto.
      - tauto.
      - intros st4 permName st4' Hpn [Hs4 Hr4] Hb4.
        apply rbind_Ok in Hb4 as (permID & Hp%wrap_Ok & [= <-]).
        destruct (proj2 (proj2 (Hk st4 Hs4)) entry permName Hin Hpn)
          as (roleID' & permID' & Hr' & Hp' & Hhas).
        assert (roleID' = roleID) by congruence. assert (permID' = permID) by congruence.
        subst roleID' permID'.
        pose proof (insert_or_ignore_role_permission_ignored st4 roleID permID Hhas) as Hsame.
        split; [|auto]. split.
        + eapply same_tables_trans; eauto.
        + destruct Hsame as (_ & Hroles & _). unfold getRoleIDByName in *.
          rewrite Hroles. exact Hr4. }
  destruct H3 as (K3 & _). exact K3.
Qed.

(** *** Roles of a user *)

Lemma rolesOf_In st userID role :
  In role (rolesOf st userID) <->
  exists r ur, In r (roles st) /\ In ur (user_roles st) /\
               r_id r = ur_role_id ur /\ ur_user_id ur = userID /\
               role = mkRole (r_id r) (r_name r) (r_description r) [].
Proof.
  unfold rolesOf, GetUserRoles. rewrite in_flat_map. split.
  - intros (r & Hr & Hin). apply in_map_iff in Hin as (ur & <- & Hur).
    apply filter_In in Hur as [Hur Hc]. apply andb_true_iff in Hc as [H1 H2].
    apply Z.eqb_eq in H1, H2. exists r, ur. auto.
  - intros (r & ur & Hr & Hur & H1 & H2 & ->). exists r. split; [exact Hr|].
    apply in_map_iff. exists ur. split; [reflexivity|].
    apply filter_In. split; [exact Hur|].
    apply andb_true_iff. split; apply Z.eqb_eq; assumption.
Qed.

Lemma rolesOf_nonempty st userID :
  rolesOf st userID <> [] <->
  exists r ur, In r (roles st) /\ In ur (user_roles st) /\
               r_id r = ur_role_id ur /\ ur_user_id ur = userID.
Proof.
  split.
  - destruct (rolesOf st userID) as [|role rest] eqn:E; [congruence|]. intros _.
    assert (Hin : In role (rolesOf st userID)) by (rewrite E; left; reflexivity).
    apply rolesOf_In in Hin as (r & ur & ? & ? & ? & ? & _). eauto 6.
  - intros (r & ur & Hr & Hur & H1 & H2) E.
    assert (Hin : In (mkRole (r_id r) (r_name r) (r_description r) []) (rolesOf st userID)).
    { apply rolesOf_In. exists r, ur. auto. }
    rewrite E in Hin. destruct Hin.
Qed.

Lemma holdsRole_rows st userID name :
  holdsRole st userID name = true <->
  exists r ur, In r (roles st) /\ In ur (user_roles st) /\
               r_id r = ur_role_id ur /\ ur_user_id ur = userID /\ r_name r = name.
Proof.
  unfold holdsRole. rewrite existsb_exists. split.
  - intros (role & Hin & Hn). apply String.eqb_eq in Hn.
    apply rolesOf_In in Hin as (r & ur & ? & ? & ? & ? & ->). cbn in Hn. eauto 7.
  - intros (r & ur & Hr & Hur & H1 & H2 & Hn).
    exists (mkRole (r_id r) (r_name r) (r_description r) []). split.
    + apply rolesOf_In. exists r, ur. auto.
    + cbn. apply String.eqb_eq. exact Hn.
Qed.

(* Under UNIQUE(name): holding a role is having a row with the id that the
   lookup by name returns. *)
Lemma holdsRole_lookup st userID name roleID :
  unique_role_names st -> getRoleIDByName st name = Ok roleID ->
  (holdsRole st userID name = true <->
   exists ur, In ur (user_roles st) /\ ur_role_id ur = roleID /\ ur_user_id ur = userID).
Proof.
  intros Hun Hl. rewrite holdsRole_rows. split.
  - intros (r & ur & Hr & Hur & H1 & H2 & Hn). exists ur.
    rewrite <- H1. rewrite (getRoleIDByName_unique st name roleID r Hun Hl Hr Hn). auto.
  - intros (ur & Hur & H1 & H2).
    apply getRoleIDByName_row in Hl as (r & Hr & Hn & Hid). exists r, ur.
    repeat split; auto; congruence.
Qed.

(** *** AssignRole *)

Lemma AssignRole_Ok st userID roleID assignedBy :
  AssignRole st userID roleID assignedBy =
    Ok (insert_or_replace_user_role st userID roleID assignedBy).
Proof. reflexivity. Qed.

(* Without a row for the pair, REPLACE deletes nothing. *)
Lemma insert_or_replace_fresh st userID roleID assignedBy :
  (forall ur, In ur (user_roles st) -> same_pair userID roleID ur = false) ->
  user_roles (insert_or_replace_user_role st userID roleID assignedBy) =
    (user_roles st ++
     [mkUserRoleRow (next_rowid (seq_user_roles st) (map ur_id (user_roles st)))
                    userID roleID assignedBy])%list.
Proof.
  intros H. cbn. f_equal. apply filter_all. intros ur Hin. rewrite (H ur Hin). reflexivity.
Qed.

(** *** The loop that hands out the default role *)

Lemma defaults_added_refl userRoleID scanned st : defaults_added userRoleID scanned st st.
Proof.
  unfold defaults_added. repeat split; auto. exists []. rewrite app_nil_r.
  split; [reflexivity|]. intros ur [].
Qed.

Lemma defaults_added_rolesOf userRoleID scanned st st' userID :
  defaults_added userRoleID scanned st st' ->
  rolesOf st userID <> [] -> rolesOf st' userID <> [].
Proof.
  intros (_ & Hr & _ & _ & added & Hur & _). rewrite !rolesOf_nonempty.
  intros (r & ur & H1 & H2 & H3). exists r, ur. rewrite Hr, Hur.
  split; [exact H1|]. split; [|exact H3]. apply in_or_app. left. exact H2.
Qed.

Lemma defaults_added_trans userRoleID scanned st1 st2 st3 :
  defaults_added userRoleID scanned st1 st2 ->
  defaults_added userRoleID scanned st2 st3 ->
  defaults_added userRoleID scanned st1 st3.
Proof.
  intros H12 H23. pose proof H12 as (Hu & Hr & Hp & Hrp & added & Hur & Hadd).
  destruct H23 as (Hu' & Hr' & Hp' & Hrp' & added' & Hur' & Hadd').
  unfold defaults_added. repeat split; try congruence.
  exists (added ++ added')%list. split.
  - rewrite Hur', Hur, app_assoc. reflexivity.
  - intros ur Hin. apply in_app_or in Hin as [Hin|Hin]; [auto|].
    destruct (Hadd' ur Hin) as (H1 & H2 & H3 & H4). repeat split; auto.
    destruct (rolesOf st1 (ur_user_id ur)) eqn:E; [reflexivity|].
    exfalso. apply (defaults_added_rolesOf _ _ _ _ (ur_user_id ur) H12); congruence.
Qed.

Lemma defaults_loop userRoleID scanned st st' :
  getRoleIDByName st "user" = Ok userRoleID ->
  forM scanned
    (fun st userID =>
       userRoles <<- wrap "failed to check user roles" (GetUserRoles st userID) ;;
       if Nat.eqb (length userRoles) 0
       then wrap "failed to assign user role" (AssignRole st userID userRoleID None)
       else Ok st) st = Ok st' ->
  defaults_added userRoleID scanned st st' /\
  forall userID, In userID scanned -> rolesOf st' userID <> [].
Proof.
  intros Hl H.
  apply (forM_establishes _ (fun st0 => roles st0 = roles st)
           (defaults_added userRoleID scanned)
           (fun userID st0 => rolesOf st0 userID <> [])) in H; auto.
  - tauto.
  - apply defaults_added_refl.
  - apply defaults_added_trans.
  - intros userID st1 st2 Hq Hd. eapply defaults_added_rolesOf; eauto.
  - intros st1 userID st2 Hin Hroles Hb. cbn [GetUserRoles wrap rbind] in Hb.
    change (flat_map _ (roles st1)) with (rolesOf st1 userID) in Hb.
    destruct (rolesOf st1 userID) as [|role rest] eqn:E; cbn [length Nat.eqb] in Hb.
    + rewrite AssignRole_Ok in Hb. cbn [wrap] in Hb. injection Hb as <-.
      apply getRoleIDByName_row in Hl as (r & Hr & Hn & Hid).
      rewrite <- Hroles in Hr.
      assert (Hfresh : forall ur, In ur (user_roles st1) ->
                                  same_pair userID userRoleID ur = false).
      { intros ur Hur. unfold same_pair. destruct (_ && _) eqn:Hc; [|reflexivity].
        apply andb_true_iff in Hc as [H1 H2]. apply Z.eqb_eq in H1, H2.
        exfalso. assert (Hne : rolesOf st1 userID <> []); [|congruence].
        apply rolesOf_nonempty. exists r, ur. repeat split; auto; congruence. }
      pose proof (insert_or_replace_fresh st1 userID userRoleID None Hfresh) as Hrows.
      split; [exact Hroles|]. split.
      * unfold defaults_added. repeat split; auto. eexists. split; [exact Hrows|].
        intros ur [<-|[]]. cbn. auto.
      * apply rolesOf_nonempty. eexists r, _. split; [exact Hr|]. split.
        -- rewrite Hrows. apply in_or_app. right. left. reflexivity.
        -- cbn. auto.
    + injection Hb as <-. split; [exact Hroles|]. split.
      * apply defaults_added_refl.
      * rewrite E. discriminate.
Qed.

Lemma defaults_loop_succeeds userRoleID scanned st :
  exists st',
    forM scanned
      (fun st userID =>
         userRoles <<- wrap "failed to check user roles" (GetUserRoles st userID) ;;
         if Nat.eqb (length userRoles) 0
         then wrap "failed to assign user role" (AssignRole st userID userRoleID None)
         else Ok st) st = Ok st'.
Proof.
  destruct (forM_succeeds
              (fun st userID =>
                 userRoles <<- wrap "failed to check user roles" (GetUserRoles st userID) ;;
                 if Nat.eqb (length userRoles) 0
                 then wrap "failed to assign user role" (AssignRole st userID userRoleID None)
                 else Ok st)
              (fun _ => True) scanned) with (st := st) as (st' & H & _); eauto.
  intros st0 userID _ _. cbn [GetUserRoles wrap rbind].
  destruct (Nat.eqb _ 0); cbn; eauto.
Qed.

(** *** assignDefaultRoles *)

Lemma assignDefaultRoles_post scan st st' :
  assignDefaultRoles scan st = Ok st' ->
  exists userRoleID adminRoleID mid,
    getRoleIDByName st "user" = Ok userRoleID /\
    getRoleIDByName st "admin" = Ok adminRoleID /\
    defaults_added userRoleID (scanned_ids scan st) st mid /\
    (forall userID, In userID (scanned_ids scan st) -> rolesOf mid userID <> []) /\
    ((List.filter (fun ur => ur_role_id ur =? adminRoleID) (user_roles mid) = [] /\
      scanned_ids scan st <> [] /\
      st' = insert_or_replace_user_role mid (nth 0 (scanned_ids scan st) 0) adminRoleID None)
     \/
     ((List.filter (fun ur => ur_role_id ur =? adminRoleID) (user_roles mid) <> [] \/
       scanned_ids scan st = []) /\
      st' = mid)).
Proof.
  unfold assignDefaultRoles. cbv zeta. fold (scanned_ids scan st). intros H.
  apply rbind_Ok in H as (userRoleID & Hu%wrap_Ok & H).
  apply rbind_Ok in H as (adminRoleID & Ha%wrap_Ok & H).
  apply rbind_Ok in H as (mid & Hloop & H).
  apply (defaults_loop userRoleID _ _ _ Hu) in Hloop as [Hd Hall].
  exists userRoleID, adminRoleID, mid. repeat (split; [assumption|]).
  destruct (List.filter _ (user_roles mid)) as [|ur0 rest] eqn:Ef.
  - destruct (scanned_ids scan st) as [|first more] eqn:Es.
    + cbn in H. injection H as <-. right. auto.
    + left. split; [reflexivity|]. split; [discriminate|].
      assert (Hc : (Z.of_nat (length (@nil UserRoleRow)) =? 0)
                   && (0 <? Z.of_nat (length (first :: more))) = true).
      { apply andb_true_iff. split; [reflexivity|]. apply Z.ltb_lt. cbn [length]. lia. }
      rewrite Hc in H. rewrite AssignRole_Ok in H. cbn [wrap] in H. congruence.
  - right. split; [left; discriminate|].
    assert (Hc : (Z.of_nat (length (ur0 :: rest)) =? 0) = false).
    { apply Z.eqb_neq. cbn [length]. lia. }
    rewrite Hc in H. cbn [andb] in H. congruence.
Qed.

Lemma assignDefaultRoles_succeeds scan st :
  has_role st "user" = true -> has_role st "admin" = true ->
  exists st', assignDefaultRoles scan st = Ok st'.
Proof.
  intros [u Hu]%has_role_lookup [a Ha]%has_role_lookup.
  unfold assignDefaultRoles. cbv zeta. rewrite Hu, Ha. cbn [wrap rbind].
  destruct (defaults_loop_succeeds u (map u_id (scan (users st))) st) as [mid Hm].
  rewrite Hm. cbn [rbind].
  destruct (_ && _); [rewrite AssignRole_Ok; cbn [wrap]|]; eauto.
Qed.

Lemma createTables_succeeds admin_first scan st :
  exists st', createTables admin_first scan st = Ok st'.
Proof.
  unfold createTables.
  destruct (initializeRBAC_succeeds admin_first st) as [st1 H1]. rewrite H1. cbn [wrap rbind].
  apply initializeRBAC_post in H1 as [_ (Hr & _ & _)].
  destruct (assignDefaultRoles_succeeds scan st1) as [st' H'].
  - apply (Hr ("user", "Regular user with catalog access")). cbn. tauto.
  - apply (Hr ("admin", "System administrator with full access")). cbn. tauto.
  - rewrite H'. cbn. eauto.
Qed.

Lemma createTables_Ok admin_first scan st st' :
  createTables admin_first scan st = Ok st' ->
  exists st1, initializeRBAC admin_first st = Ok st1 /\ assignDefaultRoles scan st1 = Ok st'.
Proof.
  unfold createTables. intros H. apply rbind_Ok in H as (st1 & H1%wrap_Ok & H2%wrap_Ok).
  eauto.
Qed.

(** *** Scans *)

Lemma scanned_ids_In scan st userID :
  fair_scan scan -> (In userID (scanned_ids scan st) <-> In userID (identities st)).
Proof.
  intros Hfair. unfold scanned_ids, identities.
  pose proof (Permutation_map u_id (Hfair (users st))) as Hp. split; intros H.
  - eapply Permutation_in; eauto.
  - eapply Permutation_in; [apply Permutation_sym|]; eauto.
Qed.

Lemma scanned_ids_nil scan st :
  fair_scan scan -> (scanned_ids scan st = [] <-> identities st = []).
Proof.
  intros Hfair. unfold scanned_ids, identities.
  pose proof (Permutation_map u_id (Hfair (users st))) as Hp. split; intros H.
  - rewrite H in Hp. apply Permutation_nil. exact Hp.
  - rewrite H in Hp. apply Permutation_nil. apply Permutation_sym. exact Hp.
Qed.

Lemma insert_by_email_perm u rows : Permutation (insert_by_email u rows) (u :: rows).
Proof.
  induction rows as [|v rows IH]; cbn; [reflexivity|].
  destruct (String.leb _ _); [reflexivity|].
  rewrite IH. apply perm_swap.
Qed.

Lemma scan_rowid_fair : fair_scan scan_rowid.
Proof. intros rows. reflexivity. Qed.

Lemma scan_email_index_fair : fair_scan scan_email_index.
Proof.
  intros rows. induction rows as [|u rows IH]; cbn; [reflexivity|].
  rewrite insert_by_email_perm. constructor. exact IH.
Qed.

(** *** What a bootstrap pass does to the tables *)

Lemma admin_rows_none adminRoleID (rows : list UserRoleRow) :
  List.filter (fun ur => ur_role_id ur =? adminRoleID) rows = [] <->
  forall ur, In ur rows -> ur_role_id ur <> adminRoleID.
Proof.
  rewrite filter_nil_iff. split; intros H ur Hin; specialize (H ur Hin).
  - apply Z.eqb_neq. exact H.
  - apply Z.eqb_neq. exact H.
Qed.

Lemma admin_rows_some adminRoleID (rows : list UserRoleRow) :
  List.filter (fun ur => ur_role_id ur =? adminRoleID) rows <> [] ->
  exists ur, In ur rows /\ ur_role_id ur = adminRoleID.
Proof.
  destruct (List.filter _ rows) as [|ur rest] eqn:E; [congruence|]. intros _.
  assert (Hin : In ur (List.filter (fun ur => ur_role_id ur =? adminRoleID) rows))
    by (rewrite E; left; reflexivity).
  apply filter_In in Hin as [Hin Hc]. apply Z.eqb_eq in Hc. eauto.
Qed.

Lemma createTables_rows admin_first scan st st' :
  createTables admin_first scan st = Ok st' ->
  exists st1 userRoleID adminRoleID added promoted,
    initializeRBAC admin_first st = Ok st1 /\
    getRoleIDByName st1 "user" = Ok userRoleID /\
    getRoleIDByName st1 "admin" = Ok adminRoleID /\
    users st' = users st /\ roles st' = roles st1 /\
    permissions st' = permissions st1 /\ role_permissions st' = role_permissions st1 /\
    user_roles st' = (user_roles st ++ added ++ promoted)%list /\
    (forall ur, In ur added ->
       ur_role_id ur = userRoleID /\ ur_assigned_by ur = None /\
       In (ur_user_id ur) (scanned_ids scan st) /\ rolesOf st1 (ur_user_id ur) = []) /\
    (forall userID, In userID (scanned_ids scan st) -> rolesOf st' userID <> []) /\
    (((forall ur, In ur (user_roles st ++ added) -> ur_role_id ur <> adminRoleID) /\
      scanned_ids scan st <> [] /\
      exists id, promoted =
        [mkUserRoleRow id (nth 0 (scanned_ids scan st) 0) adminRoleID None])
     \/
     (((exists ur, In ur (user_roles st ++ added) /\ ur_role_id ur = adminRoleID) \/
       scanned_ids scan st = []) /\
      promoted = [])).
Proof.
  intros H. apply createTables_Ok in H as (st1 & Hinit & Hassign).
  pose proof (initializeRBAC_post _ _ _ Hinit) as [(Hu1 & Hur1 & _) _].
  apply assignDefaultRoles_post in Hassign
    as (userRoleID & adminRoleID & mid & Hlu & Hla & Hd & Hall & Hcase).
  assert (Hscan : scanned_ids scan st1 = scanned_ids scan st)
    by (unfold scanned_ids; rewrite Hu1; reflexivity).
  rewrite Hscan in *.
  pose proof Hd as (Hmu & Hmr & Hmp & Hmrp & added & Hmur & Hadd).
  rewrite Hur1 in Hmur.
  destruct Hcase as [(Hnone & Hne & ->)|(Hsome & ->)].
  - rewrite admin_rows_none in Hnone.
    assert (Hfresh : forall ur, In ur (user_roles mid) ->
              same_pair (nth 0 (scanned_ids scan st) 0) adminRoleID ur = false).
    { intros ur Hin. unfold same_pair. apply andb_false_iff. right.
      apply Z.eqb_neq. apply Hnone. exact Hin. }
    pose proof (insert_or_replace_fresh mid _ adminRoleID None Hfresh) as Hrows.
    exists st1, userRoleID, adminRoleID, added. eexists.
    split; [exact Hinit|]. split; [exact Hlu|]. split; [exact Hla|].
    split; [cbn; congruence|]. split; [cbn; congruence|].
    split; [cbn; congruence|]. split; [cbn; congruence|].
    split; [rewrite Hrows, Hmur, <- app_assoc; reflexivity|].
    split; [exact Hadd|]. split.
    + intros userID Hin. specialize (Hall userID Hin).
      apply rolesOf_nonempty in Hall as (r & ur & Hr & Hur & H1 & H2).
      apply rolesOf_nonempty. exists r, ur. split; [exact Hr|]. split; [|auto].
      rewrite Hrows. apply in_or_app. left. exact Hur.
    + left. split; [rewrite <- Hmur; exact Hnone|]. split; [exact Hne|]. eauto.
  - exists st1, userRoleID, adminRoleID, added, [].
    split; [exact Hinit|]. split; [exact Hlu|]. split; [exact Hla|].
    split; [congruence|]. split; [congruence|]. split; [congruence|]. split; [congruence|].
    split; [rewrite Hmur, app_nil_r; reflexivity|].
    split; [exact Hadd|]. split; [exact Hall|].
    right. split; [|reflexivity]. destruct Hsome as [Hsome|Hnil]; [left|right; exact Hnil].
    rewrite <- Hmur. apply admin_rows_some. exact Hsome.
Qed.

Lemma initialized_catalog st st' :
  roles st' = roles st -> permissions st' = permissions st ->
  role_permissions st' = role_permissions st -> initialized st -> initialized st'.
Proof.
  intros Hr Hp Hrp (H1 & H2 & H3).
  unfold initialized, attached, has_role, has_permission, has_role_permission,
    getRoleIDByName, getPermissionIDByName in *.
  rewrite Hr, Hp, Hrp. auto.
Qed.

Lemma createTables_bootstrapped admin_first scan st st' :
  fair_scan scan -> createTables admin_first scan st = Ok st' -> bootstrapped st'.
Proof.
  intros Hfair H.
  apply createTables_rows in H
    as (st1 & u & a & added & promoted & Hinit & Hlu & Hla & Hus & Hr & Hp & Hrp & Hur
        & Hadd & Hall & Hcase).
  apply initializeRBAC_post in Hinit as [_ Hi].
  assert (Hla' : getRoleIDByName st' "admin" = Ok a).
  { unfold getRoleIDByName in *. rewrite Hr. exact Hla. }
  split; [eapply initialized_catalog; eauto|]. split.
  - intros userID Hin. apply Hall. apply scanned_ids_In; [exact Hfair|].
    unfold identities in *. rewrite <- Hus. exact Hin.
  - destruct Hcase as [(_ & _ & id & ->)|([(ur & Hin & Ha)|Hnil] & ->)].
    + right. exists a, (mkUserRoleRow id (nth 0 (scanned_ids scan st) 0) a None).
      split; [exact Hla'|]. split; [|reflexivity].
      rewrite Hur. apply in_or_app. right. apply in_or_app. right. left. reflexivity.
    + right. exists a, ur. split; [exact Hla'|]. split; [|exact Ha].
      rewrite Hur, app_nil_r. exact Hin.
    + left. apply (scanned_ids_nil scan st Hfair) in Hnil.
      unfold identities in *. rewrite Hus. exact Hnil.
Qed.

Lemma rolesOf_same_tables st st' userID :
  same_tables st st' -> rolesOf st' userID = rolesOf st userID.
Proof.
  intros (_ & Hr & _ & Hur & _). unfold rolesOf, GetUserRoles. rewrite Hr, Hur. reflexivity.
Qed.

Lemma createTables_noop admin_first scan st st' :
  fair_scan scan -> bootstrapped st ->
  createTables admin_first scan st = Ok st' -> same_tables st st'.
Proof.
  intros Hfair (Hi & Hroles & Hadmin) H.
  apply createTables_rows in H
    as (st1 & u & a & added & promoted & Hinit & Hlu & Hla & Hus & Hr & Hp & Hrp & Hur
        & Hadd & Hall & Hcase).
  pose proof (initializeRBAC_again _ _ _ Hi Hinit) as Hsame.
  pose proof Hsame as (Hu1 & Hr1 & Hp1 & Hur1 & Hrp1).
  assert (Hnone : added = []).
  { destruct added as [|ur rest]; [reflexivity|]. exfalso.
    destruct (Hadd ur (or_introl eq_refl)) as (_ & _ & Hin & Hempty).
    apply (scanned_ids_In scan st _ Hfair) in Hin.
    apply (Hroles _ Hin). rewrite <- (rolesOf_same_tables st st1 _ Hsame). exact Hempty. }
  subst added. rewrite app_nil_r in Hcase. cbn [app] in Hur.
  destruct Hcase as [(Hno & Hne & _)|(_ & ->)].
  - exfalso. destruct Hadmin as [Hnil|(a' & ur & Hla' & Hin & Ha')].
    + apply Hne. apply scanned_ids_nil; assumption.
    + assert (Heq : a' = a).
      { unfold getRoleIDByName in *. rewrite Hr1 in Hla. congruence. }
      rewrite Heq in Ha'. exact (Hno ur Hin Ha').
  - rewrite app_nil_r in Hur. unfold same_tables. repeat split; congruence.
Qed.

(** *** Bootstrap: the claims *)

(** The bootstrap pass cannot fail on this store model. *)
Lemma bootstrap_total admin_first scan st :
  exists st', createTables admin_first scan st = Ok st'.
Proof. apply createTables_succeeds. Qed.





(** C6: a second bootstrap pass on a store where one has completed
    succeeds and leaves all five tables (identities, roles, permissions,
    attachments, assignments with their granters) as they were, whatever
    the orders of the map range and of the scan in either pass. *)
Theorem bootstrap_idempotent
    (admin_first admin_first' : bool) (scan scan' : list UserRow -> list UserRow)
    (st st1 : Store) :
  fair_scan scan -> fair_scan scan' ->
  createTables admin_first scan st = Ok st1 ->
  exists st2, createTables admin_first' scan' st1 = Ok st2 /\
              users st2 = users st1 /\ roles st2 = roles st1 /\
              permissions st2 = permissions st1 /\
              user_roles st2 = user_roles st1 /\
              role_permissions st2 = role_permissions st1.
Proof.
  intros Hfair Hfair' H1.
  destruct (createTables_succeeds admin_first' scan' st1) as [st2 H2].
  exists st2. split; [exact H2|].
  apply (createTables_noop admin_first' scan' st1 st2 Hfair'); [|exact H2].
  exact (createTables_bootstrapped admin_first scan st st1 Hfair H1).
Qed.

Lemma bootstrap_idempotent_witness :
  let st1 := two_users_restarted in
  exists st2, createTables false scan_email_index st1 = Ok st2 /\
              users st2 = users st1 /\ roles st2 = roles st1 /\
              permissions st2 = permissions st1 /\
              user_roles st2 = user_roles st1 /\
              role_permissions st2 = role_permissions st1.
Proof.
  intros st1.
  apply (bootstrap_idempotent true false scan_rowid scan_email_index two_users_store st1).
  - intros rows. reflexivity.
  - exact scan_email_index_fair.
  - vm_compute. reflexivity.
Defined.

(** *** Promotion *)

Lemma holdsRole_bool_eq st st' userID name :
  (holdsRole st' userID name = true <-> holdsRole st userID name = true) ->
  holdsRole st' userID name = holdsRole st userID name.
Proof.
  destruct (holdsRole st' userID name), (holdsRole st userID name); intuition congruence.
Qed.

(** What a pass does about the admin role, on a store that keeps PRIMARY
    KEY and UNIQUE(name) on roles: if no user id holds admin, an identity
    exists, and the admin role is there already or no assignment refers to a
    missing role, the pass gives admin to exactly one user id, the first
    that the scan of [users] delivers; if some user id holds admin, the pass
    changes nobody's holding of admin.  When the assignments refer to
    existing identities, "no user id" is the same as "no identity". *)
Lemma bootstrap_promotes_first_scanned
    (admin_first : bool) (scan : list UserRow -> list UserRow) (st st' : Store) :
  fair_scan scan -> pk_roles st -> unique_role_names st ->
  createTables admin_first scan st = Ok st' ->
  (has_role st "admin" = true \/ fk_user_roles_role st ->
   (forall userID, holdsRole st userID "admin" = false) -> identities st <> [] ->
     forall userID,
       holdsRole st' userID "admin" = true <-> userID = nth 0 (scanned_ids scan st) 0) /\
  ((exists userID, holdsRole st userID "admin" = true) ->
     forall userID, holdsRole st' userID "admin" = holdsRole st userID "admin") /\
  (fk_user_roles_user st ->
     (forall userID, In userID (identities st) -> holdsRole st userID "admin" = false) ->
     forall userID, holdsRole st userID "admin" = false).
Proof.
  intros Hfair Hpk Hun H.
  apply createTables_rows in H
    as (st1 & u & a & added & promoted & Hinit & Hlu & Hla & Hus & Hr & Hp & Hrp & Hur
        & Hadd & Hall & Hcase).
  pose proof (initializeRBAC_post _ _ _ Hinit) as [Hgrow _].
  pose proof Hgrow as (_ & _ & [new Hnew] & _ & _ & Hpk1 & Hun1).
  specialize (Hpk1 Hpk). specialize (Hun1 Hun).
  assert (Hun' : unique_role_names st') by (unfold unique_role_names in *; congruence).
  assert (Hla' : getRoleIDByName st' "admin" = Ok a).
  { unfold getRoleIDByName in *. rewrite Hr. exact Hla. }
  pose proof (fun userID => holdsRole_lookup st' userID "admin" a Hun' Hla') as Hafter.
  assert (Hua : u <> a).
  { intros ->.
    apply getRoleIDByName_row in Hlu as (ru & Hru & Hnu & Hidu).
    apply getRoleIDByName_row in Hla as (ra & Hra & Hna & Hida).
    assert (ru = ra) by (apply (role_row_of_id st1); auto; congruence).
    subst ru. rewrite Hnu in Hna. discriminate. }
  assert (Hadded : forall ur, In ur added -> ur_role_id ur <> a).
  { intros ur Hin. destruct (Hadd ur Hin) as (-> & _). exact Hua. }
  split; [|split].
  - intros Hknown Hno Hne userID.
    assert (Hold : forall ur, In ur (user_roles st) -> ur_role_id ur <> a).
    { intros ur Hin Ha.
      assert (Hrow : exists r0, In r0 (roles st) /\ r_id r0 = a /\ r_name r0 = "admin").
      { destruct Hknown as [Hhas|Hfk].
        - apply has_role_lookup in Hhas as [a0 Ha0].
          pose proof (getRoleIDByName_grows _ _ _ _ Hgrow Ha0) as Ha1.
          assert (a0 = a) by congruence. subst a0.
          apply getRoleIDByName_row in Ha0 as (r0 & Hr0 & Hn0 & Hid0). eauto.
        - apply getRoleIDByName_row in Hla as (ra & Hra & Hna & Hida).
          pose proof (Hfk ur Hin) as Hrole. apply in_map_iff in Hrole as (r0 & Hid0 & Hr0).
          assert (r0 = ra).
          { apply (role_row_of_id st1); auto; [|congruence].
            rewrite Hnew. apply in_or_app. left. exact Hr0. }
          subst r0. eauto. }
      destruct Hrow as (r0 & Hr0 & Hid0 & Hn0).
      assert (Ht : holdsRole st (ur_user_id ur) "admin" = true).
      { apply holdsRole_rows. exists r0, ur. repeat split; auto. congruence. }
      rewrite Hno in Ht. discriminate. }
    assert (Hnone : forall ur, In ur (user_roles st ++ added) -> ur_role_id ur <> a).
    { intros ur Hin. apply in_app_or in Hin as [Hin|Hin]; auto. }
    destruct Hcase as [(_ & _ & id & ->)|([(ur & Hin & Ha)|Hnil] & ->)].
    + rewrite Hafter, Hur. split.
      * intros (ur & Hin & Ha & Huser).
        rewrite app_assoc in Hin. apply in_app_or in Hin as [Hin|[<-|[]]].
        -- exfalso. exact (Hnone ur Hin Ha).
        -- cbn in Huser. congruence.
      * intros ->. eexists. split.
        -- apply in_or_app. right. apply in_or_app. right. left. reflexivity.
        -- cbn. auto.
    + exfalso. exact (Hnone ur Hin Ha).
    + exfalso. apply Hne. apply (scanned_ids_nil scan st Hfair). exact Hnil.
  - intros (holder & Hholder) userID.
    apply holdsRole_rows in Hholder as (r & ur0 & Hr0 & Hur0 & Hid0 & _ & Hname0).
    assert (Hlst : getRoleIDByName st "admin" = Ok a).
    { assert (Hhas : has_role st "admin" = true).
      { apply existsb_exists. exists r. split; [exact Hr0|]. apply String.eqb_eq. exact Hname0. }
      apply has_role_lookup in Hhas as [a0 Ha0].
      pose proof (getRoleIDByName_grows _ _ _ _ Hgrow Ha0). congruence. }
    assert (Hrole0 : ur_role_id ur0 = a).
    { rewrite <- Hid0. exact (getRoleIDByName_unique st "admin" a r Hun Hlst Hr0 Hname0). }
    pose proof (holdsRole_lookup st userID "admin" a Hun Hlst) as Hbefore.
    apply holdsRole_bool_eq. rewrite Hafter, Hbefore, Hur.
    destruct Hcase as [(Hnone & _)|(_ & ->)].
    + exfalso. apply (Hnone ur0); [apply in_or_app; left; exact Hur0|exact Hrole0].
    + rewrite app_nil_r. split.
      * intros (ur & Hin & Ha & Huser). apply in_app_or in Hin as [Hin|Hin]; [eauto|].
        exfalso. exact (Hadded ur Hin Ha).
      * intros (ur & Hin & Ha & Huser). exists ur. split; [|auto].
        apply in_or_app. left. exact Hin.
  - intros Hfku Hno userID.
    destruct (holdsRole st userID "admin") eqn:E; [|reflexivity].
    pose proof E as Hrows.
    apply holdsRole_rows in Hrows as (r & ur & _ & Hin & _ & Huser & _).
    assert (Hid : In userID (identities st)) by (rewrite <- Huser; apply Hfku; exact Hin).
    rewrite (Hno userID Hid) in E. discriminate.
Qed.

Lemma bootstrap_promotes_first_scanned_witness :
  let st' := two_users_restarted in
  holdsRole st' 1 "admin" = true /\ holdsRole st' 2 "admin" <> true.
Proof.
  intros st'.
  assert (H : forall userID, holdsRole st' userID "admin" = true <-> userID = 1).
  { refine (proj1 (bootstrap_promotes_first_scanned true scan_rowid two_users_store st'
                     _ _ _ _) _ _ _).
    - intros rows. reflexivity.
    - unfold pk_roles. vm_compute. repeat constructor; cbn; intuition discriminate.
    - unfold unique_role_names. vm_compute. repeat constructor; cbn; intuition discriminate.
    - vm_compute. reflexivity.
    - left. vm_compute. reflexivity.
    - intros userID. apply not_true_is_false. intros Hh.
      apply holdsRole_rows in Hh as (r & ur & Hr & Hur & Hid & _ & Hn).
      vm_compute in Hr, Hur.
      destruct Hr as [<-|[<-|[]]]; cbn in Hn; try discriminate;
        destruct Hur as [<-|[<-|[]]]; cbn in Hid; discriminate.
    - vm_compute. discriminate. }
  split.
  - apply H. reflexivity.
  - intros Hh. apply H in Hh. discriminate Hh.
Defined.

(** The guard of the promotion counts the assignment rows of the admin
    role, not the identities that hold it: on the store of the orphaned
    admin no identity holds admin and alice exists, yet the pass assigns
    admin to nobody. *)
Lemma bootstrap_skips_promotion :
  let st := orphaned_admin_store in
  let st' := or_empty (createTables true scan_rowid st) in
  createTables true scan_rowid st = Ok st' /\
  identities st = [1] /\
  holdsRole st 1 "admin" = false /\
  holdsRole st' 1 "admin" = false /\
  user_roles st' = user_roles st.
Proof. vm_compute. repeat split; reflexivity. Qed.

(** C5, the code against the claim.  The identity that the pass promotes
    is the first row of [SELECT id FROM users], a query without ORDER BY,
    not the earliest-created identity.  The server starts on a new file, zed
    registers (id 1), then amy (id 2); no identity holds admin.  On the
    restart, with the rows read through the UNIQUE index on email, the pass
    promotes amy and not zed; read in rowid order it promotes zed, as the
    claim and the comment [Make first user an admin] have it. *)
Theorem promotion_follows_scan_order :
  two_users_history = Ok two_users_store /\
  identities two_users_store = [1; 2] /\
  (forall userID, In userID (identities two_users_store) ->
     holdsRole two_users_store userID "admin" = false) /\
  scanned_ids scan_email_index two_users_store = [2; 1] /\
  (let st' := or_empty (createTables true scan_email_index two_users_store) in
   createTables true scan_email_index two_users_store = Ok st' /\
   holdsRole st' 2 "admin" = true /\ holdsRole st' 1 "admin" = false) /\
  (let st' := or_empty (createTables true scan_rowid two_users_store) in
   createTables true scan_rowid two_users_store = Ok st' /\
   holdsRole st' 1 "admin" = true /\ holdsRole st' 2 "admin" = false).
Proof.
  split; [vm_compute; reflexivity|]. split; [vm_compute; reflexivity|]. split.
  { intros userID Hin. vm_compute in Hin.
    destruct Hin as [<-|[<-|[]]]; vm_compute; reflexivity. }
  vm_compute. repeat split; reflexivity.
Qed.

(** *** Permission checks *)

Lemma permission_join_In st userID permissionName ur rp p :
  In (ur, rp, p) (permission_join st userID permissionName) <->
  In ur (user_roles st) /\ In rp (role_permissions st) /\ In p (permissions st) /\
  ur_role_id ur = rp_role_id rp /\ rp_permission_id rp = p_id p /\
  ur_user_id ur = userID /\ p_name p = permissionName.
Proof.
  unfold permission_join. rewrite in_flat_map. split.
  - intros (ur' & Hur & H). apply in_flat_map in H as (rp' & Hrp & H).
    apply in_flat_map in H as (p' & Hp & H).
    destruct (_ && _) eqn:E in H; [|destruct H].
    destruct H as [[= -> -> ->]|[]].
    repeat (apply andb_true_iff in E as [E ?]).
    apply Z.eqb_eq in E. repeat split; auto; try (apply Z.eqb_eq; assumption).
    apply String.eqb_eq. assumption.
  - intros (Hur & Hrp & Hp & H1 & H2 & H3 & H4). exists ur. split; [exact Hur|].
    apply in_flat_map. exists rp. split; [exact Hrp|].
    apply in_flat_map. exists p. split; [exact Hp|].
    rewrite H1, H2, H3, H4, !Z.eqb_refl, String.eqb_refl. left. reflexivity.
Qed.

Lemma permissionSet_In st roleID perm :
  In perm (permissionSet st roleID) <->
  exists p rp, In p (permissions st) /\ In rp (role_permissions st) /\
               p_id p = rp_permission_id rp /\ rp_role_id rp = roleID /\
               perm = mkPermission (p_id p) (p_name p) (p_resource p) (p_action p)
                                   (p_description p).
Proof.
  unfold permissionSet, GetRolePermissions. rewrite in_flat_map. split.
  - intros (p & Hp & Hin). apply in_map_iff in Hin as (rp & <- & Hrp).
    apply filter_In in Hrp as [Hrp Hc]. apply andb_true_iff in Hc as [H1 H2].
    apply Z.eqb_eq in H1, H2. exists p, rp. auto.
  - intros (p & rp & Hp & Hrp & H1 & H2 & ->). exists p. split; [exact Hp|].
    apply in_map_iff. exists rp. split; [reflexivity|].
    apply filter_In. split; [exact Hrp|].
    apply andb_true_iff. split; apply Z.eqb_eq; assumption.
Qed.


Lemma HasPermission_true st userID permissionName :
  HasPermission st userID permissionName = Ok true <->
  exists row, In row (permission_join st userID permissionName).
Proof.
  unfold HasPermission. cbv zeta.
  destruct (permission_join st userID permissionName) as [|row rest].
  - cbn. split; [discriminate|]. intros [row []].
  - replace (0 <? Z.of_nat (length (row :: rest))) with true
      by (symmetry; apply Z.ltb_lt; cbn [length]; lia).
    split; [|reflexivity]. intros _. exists row. left. reflexivity.
Qed.




(** *** AssignRole *)

Lemma filter_other_pair (rows : list UserRoleRow) userID roleID u r :
  (u =? userID) && (r =? roleID) = false ->
  List.filter (same_pair u r)
    (List.filter (fun ur => negb (same_pair userID roleID ur)) rows) =
  List.filter (same_pair u r) rows.
Proof.
  intros E. induction rows as [|ur rows IH]; [reflexivity|]. cbn [List.filter].
  destruct (same_pair userID roleID ur) eqn:Es; cbn [negb List.filter].
  - assert (Hnot : same_pair u r ur = false).
    { unfold same_pair in *. apply andb_true_iff in Es as [->%Z.eqb_eq ->%Z.eqb_eq].
      rewrite (Z.eqb_sym userID u), (Z.eqb_sym roleID r). exact E. }
    rewrite Hnot. exact IH.
  - destruct (same_pair u r ur); [f_equal|]; exact IH.
Qed.

Lemma assignmentsOf_after st userID roleID assignedBy u r :
  assignmentsOf (insert_or_replace_user_role st userID roleID assignedBy) u r =
    if (u =? userID) && (r =? roleID)
    then [mkUserRoleRow (next_rowid (seq_user_roles st) (map ur_id (user_roles st)))
                        userID roleID assignedBy]
    else assignmentsOf st u r.
Proof.
  unfold assignmentsOf. cbn [insert_or_replace_user_role user_roles].
  rewrite List.filter_app. cbn [List.filter].
  destruct ((u =? userID) && (r =? roleID)) eqn:E.
  - apply andb_true_iff in E as [->%Z.eqb_eq ->%Z.eqb_eq].
    assert (Hrow : same_pair userID roleID
                     (mkUserRoleRow (next_rowid (seq_user_roles st)
                                       (map ur_id (user_roles st)))
                                    userID roleID assignedBy) = true).
    { unfold same_pair. cbn. rewrite !Z.eqb_refl. reflexivity. }
    rewrite Hrow.
    replace (List.filter _ (List.filter _ (user_roles st))) with (@nil UserRoleRow);
      [reflexivity|].
    symmetry. apply filter_nil_iff. intros ur Hin. apply filter_In in Hin as [_ Hc].
    destruct (same_pair userID roleID ur); [discriminate|reflexivity].
  - assert (Hnew : same_pair u r
                     (mkUserRoleRow (next_rowid (seq_user_roles st)
                                       (map ur_id (user_roles st)))
                                    userID roleID assignedBy) = false).
    { unfold same_pair. cbn. rewrite (Z.eqb_sym userID u), (Z.eqb_sym roleID r). exact E. }
    rewrite Hnew, app_nil_r. apply filter_other_pair. exact E.
Qed.

Lemma filter_length_split {A} (f : A -> bool) (l : list A) :
  (length (List.filter f l) + length (List.filter (fun x => negb (f x)) l) = length l)%nat.
Proof.
  induction l as [|a l IH]; [reflexivity|]. cbn.
  destruct (f a); cbn; lia.
Qed.

(** C9: assigning a role the user already holds does not fail and adds no
    row: afterwards the pair has exactly one assignment, its granter is the
    granter of this call, the table is no longer than before, and the
    assignments of every other pair are as they were. *)
Theorem AssignRole_replaces_assignment
    (st : Store) (userID roleID : Z) (assignedBy : option Z) :
  assignmentsOf st userID roleID <> [] ->
  exists st',
    AssignRole st userID roleID assignedBy = Ok st' /\
    (exists row, assignmentsOf st' userID roleID = [row] /\
                 ur_assigned_by row = assignedBy) /\
    (length (user_roles st') <= length (user_roles st))%nat /\
    (length (assignmentsOf st userID roleID) = 1%nat ->
     length (user_roles st') = length (user_roles st)) /\
    (forall u r, (u, r) <> (userID, roleID) ->
                 assignmentsOf st' u r = assignmentsOf st u r).
Proof.
  intros Hheld. exists (insert_or_replace_user_role st userID roleID assignedBy).
  split; [reflexivity|].
  assert (Hlen : (length (user_roles (insert_or_replace_user_role st userID roleID assignedBy))
                  + length (assignmentsOf st userID roleID)
                  = length (user_roles st) + 1)%nat).
  { cbn [insert_or_replace_user_role user_roles]. rewrite length_app. cbn [length].
    pose proof (filter_length_split (same_pair userID roleID) (user_roles st)) as Hs.
    unfold assignmentsOf. lia. }
  split; [|split; [|split]].
  - eexists. split.
    + rewrite assignmentsOf_after, !Z.eqb_refl. reflexivity.
    + reflexivity.
  - destruct (assignmentsOf st userID roleID); [congruence|]. cbn [length] in Hlen. lia.
  - intros Hone. lia.
  - intros u r Hne. rewrite assignmentsOf_after.
    destruct ((u =? userID) && (r =? roleID)) eqn:E; [|reflexivity].
    apply andb_true_iff in E as [->%Z.eqb_eq ->%Z.eqb_eq]. congruence.
Qed.

Lemma AssignRole_replaces_assignment_witness :
  let st := two_users_restarted in
  exists st',
    AssignRole st 2 2 (Some 1) = Ok st' /\
    (exists row, assignmentsOf st' 2 2 = [row] /\ ur_assigned_by row = Some 1) /\
    (length (user_roles st') <= length (user_roles st))%nat /\
    (length (assignmentsOf st 2 2) = 1%nat ->
     length (user_roles st') = length (user_roles st)) /\
    (forall u r, (u, r) <> (2, 2) -> assignmentsOf st' u r = assignmentsOf st u r).
Proof.
  intros st. apply (AssignRole_replaces_assignment st 2 2 (Some 1)).
  vm_compute. discriminate.
Defined.

End RBACSpec.

(** * Checks of the string functions against known values *)

Module AuthExamples.
Import Auth.

Example split_bearer : Split "Bearer abc" " "%char = ["Bearer"; "abc"].
Proof. reflexivity. Qed.

Example split_two_spaces : Split "Bearer  abc" " "%char = ["Bearer"; ""; "abc"].
Proof. reflexivity. Qed.

Example split_empty : Split "" " "%char = [""].
Proof. reflexivity. Qed.

Example encode_foobar :
  EncodeToString ["f"%byte; "o"%byte; "o"%byte; "b"%byte; "a"%byte] = "Zm9vYmE=".
Proof. vm_compute. reflexivity. Qed.

Example encode_high : EncodeToString [xfb; xff] = "-_8=".
Proof. vm_compute. reflexivity. Qed.

End AuthExamples.

(** * Further properties of the session manager *)

Module SessionLaws.
Import Auth SessionTrace SessionSpec.

Lemma SessionManager_eq (sm sm' : SessionManager) :
  sessions sm = sessions sm' -> sm = sm'.
Proof. destruct sm, sm'. cbn. intros ->. reflexivity. Qed.

(** Logout semantics of DestroySession: the token is rejected afterwards,
    no other entry is touched, a second call changes nothing, and a token
    that is not in the registry leaves the registry as it is. *)
Theorem DestroySession_invalidates_only_that_token
    (sm : SessionManager) (token : string) (now : Time) :
  ValidateSession (DestroySession sm token) now token
    = (Err ErrInvalidToken, DestroySession sm token) /\
  (forall other, other <> token ->
     sessions (DestroySession sm token) !! other = sessions sm !! other) /\
  DestroySession (DestroySession sm token) token = DestroySession sm token /\
  (forall absent, sessions sm !! absent = None -> DestroySession sm absent = sm).
Proof.
  split; [|split; [|split]].
  - apply ValidateSession_absent. rewrite DestroySession_lookup.
    rewrite decide_True by reflexivity. reflexivity.
  - intros other Hne. rewrite DestroySession_lookup.
    rewrite decide_False by congruence. reflexivity.
  - apply SessionManager_eq. cbn. apply delete_delete_eq.
  - intros absent Habs. apply SessionManager_eq. cbn. apply delete_id. exact Habs.
Qed.

(** A validation that succeeds changes nothing, so the expiry does not
    slide; a validation that fails is final: whatever the clock shows later,
    the same token is rejected until CreateSession issues it again. *)
Theorem ValidateSession_no_renewal_and_final_rejection
    (sm : SessionManager) (now : Time) (token : string) :
  (forall s, fst (ValidateSession sm now token) = Ok s ->
     snd (ValidateSession sm now token) = sm /\ sessions sm !! token = Some s) /\
  (forall e, fst (ValidateSession sm now token) = Err e ->
     e = ErrInvalidToken /\
     forall later, fst (ValidateSession (snd (ValidateSession sm now token)) later token)
                   = Err ErrInvalidToken).
Proof.
  destruct (sessions sm !! token) as [s0|] eqn:Hl.
  - rewrite (ValidateSession_present _ _ _ _ Hl).
    destruct (After now (ExpiresAt s0)); cbn [fst snd]; split.
    + intros s H. discriminate H.
    + intros e [= <-]. split; [reflexivity|]. intros later.
      rewrite ValidateSession_absent; [reflexivity|].
      cbn. apply lookup_delete_eq.
    + intros s [= <-]. auto.
    + intros e H. discriminate H.
  - rewrite (ValidateSession_absent _ _ _ Hl). cbn [fst snd]. split.
    + intros s H. discriminate H.
    + intros e [= <-]. split; [reflexivity|]. intros later.
      rewrite ValidateSession_absent; [reflexivity|exact Hl].
Qed.

Lemma ValidateSession_no_renewal_and_final_rejection_witness :
  let sm := run [CallCreate (repeat x00 32) 0 7 "alice"] in
  let token := generateToken (repeat x00 32) in
  snd (ValidateSession sm 50 token) = sm /\
  fst (ValidateSession (snd (ValidateSession sm (1 + 24 * Hour) token)) 50 token)
    = Err ErrInvalidToken.
Proof.
  intros sm token. split.
  - apply (proj1 (ValidateSession_no_renewal_and_final_rejection sm 50 token)
             (mkSession 7 "alice" (0 + 24 * Hour))).
    vm_compute. reflexivity.
  - apply (proj2 (ValidateSession_no_renewal_and_final_rejection
                    sm (1 + 24 * Hour) token) ErrInvalidToken).
    vm_compute. reflexivity.
Defined.

(** The hourly sweep and the lookup-triggered expiry agree: a sweep at or
    before the time of a validation does not change its answer. *)
Theorem CleanupExpiredSessions_keeps_validation_answers
    (sm : SessionManager) (swept now : Time) (token : string) :
  swept <= now ->
  fst (ValidateSession (CleanupExpiredSessions sm swept) now token)
    = fst (ValidateSession sm now token).
Proof.
  intros Hle. unfold ValidateSession. rewrite CleanupExpiredSessions_lookup.
  destruct (sessions sm !! token) as [s|]; [|reflexivity].
  destruct (After swept (ExpiresAt s)) eqn:Es.
  - apply After_spec in Es.
    assert (Hn : After now (ExpiresAt s) = true) by (apply After_spec; lia).
    rewrite Hn. reflexivity.
  - destruct (After now (ExpiresAt s)); reflexivity.
Qed.

Lemma CleanupExpiredSessions_keeps_validation_answers_witness :
  let sm := run [CallCreate (repeat x00 32) 0 7 "alice"] in
  let token := generateToken (repeat x00 32) in
  fst (ValidateSession (CleanupExpiredSessions sm 10) 20 token)
    = fst (ValidateSession sm 20 token).
Proof.
  intros sm token.
  apply (CleanupExpiredSessions_keeps_validation_answers sm 10 20 token). lia.
Defined.

(** Two sweeps in a row leave what one sweep at the later of the two times
    leaves; in particular a sweep is idempotent. *)
Theorem CleanupExpiredSessions_twice (sm : SessionManager) (t1 t2 : Time) :
  CleanupExpiredSessions (CleanupExpiredSessions sm t1) t2
    = CleanupExpiredSessions sm (Z.max t1 t2) /\
  CleanupExpiredSessions (CleanupExpiredSessions sm t1) t1 = CleanupExpiredSessions sm t1.
Proof.
  assert (H : forall a b,
             CleanupExpiredSessions (CleanupExpiredSessions sm a) b
               = CleanupExpiredSessions sm (Z.max a b)).
  { intros a b. apply SessionManager_eq. apply map_eq. intros k.
    rewrite !CleanupExpiredSessions_lookup.
    destruct (sessions sm !! k) as [s|]; [|reflexivity].
    unfold After.
    destruct (ExpiresAt s <? a) eqn:Ea, (ExpiresAt s <? b) eqn:Eb,
             (ExpiresAt s <? Z.max a b) eqn:Em; try reflexivity;
      try (rewrite Eb; reflexivity);
      try apply Z.ltb_lt in Ea; try apply Z.ltb_ge in Ea;
      try apply Z.ltb_lt in Eb; try apply Z.ltb_ge in Eb;
      try apply Z.ltb_lt in Em; try apply Z.ltb_ge in Em; try lia.
    all: try (rewrite (proj2 (Z.ltb_lt _ _)) by lia; reflexivity).
    all: try (rewrite (proj2 (Z.ltb_ge _ _)) by lia; reflexivity). }
  split; [apply H|]. rewrite H, Z.max_id. reflexivity.
Qed.

(** CreateSession stores its session under the new token whatever was there
    before (an entry under the same token is replaced), leaves every other
    entry as it is, and the new token validates at the instant of issue. *)
Theorem CreateSession_adds_one_entry
    (sm : SessionManager) (entropy : list byte) (now : Time)
    (userID : Z) (username : string) :
  let sm' := snd (CreateSession sm entropy now userID username) in
  let token := generateToken entropy in
  sessions sm' !! token = Some (mkSession userID username (now + 24 * Hour)) /\
  (forall other, other <> token -> sessions sm' !! other = sessions sm !! other) /\
  ValidateSession sm' now token = (Ok (mkSession userID username (now + 24 * Hour)), sm') /\
  (size (sessions sm') <= S (size (sessions sm)))%nat.
Proof.
  intros sm' token.
  assert (Hl : sessions sm' !! token = Some (mkSession userID username (now + 24 * Hour))).
  { apply (proj2 (CreateSession_lookup sm entropy now userID username)). }
  split; [exact Hl|]. split; [|split].
  - intros other Hne. subst sm'. cbn [CreateSession snd sessions].
    apply lookup_insert_ne. intros Heq. apply Hne. subst token. symmetry. exact Heq.
  - rewrite (ValidateSession_present _ _ _ _ Hl). cbn [ExpiresAt].
    replace (After now (now + 24 * Hour)) with false; [reflexivity|].
    symmetry. apply After_false. rewrite day_length. lia.
  - subst sm'. cbn [CreateSession snd sessions].
    destruct (sessions sm !! generateToken entropy) eqn:E.
    + rewrite map_size_insert_Some by eauto. lia.
    + rewrite map_size_insert_None by assumption. lia.
Qed.

(** Every entry of a registry was put there by a CreateSession call of the
    trace, with the user of that call and the expiry 24 hours after it: no
    operation ever edits a stored session. *)
Theorem registry_entries_come_from_CreateSession (calls : list call) token s :
  sessions (run calls) !! token = Some s ->
  exists entropy created userID username,
    In (CallCreate entropy created userID username) calls /\
    token = generateToken entropy /\
    s = mkSession userID username (created + 24 * Hour).
Proof.
  revert token s. induction calls as [|c calls IH] using rev_ind; intros token s.
  - cbn. rewrite lookup_empty. discriminate.
  - rewrite run_snoc.
    assert (Hold : sessions (run calls) !! token = Some s ->
              exists entropy created userID username,
                In (CallCreate entropy created userID username) (calls ++ [c]) /\
                token = generateToken entropy /\
                s = mkSession userID username (created + 24 * Hour)).
    { intros H. destruct (IH _ _ H) as (e & t & u & n & Hin & Ht & Hs).
      exists e, t, u, n. split; [apply in_or_app; left; exact Hin|auto]. }
    destruct c as [entropy created userID username|now tok|tok|now]; cbn [step].
    + cbn [CreateSession snd sessions]. rewrite lookup_insert.
      destruct (decide (generateToken entropy = token)) as [<-|Hne]; [|exact Hold].
      intros [= <-]. exists entropy, created, userID, username.
      split; [apply in_or_app; right; left; reflexivity|auto].
    + unfold ValidateSession. destruct (sessions (run calls) !! tok) as [s0|] eqn:Hl.
      * destruct (After now (ExpiresAt s0)); cbn [snd sessions]; [|exact Hold].
        rewrite lookup_delete. destruct (decide (tok = token)); [discriminate|exact Hold].
      * cbn [snd]. exact Hold.
    + rewrite DestroySession_lookup. destruct (decide (tok = token)); [discriminate|exact Hold].
    + rewrite CleanupExpiredSessions_lookup.
      destruct (sessions (run calls) !! token) as [s0|] eqn:Hl; [|discriminate].
      destruct (After now (ExpiresAt s0)); [discriminate|]. intros [= <-]. apply Hold.
      reflexivity.
Qed.

Lemma registry_entries_come_from_CreateSession_witness :
  let calls := [CallCreate (repeat x00 32) 0 7 "alice"; CallCleanup 5] in
  exists entropy created userID username,
    In (CallCreate entropy created userID username) calls /\
    generateToken (repeat x00 32) = generateToken entropy /\
    mkSession 7 "alice" (0 + 24 * Hour) = mkSession userID username (created + 24 * Hour).
Proof.
  intros calls.
  apply (registry_entries_come_from_CreateSession calls
           (generateToken (repeat x00 32)) (mkSession 7 "alice" (0 + 24 * Hour))).
  vm_compute. reflexivity.
Defined.

End SessionLaws.

(** * Properties of the token encoding *)

Module EncodingLaws.
Import Auth TokenAlphabet Text.

Lemma bytes_ind3 (P : list byte -> Prop) :
  P [] -> (forall a, P [a]) -> (forall a b, P [a; b]) ->
  (forall a b c rest, P rest -> P (a :: b :: c :: rest)) ->
  forall l, P l.
Proof.
  intros H0 H1 H2 H3 l.
  enough (H : P l /\ (forall a, P (a :: l)) /\ (forall a b, P (a :: b :: l))) by apply H.
  induction l as [|x l (IH0 & IH1 & IH2)]; [auto|].
  split; [apply IH1|]. split; [intros a; apply IH2|]. intros a b. apply H3. exact IH0.
Qed.

Lemma EncodeToString_group a b c rest :
  EncodeToString (a :: b :: c :: rest) =
    let v := N.lor (N.lor (N.shiftl (Byte.to_N a) 16) (N.shiftl (Byte.to_N b) 8))
                   (Byte.to_N c) in
    String (sextet (N.shiftr v 18))
      (String (sextet (N.shiftr v 12))
         (String (sextet (N.shiftr v 6)) (String (sextet v) (EncodeToString rest)))).
Proof. reflexivity. Qed.

(** The encoding of [n] bytes has 4 * ceil(n / 3) characters; a token made
    of the 32 bytes that generateToken asks for has 44. *)
Theorem EncodeToString_length (src : list byte) :
  String.length (EncodeToString src) = (4 * ((List.length src + 2) / 3))%nat /\
  (List.length src = 32%nat -> String.length (generateToken src) = 44%nat).
Proof.
  assert (H : String.length (EncodeToString src) = (4 * ((List.length src + 2) / 3))%nat).
  { induction src as [| a | a b | a b c rest IH] using bytes_ind3; try reflexivity.
    rewrite EncodeToString_group. cbv zeta. cbn [String.length List.length]. rewrite IH.
    replace (S (S (S (List.length rest))) + 2)%nat
      with ((List.length rest + 2) + 1 * 3)%nat by lia.
    rewrite Nat.div_add by discriminate. lia. }
  split; [exact H|]. intros H32. unfold generateToken. rewrite H, H32. reflexivity.
Qed.

Lemma EncodeToString_length_witness :
  String.length (generateToken (repeat x00 32)) = 44%nat.
Proof.
  apply (proj2 (EncodeToString_length (repeat x00 32))). reflexivity.
Defined.

(** *** The alphabet *)

Lemma land_63_below n : (N.land n 63 < 64)%N.
Proof.
  change 63%N with (N.ones 6). rewrite N.land_ones.
  apply N.mod_lt. discriminate.
Qed.

Lemma sextet_land n : sextet n = sextet (N.land n 63).
Proof.
  unfold sextet. rewrite <- N.land_assoc, N.land_diag. reflexivity.
Qed.

Lemma below_64_listed m : (m < 64)%N -> In m (map N.of_nat (seq 0 64)).
Proof.
  intros Hm. apply in_map_iff. exists (N.to_nat m). split; [apply N2Nat.id|].
  apply in_seq. lia.
Qed.

Lemma sextet_index n : alphabet_index (sextet n) = Some (N.land n 63).
Proof.
  rewrite sextet_land.
  assert (Hall : forallb (fun i => match alphabet_index (sextet i) with
                                   | Some j => N.eqb j i
                                   | None => false
                                   end) (map N.of_nat (seq 0 64)) = true)
    by (vm_compute; reflexivity).
  rewrite forallb_forall in Hall.
  specialize (Hall _ (below_64_listed _ (land_63_below n))).
  destruct (alphabet_index (sextet (N.land n 63))) as [j|]; [|discriminate].
  apply N.eqb_eq in Hall. congruence.
Qed.

Lemma sextet_token_char n : token_char (sextet n) = true.
Proof.
  rewrite sextet_land.
  assert (Hall : forallb (fun i => token_char (sextet i)) (map N.of_nat (seq 0 64)) = true)
    by (vm_compute; reflexivity).
  rewrite forallb_forall in Hall. apply Hall. apply below_64_listed. apply land_63_below.
Qed.

Lemma sextet_not_padding n : sextet n <> StdPadding.
Proof.
  intros H. pose proof (sextet_index n) as Hi. rewrite H in Hi.
  vm_compute in Hi. discriminate.
Qed.

Lemma EncodeToString_token_chars (src : list byte) :
  all_chars token_char (EncodeToString src) = true.
Proof.
  induction src as [| a | a b | a b c rest IH] using bytes_ind3.
  - reflexivity.
  - cbn [EncodeToString all_chars]. rewrite !sextet_token_char. reflexivity.
  - cbn [EncodeToString all_chars]. rewrite !sextet_token_char. reflexivity.
  - rewrite EncodeToString_group. cbv zeta. cbn [all_chars].
    rewrite !sextet_token_char, IH. reflexivity.
Qed.

Lemma all_chars_has_char (p : ascii -> bool) (c : ascii) (s : string) :
  all_chars p s = true -> p c = false -> has_char c s = false.
Proof.
  intros Hall Hc. induction s as [|a s IH]; [reflexivity|].
  cbn [all_chars has_char] in *. apply andb_true_iff in Hall as [Ha Hs].
  rewrite (IH Hs), orb_false_r. apply not_true_is_false. intros E.
  apply Ascii.eqb_eq in E. congruence.
Qed.

Lemma generateToken_no_space (entropy : list byte) :
  has_char " " (generateToken entropy) = false.
Proof.
  apply (all_chars_has_char token_char); [apply EncodeToString_token_chars|reflexivity].
Qed.

(** Every character of a token is a letter, a digit, '-', '_' or the
    padding '=': a token holds no space, semicolon, comma, double quote or
    backslash, the characters that a cookie value or a Bearer header could
    not carry. *)
Theorem EncodeToString_url_safe (src : list byte) :
  all_chars token_char (generateToken src) = true /\
  forall c, In c [" "; ";"; ","; "034"; "\"]%char -> has_char c (generateToken src) = false.
Proof.
  pose proof (EncodeToString_token_chars src) as H. split; [exact H|].
  intros c Hc. apply (all_chars_has_char token_char); [exact H|].
  cbn in Hc. destruct Hc as [<-|[<-|[<-|[<-|[<-|[]]]]]]; reflexivity.
Qed.

(** *** Distinct bytes give distinct tokens *)

Lemma sextet_inj x y : sextet x = sextet y -> N.land x 63 = N.land y 63.
Proof.
  intros H. pose proof (sextet_index x) as Hx. rewrite H, sextet_index in Hx. congruence.
Qed.

Lemma lor_low_is_add hi lo k : (lo < 2 ^ k)%N -> N.lor (N.shiftl hi k) lo = (hi * 2 ^ k + lo)%N.
Proof.
  intros Hlo. rewrite N.shiftl_mul_pow2.
  assert (Hdisj : N.land (hi * 2 ^ k) lo = 0%N).
  { apply N.bits_inj_0. intros n. rewrite N.land_spec.
    destruct (N.lt_ge_cases n k) as [Hn|Hn].
    - rewrite N.mul_pow2_bits_low by exact Hn. reflexivity.
    - rewrite <- (N.mod_small lo (2 ^ k)) by exact Hlo.
      rewrite N.mod_pow2_bits_high by exact Hn. apply andb_false_r. }
  rewrite <- N.lxor_lor by exact Hdisj. symmetry. apply N.add_nocarry_lxor. exact Hdisj.
Qed.

Lemma group_value a b c :
  N.lor (N.lor (N.shiftl (Byte.to_N a) 16) (N.shiftl (Byte.to_N b) 8)) (Byte.to_N c)
    = (Byte.to_N a * 65536 + Byte.to_N b * 256 + Byte.to_N c)%N.
Proof.
  pose proof (Byte.to_N_bounded a). pose proof (Byte.to_N_bounded b).
  pose proof (Byte.to_N_bounded c).
  assert (Hb : N.shiftl (Byte.to_N b) 8 = (Byte.to_N b * 256)%N)
    by (rewrite N.shiftl_mul_pow2; reflexivity).
  assert (Hinner : N.lor (N.shiftl (Byte.to_N a) 16) (N.shiftl (Byte.to_N b) 8)
                   = N.shiftl (Byte.to_N a * 256 + Byte.to_N b) 8).
  { rewrite lor_low_is_add by (rewrite Hb; change (2 ^ 16)%N with 65536%N; lia).
    rewrite Hb, N.shiftl_mul_pow2.
    change (2 ^ 16)%N with 65536%N. change (2 ^ 8)%N with 256%N. lia. }
  rewrite Hinner. rewrite lor_low_is_add by (change (2 ^ 8)%N with 256%N; lia).
  change (2 ^ 8)%N with 256%N. lia.
Qed.

Lemma to_N_inj a b : Byte.to_N a = Byte.to_N b -> a = b.
Proof.
  intros H. pose proof (Byte.of_to_N a) as Ha. rewrite H, Byte.of_to_N in Ha. congruence.
Qed.

Lemma sextet_eq_mod x y k :
  sextet (N.shiftr x k) = sextet (N.shiftr y k) -> ((x / 2 ^ k) mod 64 = (y / 2 ^ k) mod 64)%N.
Proof.
  intros H. apply sextet_inj in H. change 63%N with (N.ones 6) in H.
  rewrite !N.land_ones, !N.shiftr_div_pow2 in H. exact H.
Qed.

Lemma sextets_determine x y :
  (x < 16777216)%N -> (y < 16777216)%N ->
  ((x / 262144) mod 64 = (y / 262144) mod 64)%N ->
  ((x / 4096) mod 64 = (y / 4096) mod 64)%N ->
  ((x / 64) mod 64 = (y / 64) mod 64)%N ->
  ((x / 1) mod 64 = (y / 1) mod 64)%N ->
  x = y.
Proof.
  intros Hx Hy H18 H12 H6 H0.
  apply N2Z.inj. apply (f_equal Z.of_N) in H18, H12, H6, H0.
  rewrite !N2Z.inj_mod, !N2Z.inj_div in H18, H12, H6, H0.
  apply N2Z.inj_lt in Hx, Hy.
  pose proof (N2Z.is_nonneg x). pose proof (N2Z.is_nonneg y).
  change (Z.of_N 16777216) with 16777216%Z in *.
  change (Z.of_N 262144) with 262144%Z in *. change (Z.of_N 4096) with 4096%Z in *.
  change (Z.of_N 64) with 64%Z in *. change (Z.of_N 1) with 1%Z in *.
  generalize dependent (Z.of_N x). generalize dependent (Z.of_N y). clear.
  intros y Hy0 Hy x Hx0 Hx H18 H12 H6 H0.
  Z.div_mod_to_equations. lia.
Qed.

Lemma multiple_of_64 m : ((m * 64) mod 64 = 0)%N.
Proof. apply N.Div0.mod_mul. Qed.

Lemma first_sextets_determine x y :
  (x < 16777216)%N -> (y < 16777216)%N ->
  sextet (N.shiftr x 18) = sextet (N.shiftr y 18) ->
  sextet (N.shiftr x 12) = sextet (N.shiftr y 12) ->
  ((x / 64) mod 64 = (y / 64) mod 64)%N ->
  (x mod 64 = y mod 64)%N ->
  x = y.
Proof.
  intros Hx Hy H18 H12 H6 H0.
  apply sextet_eq_mod in H18, H12.
  apply sextets_determine; auto.
  rewrite !N.div_1_r. exact H0.
Qed.

(** generateToken is injective: two buffers of random bytes give the same
    token only if they are the same buffer. *)
Theorem EncodeToString_injective (a b : list byte) :
  EncodeToString a = EncodeToString b -> a = b.
Proof.
  revert b. induction a as [| a0 | a0 a1 | a0 a1 a2 rest IH] using bytes_ind3; intros b H.
  - destruct b as [|b0 [|b1 [|b2 more]]]; [reflexivity| | |];
      try rewrite EncodeToString_group in H; cbn in H; discriminate H.
  - destruct b as [|b0 [|b1 [|b2 more]]].
    + discriminate H.
    + cbn [EncodeToString] in H. injection H as H18 H12.
      pose proof (Byte.to_N_bounded a0). pose proof (Byte.to_N_bounded b0).
      rewrite !N.shiftl_mul_pow2 in H18, H12. change (2 ^ 16)%N with 65536%N in *.
      assert (Heq : (Byte.to_N a0 * 65536 = Byte.to_N b0 * 65536)%N).
      { apply first_sextets_determine; try lia; try assumption.
        - replace (Byte.to_N a0 * 65536)%N with (Byte.to_N a0 * 16 * 64 * 64)%N by lia.
          replace (Byte.to_N b0 * 65536)%N with (Byte.to_N b0 * 16 * 64 * 64)%N by lia.
          rewrite !N.div_mul by discriminate. rewrite !multiple_of_64. reflexivity.
        - replace (Byte.to_N a0 * 65536)%N with (Byte.to_N a0 * 1024 * 64)%N by lia.
          replace (Byte.to_N b0 * 65536)%N with (Byte.to_N b0 * 1024 * 64)%N by lia.
          rewrite !multiple_of_64. reflexivity. }
      f_equal. apply to_N_inj. lia.
    + cbn [EncodeToString] in H. injection H as _ _ Hpad.
      exfalso. symmetry in Hpad. exact (sextet_not_padding _ Hpad).
    + rewrite EncodeToString_group in H. cbn [EncodeToString] in H. cbv zeta in H.
      injection H as _ _ Hpad. exfalso. symmetry in Hpad. exact (sextet_not_padding _ Hpad).
  - destruct b as [|b0 [|b1 [|b2 more]]].
    + discriminate H.
    + cbn [EncodeToString] in H. injection H as _ _ Hpad.
      exfalso. exact (sextet_not_padding _ Hpad).
    + cbn [EncodeToString] in H. injection H as H18 H12 H6.
      pose proof (Byte.to_N_bounded a0). pose proof (Byte.to_N_bounded b0).
      pose proof (Byte.to_N_bounded a1). pose proof (Byte.to_N_bounded b1).
      pose proof (group_value a0 a1 x00) as Ga. pose proof (group_value b0 b1 x00) as Gb.
      change (Byte.to_N x00) with 0%N in Ga, Gb. rewrite N.lor_0_r, N.add_0_r in Ga, Gb.
      rewrite Ga, Gb in H18, H12, H6.
      assert (Heq : (Byte.to_N a0 * 65536 + Byte.to_N a1 * 256
                     = Byte.to_N b0 * 65536 + Byte.to_N b1 * 256)%N).
      { apply first_sextets_determine; try lia; try assumption.
        - apply sextet_eq_mod in H6. change (2 ^ 6)%N with 64%N in H6. exact H6.
        - replace (Byte.to_N a0 * 65536 + Byte.to_N a1 * 256)%N
            with ((Byte.to_N a0 * 1024 + Byte.to_N a1 * 4) * 64)%N by lia.
          replace (Byte.to_N b0 * 65536 + Byte.to_N b1 * 256)%N
            with ((Byte.to_N b0 * 1024 + Byte.to_N b1 * 4) * 64)%N by lia.
          rewrite !multiple_of_64. reflexivity. }
      assert (Byte.to_N a0 = Byte.to_N b0) by lia.
      assert (Byte.to_N a1 = Byte.to_N b1) by lia.
      f_equal; [|f_equal]; apply to_N_inj; assumption.
    + rewrite EncodeToString_group in H. cbn [EncodeToString] in H. cbv zeta in H.
      injection H as _ _ _ Hpad. exfalso. symmetry in Hpad.
      exact (sextet_not_padding _ Hpad).
  - destruct b as [|b0 [|b1 [|b2 more]]]; rewrite EncodeToString_group in H; cbv zeta in H.
    + discriminate H.
    + cbn [EncodeToString] in H. injection H as _ _ Hpad.
      exfalso. exact (sextet_not_padding _ Hpad).
    + cbn [EncodeToString] in H. injection H as _ _ _ Hpad.
      exfalso. exact (sextet_not_padding _ Hpad).
    + rewrite EncodeToString_group in H. cbv zeta in H.
      injection H as H18 H12 H6 H0 Hrest.
      rewrite !group_value in H18, H12, H6, H0.
      pose proof (Byte.to_N_bounded a0). pose proof (Byte.to_N_bounded b0).
      pose proof (Byte.to_N_bounded a1). pose proof (Byte.to_N_bounded b1).
      pose proof (Byte.to_N_bounded a2). pose proof (Byte.to_N_bounded b2).
      assert (Heq : (Byte.to_N a0 * 65536 + Byte.to_N a1 * 256 + Byte.to_N a2
                     = Byte.to_N b0 * 65536 + Byte.to_N b1 * 256 + Byte.to_N b2)%N).
      { apply first_sextets_determine; try lia; try assumption.
        - apply sextet_eq_mod in H6. change (2 ^ 6)%N with 64%N in H6. exact H6.
        - apply sextet_inj in H0. change 63%N with (N.ones 6) in H0.
          rewrite !N.land_ones in H0. exact H0. }
      assert (Byte.to_N a0 = Byte.to_N b0) by lia.
      assert (Byte.to_N a1 = Byte.to_N b1) by lia.
      assert (Byte.to_N a2 = Byte.to_N b2) by lia.
      rewrite (IH more Hrest).
      f_equal; [|f_equal; [|f_equal]]; apply to_N_inj; assumption.
Qed.

Lemma EncodeToString_injective_witness :
  EncodeToString [x01; x02] = EncodeToString [x01; x02] /\ [x01; x02] = [x01; x02].
Proof.
  split; [reflexivity | apply (EncodeToString_injective [x01; x02] [x01; x02]); reflexivity].
Defined.

End EncodingLaws.

(** * The Authorization header that GetSessionToken accepts *)

Module BearerLaws.
Import Auth Text TokenSpec EncodingLaws.

Lemma Split_nonempty s sep : Split s sep <> [].
Proof.
  destruct s as [|c s]; cbn; [discriminate|].
  destruct (Ascii.eqb c sep); [discriminate|].
  destruct (Split s sep); discriminate.
Qed.

Lemma Split_single s sep p :
  Split s sep = [p] <-> s = p /\ has_char sep s = false.
Proof.
  revert p. induction s as [|c s IH]; intros p; cbn.
  - split; [intros [= <-]; auto | intros [<- _]; reflexivity].
  - destruct (Ascii.eqb c sep) eqn:E; cbn.
    + split; [|intros [_ H]; discriminate H].
      intros [= _ H]. exfalso. exact (Split_nonempty _ _ H).
    + destruct (Split s sep) as [|q qs] eqn:Es.
      * exfalso. exact (Split_nonempty _ _ Es).
      * split.
        -- intros [= <- ->]. destruct (proj1 (IH q) eq_refl) as [-> Hq]. auto.
        -- intros [<- Hs]. pose proof (proj2 (IH s) (conj eq_refl Hs)) as Hq.
           injection Hq as -> ->. reflexivity.
Qed.

Lemma Split_two s sep p0 p1 :
  Split s sep = [p0; p1] <->
  s = p0 ++ String sep p1 /\ has_char sep p0 = false /\ has_char sep p1 = false.
Proof.
  revert p0. induction s as [|c s IH]; intros p0; cbn.
  - split; [discriminate|]. intros [H _]. destruct p0; discriminate H.
  - destruct (Ascii.eqb c sep) eqn:E.
    + apply Ascii.eqb_eq in E. subst c. split.
      * intros [= <- H]. apply Split_single in H as [-> Hs]. auto.
      * intros (H & H0 & H1). destruct p0 as [|a p0].
        -- cbn in H. injection H as ->. f_equal. apply Split_single. auto.
        -- cbn in H. injection H as <- _. cbn in H0. rewrite Ascii.eqb_refl in H0.
           discriminate H0.
    + destruct (Split s sep) as [|q qs] eqn:Es.
      * exfalso. exact (Split_nonempty _ _ Es).
      * split.
        -- intros [= <- ->]. destruct (proj1 (IH q) eq_refl) as (-> & Hq & H1).
           cbn. rewrite E, Hq. auto.
        -- intros (H & H0 & H1). destruct p0 as [|a p0].
           ++ cbn in H. injection H as -> _. rewrite Ascii.eqb_refl in E. discriminate E.
           ++ cbn in H. injection H as <- ->. cbn in H0.
              apply orb_false_iff in H0 as [_ H0].
              pose proof (proj2 (IH p0) (conj eq_refl (conj H0 H1))) as Hq.
              injection Hq as -> ->. reflexivity.
Qed.

Lemma bearer_accepted r t :
  carriesSessionCookie r = false ->
  HeaderGet (Header r) "Authorization" = "Bearer " ++ t -> has_char " " t = false ->
  GetSessionToken r = Ok t.
Proof.
  intros Hno Hv Ht. rewrite (GetSessionToken_no_cookie r Hno). cbv zeta. rewrite Hv.
  assert (Hs : Split ("Bearer " ++ t) " "%char = ["Bearer"; t]).
  { apply Split_two. split; [reflexivity|]. split; [reflexivity|exact Ht]. }
  rewrite Hs. reflexivity.
Qed.

(** Without the session cookie, a token comes out exactly when the value of
    the Authorization header is [Bearer], one space, and the token, and the
    token holds no space: the scheme is matched by case, nothing is trimmed,
    and the empty token after the space is returned like any other.  Every
    other non-empty value is InvalidAuthType.  A token that generateToken
    made comes back as it is. *)
Theorem GetSessionToken_bearer_form (r : Request) (token : string) :
  carriesSessionCookie r = false ->
  (GetSessionToken r = Ok token <->
     HeaderGet (Header r) "Authorization" = "Bearer " ++ token /\
     has_char " " token = false) /\
  (GetSessionToken r = Err ErrInvalidAuthType <->
     HeaderGet (Header r) "Authorization" <> "" /\
     forall t, has_char " " t = false ->
               HeaderGet (Header r) "Authorization" <> "Bearer " ++ t) /\
  (forall entropy,
     HeaderGet (Header r) "Authorization" = "Bearer " ++ generateToken entropy ->
     GetSessionToken r = Ok (generateToken entropy)).
Proof.
  intros Hno.
  enough (Hmain :
    (GetSessionToken r = Ok token <->
       HeaderGet (Header r) "Authorization" = "Bearer " ++ token /\
       has_char " " token = false) /\
    (GetSessionToken r = Err ErrInvalidAuthType <->
       HeaderGet (Header r) "Authorization" <> "" /\
       forall t, has_char " " t = false ->
                 HeaderGet (Header r) "Authorization" <> "Bearer " ++ t)).
  { destruct Hmain as (H1 & H2). split; [exact H1|]. split; [exact H2|].
    intros entropy Hv. apply bearer_accepted; [exact Hno|exact Hv|].
    apply generateToken_no_space. }
  rewrite (GetSessionToken_no_cookie r Hno). cbv zeta.
  set (v := HeaderGet (Header r) "Authorization").
  assert (Hform : forall t, Split v " "%char = ["Bearer"; t] <->
                            v = "Bearer " ++ t /\ has_char " " t = false).
  { intros t. rewrite Split_two. split.
    - intros (H & _ & Ht). split; [exact H|exact Ht].
    - intros (H & Ht). split; [exact H|]. split; [reflexivity|exact Ht]. }
  destruct (String.eqb v "") eqn:E.
  { apply String.eqb_eq in E. split.
    - split; [discriminate|]. intros [H _]. rewrite E in H. discriminate H.
    - split; [discriminate|]. intros [H _]. contradiction. }
  apply String.eqb_neq in E.
  destruct (Split v " "%char) as [|p0 [|p1 [|p2 ps]]] eqn:Es.
  - exfalso. exact (Split_nonempty _ _ Es).
  - split.
    + split; [discriminate|]. intros H. apply (proj2 (Hform _)) in H. discriminate H.
    + split; [|reflexivity]. intros _. split; [exact E|].
      intros t Ht Hv. assert (H : [p0] = ["Bearer"; t]) by (apply (proj2 (Hform _)); auto).
      discriminate H.
  - destruct (String.eqb p0 "Bearer") eqn:Eb.
    + apply String.eqb_eq in Eb. subst p0. split.
      * split.
        -- intros [= ->]. apply (proj1 (Hform _)). reflexivity.
        -- intros H. apply (proj2 (Hform _)) in H. injection H as ->. reflexivity.
      * split; [discriminate|]. intros [_ H]. exfalso.
        destruct (proj1 (Hform p1) eq_refl) as [Hv Ht]. exact (H p1 Ht Hv).
    + apply String.eqb_neq in Eb. split.
      * split; [discriminate|]. intros H. apply (proj2 (Hform _)) in H. congruence.
      * split; [|reflexivity]. intros _. split; [exact E|].
        intros t Ht Hv. assert (H : [p0; p1] = ["Bearer"; t]) by (apply (proj2 (Hform _)); auto).
        congruence.
  - split.
    + split; [discriminate|]. intros H. apply (proj2 (Hform _)) in H. discriminate H.
    + split; [|reflexivity]. intros _. split; [exact E|].
      intros t Ht Hv.
      assert (H : p0 :: p1 :: p2 :: ps = ["Bearer"; t]) by (apply (proj2 (Hform _)); auto).
      discriminate H.
Qed.

Lemma GetSessionToken_bearer_form_witness :
  GetSessionToken (mkRequest [] {["Authorization" := ["Bearer "]]}) = Ok "" /\
  GetSessionToken (mkRequest [] {["Authorization" := ["bearer abc"]]})
    = Err ErrInvalidAuthType.
Proof.
  split.
  - refine (proj2 (proj1 (GetSessionToken_bearer_form
                            (mkRequest [] {["Authorization" := ["Bearer "]]}) "" _)) _).
    + reflexivity.
    + vm_compute. split; reflexivity.
  - refine (proj2 (proj1 (proj2 (GetSessionToken_bearer_form
                            (mkRequest [] {["Authorization" := ["bearer abc"]]}) "" _))) _).
    + reflexivity.
    + split; [vm_compute; discriminate|]. intros t _ H. vm_compute in H. discriminate H.
Defined.

End BearerLaws.

(** * Granting and revoking roles *)

Module RoleLaws.
Import Models DB Schema Scenario RBACSpec.

Lemma HasPermission_answers st userID permissionName :
  exists answer, HasPermission st userID permissionName = Ok answer.
Proof. unfold HasPermission. eauto. Qed.

Lemma HasPermission_eq st st' u u' p :
  (HasPermission st' u' p = Ok true <-> HasPermission st u p = Ok true) ->
  HasPermission st' u' p = HasPermission st u p.
Proof.
  destruct (HasPermission_answers st u p) as [b Hb].
  destruct (HasPermission_answers st' u' p) as [b' Hb'].
  rewrite Hb, Hb'. intros [H1 H2].
  destruct b, b'; try reflexivity.
  - discriminate (H2 eq_refl).
  - discriminate (H1 eq_refl).
Qed.

(* The permissions a user id has through a role id. *)
Lemma HasPermission_through st userID permissionName :
  HasPermission st userID permissionName = Ok true <->
  exists ur perm, In ur (user_roles st) /\ ur_user_id ur = userID /\
                  In perm (permissionSet st (ur_role_id ur)) /\
                  PermName perm = permissionName.
Proof.
  rewrite HasPermission_true. split.
  - intros [[[ur rp] p] H]. apply permission_join_In in H as (Hur & Hrp & Hp & H1 & H2 & H3 & H4).
    exists ur, (mkPermission (p_id p) (p_name p) (p_resource p) (p_action p) (p_description p)).
    split; [exact Hur|]. split; [exact H3|]. split; [|exact H4].
    apply permissionSet_In. exists p, rp. repeat split; auto.
  - intros (ur & perm & Hur & Hu & Hperm & Hn).
    apply permissionSet_In in Hperm as (p & rp & Hp & Hrp & H1 & H2 & ->).
    exists (ur, rp, p). apply permission_join_In. repeat split; auto.
Qed.

Lemma permissionSet_catalog st st' roleID :
  permissions st' = permissions st -> role_permissions st' = role_permissions st ->
  permissionSet st' roleID = permissionSet st roleID.
Proof.
  intros Hp Hrp. unfold permissionSet, GetRolePermissions. rewrite Hp, Hrp. reflexivity.
Qed.

Lemma same_pair_spec userID roleID ur :
  same_pair userID roleID ur = true <-> ur_user_id ur = userID /\ ur_role_id ur = roleID.
Proof.
  unfold same_pair. rewrite andb_true_iff, !Z.eqb_eq. reflexivity.
Qed.

Lemma delete_user_role_In st userID roleID ur :
  In ur (user_roles (delete_user_role st userID roleID)) <->
  In ur (user_roles st) /\ ~ (ur_user_id ur = userID /\ ur_role_id ur = roleID).
Proof.
  cbn [delete_user_role user_roles]. rewrite filter_In, negb_true_iff.
  rewrite <- same_pair_spec. destruct (same_pair userID roleID ur); intuition congruence.
Qed.

Lemma insert_or_replace_In st userID roleID assignedBy ur :
  In ur (user_roles (insert_or_replace_user_role st userID roleID assignedBy)) <->
  (In ur (user_roles st) /\ ~ (ur_user_id ur = userID /\ ur_role_id ur = roleID)) \/
  ur = mkUserRoleRow (next_rowid (seq_user_roles st) (map ur_id (user_roles st)))
                     userID roleID assignedBy.
Proof.
  cbn [insert_or_replace_user_role user_roles]. rewrite in_app_iff, filter_In, negb_true_iff.
  rewrite <- same_pair_spec. cbn [In].
  destruct (same_pair userID roleID ur); intuition congruence.
Qed.

(** What an AssignRole that returns without error does to the answers of
    HasPermission: the user gains exactly the permissions of the assigned
    role, nobody loses one, and the answers for every other user id are as
    before, whether or not the user id or the role id exists. *)
Theorem AssignRole_grants_the_role_permissions
    (st st' : Store) (userID roleID : Z) (assignedBy : option Z) :
  AssignRole st userID roleID assignedBy = Ok st' ->
  (forall p, HasPermission st' userID p = Ok true <->
     HasPermission st userID p = Ok true \/
     exists perm, In perm (permissionSet st roleID) /\ PermName perm = p) /\
  (forall u p, HasPermission st u p = Ok true -> HasPermission st' u p = Ok true) /\
  (forall u p, u <> userID -> HasPermission st' u p = HasPermission st u p).
Proof.
  intros Hassign. unfold AssignRole in Hassign. injection Hassign as <-.
  set (st' := insert_or_replace_user_role st userID roleID assignedBy).
  assert (Hset : forall r, permissionSet st' r = permissionSet st r)
    by (intros r; apply permissionSet_catalog; reflexivity).
  assert (Hkeep : forall u p, HasPermission st u p = Ok true -> HasPermission st' u p = Ok true).
  { intros u p H. apply HasPermission_through in H as (ur & perm & Hur & Hu & Hperm & Hn).
    apply HasPermission_through.
    destruct (same_pair userID roleID ur) eqn:E.
    - apply same_pair_spec in E as [Eu Er].
      exists (mkUserRoleRow (next_rowid (seq_user_roles st) (map ur_id (user_roles st)))
                            userID roleID assignedBy), perm.
      split; [apply insert_or_replace_In; right; reflexivity|].
      cbn [ur_user_id ur_role_id]. split; [congruence|]. split; [|exact Hn].
      rewrite Hset, <- Er. exact Hperm.
    - exists ur, perm. split.
      + apply insert_or_replace_In. left. split; [exact Hur|].
        intros Hc. apply same_pair_spec in Hc. congruence.
      + split; [exact Hu|]. split; [|exact Hn]. rewrite Hset. exact Hperm. }
  split; [|split; [exact Hkeep|]].
  - intros p. split.
    + intros H. apply HasPermission_through in H as (ur & perm & Hur & Hu & Hperm & Hn).
      rewrite Hset in Hperm.
      apply insert_or_replace_In in Hur as [[Hur _]| ->].
      * left. apply HasPermission_through. exists ur, perm. auto.
      * right. exists perm. auto.
    + intros [H|(perm & Hperm & Hn)]; [apply Hkeep; exact H|].
      apply HasPermission_through.
      exists (mkUserRoleRow (next_rowid (seq_user_roles st) (map ur_id (user_roles st)))
                            userID roleID assignedBy), perm.
      split; [apply insert_or_replace_In; right; reflexivity|].
      cbn [ur_user_id ur_role_id]. rewrite Hset. auto.
  - intros u p Hne. apply HasPermission_eq. split; [|apply Hkeep].
    intros H. apply HasPermission_through in H as (ur & perm & Hur & Hu & Hperm & Hn).
    rewrite Hset in Hperm. apply HasPermission_through.
    apply insert_or_replace_In in Hur as [[Hur _]| ->].
    + exists ur, perm. auto.
    + cbn in Hu. congruence.
Qed.

Lemma AssignRole_grants_the_role_permissions_witness :
  let st := two_users_restarted in
  let st' := insert_or_replace_user_role st 2 1 (Some 1) in
  HasPermission st' 2 "manage_roles" = Ok true /\
  HasPermission st' 1 "delete_pdf" = HasPermission st 1 "delete_pdf".
Proof.
  intros st st'.
  destruct (AssignRole_grants_the_role_permissions st st' 2 1 (Some 1) eq_refl)
    as (Hgain & _ & Hothers).
  split.
  - apply Hgain. right.
    exists (mkPermission 6 "manage_roles" "role" "manage" "Manage user roles").
    split; [|reflexivity]. vm_compute. tauto.
  - apply Hothers. discriminate.
Defined.

(** What a RemoveRole that returns without error does: the pair has no
    assignment left, the rows of every other pair and all other tables and
    counters stay, and a second call or a call for a pair that is not
    assigned changes nothing.  For HasPermission: the user keeps exactly
    the permissions that another of their roles gives, and the answers for
    every other user id are as before. *)
Theorem RemoveRole_revokes_only_that_role (st st' : Store) (userID roleID : Z) :
  RemoveRole st userID roleID = Ok st' ->
  assignmentsOf st' userID roleID = [] /\
  (forall u r, (u, r) <> (userID, roleID) -> assignmentsOf st' u r = assignmentsOf st u r) /\
  (users st' = users st /\ roles st' = roles st /\ permissions st' = permissions st /\
   role_permissions st' = role_permissions st /\ seq_user_roles st' = seq_user_roles st) /\
  (forall st'', RemoveRole st' userID roleID = Ok st'' -> st'' = st') /\
  (assignmentsOf st userID roleID = [] -> st' = st) /\
  (forall p, HasPermission st' userID p = Ok true <->
     exists ur perm, In ur (user_roles st) /\ ur_user_id ur = userID /\
                     ur_role_id ur <> roleID /\
                     In perm (permissionSet st (ur_role_id ur)) /\ PermName perm = p) /\
  (forall u p, u <> userID -> HasPermission st' u p = HasPermission st u p).
Proof.
  intros Hremove. unfold RemoveRole in Hremove. injection Hremove as <-.
  set (st' := delete_user_role st userID roleID).
  assert (Hset : forall r, permissionSet st' r = permissionSet st r)
    by (intros r; apply permissionSet_catalog; reflexivity).
  assert (Hnone : assignmentsOf st' userID roleID = []).
  { unfold assignmentsOf. apply filter_nil_iff. intros ur Hin.
    apply delete_user_role_In in Hin as [_ Hn].
    destruct (same_pair userID roleID ur) eqn:E; [|reflexivity].
    apply same_pair_spec in E. contradiction. }
  assert (Hid : forall s, assignmentsOf s userID roleID = [] -> delete_user_role s userID roleID = s).
  { intros s H. unfold delete_user_role. destruct s; cbn in *. f_equal.
    apply filter_all. intros ur Hin. unfold assignmentsOf in H. cbn in H.
    rewrite filter_nil_iff in H. rewrite (H ur Hin). reflexivity. }
  split; [exact Hnone|]. split; [|split; [|split; [|split; [|split]]]].
  - intros u r Hne. unfold assignmentsOf. cbn [st' delete_user_role user_roles].
    apply filter_other_pair.
    destruct (u =? userID) eqn:Eu, (r =? roleID) eqn:Er; try reflexivity.
    apply Z.eqb_eq in Eu, Er. congruence.
  - repeat split; reflexivity.
  - intros st'' Hagain. unfold RemoveRole in Hagain. injection Hagain as <-.
    apply Hid. exact Hnone.
  - apply Hid.
  - intros p. rewrite HasPermission_through. split.
    + intros (ur & perm & Hur & Hu & Hperm & Hn). rewrite Hset in Hperm.
      apply delete_user_role_In in Hur as [Hur Hnot].
      exists ur, perm. repeat split; auto.
    + intros (ur & perm & Hur & Hu & Hr & Hperm & Hn).
      exists ur, perm. rewrite Hset. repeat split; auto.
      apply delete_user_role_In. split; [exact Hur|]. intros [_ Hc]. contradiction.
  - intros u p Hne. apply HasPermission_eq. rewrite !HasPermission_through. split.
    + intros (ur & perm & Hur & Hu & Hperm & Hn). rewrite Hset in Hperm.
      apply delete_user_role_In in Hur as [Hur _]. exists ur, perm. auto.
    + intros (ur & perm & Hur & Hu & Hperm & Hn). exists ur, perm. rewrite Hset.
      repeat split; auto. apply delete_user_role_In. split; [exact Hur|].
      intros [Hc _]. congruence.
Qed.

Lemma RemoveRole_revokes_only_that_role_witness :
  let st := two_users_restarted in
  let st' := delete_user_role st 1 1 in
  assignmentsOf st' 1 1 = [] /\
  HasPermission st' 2 "view_pdf" = HasPermission st 2 "view_pdf".
Proof.
  intros st st'.
  destruct (RemoveRole_revokes_only_that_role st st' 1 1 eq_refl)
    as (Hnone & _ & _ & _ & _ & _ & Hothers).
  split; [exact Hnone|]. apply Hothers. discriminate.
Defined.

(** RemoveRole undoes AssignRole: removing a role right after assigning it
    leaves the rows that removing alone leaves, which are the rows from
    before when the pair was not assigned; the rowid counter of the table
    has moved on, so the id of the row that came and went is not used again. *)
Theorem RemoveRole_after_AssignRole
    (st : Store) (userID roleID : Z) (assignedBy : option Z) :
  exists st1 st2 st0,
    AssignRole st userID roleID assignedBy = Ok st1 /\
    RemoveRole st1 userID roleID = Ok st2 /\
    RemoveRole st userID roleID = Ok st0 /\
    same_tables st0 st2 /\
    (assignmentsOf st userID roleID = [] -> same_tables st st2) /\
    seq_user_roles st < seq_user_roles st2 /\
    (forall ur, In ur (user_roles st) -> ur_id ur < seq_user_roles st2).
Proof.
  exists (insert_or_replace_user_role st userID roleID assignedBy),
         (delete_user_role (insert_or_replace_user_role st userID roleID assignedBy)
                           userID roleID),
         (delete_user_role st userID roleID).
  split; [reflexivity|]. split; [reflexivity|]. split; [reflexivity|].
  assert (Hrows : user_roles (delete_user_role
                                (insert_or_replace_user_role st userID roleID assignedBy)
                                userID roleID)
                  = user_roles (delete_user_role st userID roleID)).
  { cbn [delete_user_role insert_or_replace_user_role user_roles].
    rewrite List.filter_app. cbn [List.filter].
    assert (Hrow : same_pair userID roleID
                     (mkUserRoleRow (next_rowid (seq_user_roles st)
                                       (map ur_id (user_roles st)))
                                    userID roleID assignedBy) = true)
      by (apply same_pair_spec; auto).
    rewrite Hrow. cbn [negb]. rewrite app_nil_r.
    apply filter_all. intros ur Hin. apply filter_In in Hin as [_ H]. exact H. }
  split; [|split; [|split]].
  - repeat split; try reflexivity. exact Hrows.
  - intros Hnone. repeat split; try reflexivity. rewrite Hrows.
    cbn [delete_user_role user_roles]. apply filter_all. intros ur Hin.
    unfold assignmentsOf in Hnone. rewrite filter_nil_iff in Hnone.
    rewrite (Hnone ur Hin). reflexivity.
  - cbn [delete_user_role insert_or_replace_user_role seq_user_roles].
    unfold next_rowid.
    assert (H : forall l s, s <= fold_right Z.max s l) by (induction l; cbn; intros; [lia|specialize (IHl s); lia]).
    specialize (H (map ur_id (user_roles st)) (seq_user_roles st)). lia.
  - intros ur Hin. cbn [delete_user_role insert_or_replace_user_role seq_user_roles].
    apply next_rowid_above. apply in_map. exact Hin.
Qed.

End RoleLaws.

(** * Properties of every store that the data layer can reach *)

Module HistoryLaws.
Import Models DB Schema Invariants History RBACSpec RoleLaws.

Section Reach.

Variable scan : list UserRow -> list UserRow.

Lemma replay_snoc cmds c :
  replay scan (cmds ++ [c])%list = exec scan (replay scan cmds) c.
Proof. unfold replay. rewrite fold_left_app. reflexivity. Qed.

Lemma CreateUser_Ok st username email passwordHash st' :
  CreateUser st username email passwordHash = Ok st' ->
  exists userRoleID,
    existsb (fun u => String.eqb (u_username u) username || String.eqb (u_email u) email)
            (users st) = false /\
    getRoleIDByName st "user" = Ok userRoleID /\
    existsb (same_pair (next_rowid (seq_users st) (map u_id (users st))) userRoleID)
            (user_roles st) = false /\
    st' = mkStore
            (users st ++ [mkUserRow (next_rowid (seq_users st) (map u_id (users st)))
                                    username email passwordHash])
            (roles st) (permissions st)
            (user_roles st ++
               [mkUserRoleRow (next_rowid (seq_user_roles st) (map ur_id (user_roles st)))
                              (next_rowid (seq_users st) (map u_id (users st)))
                              userRoleID None])
            (role_permissions st)
            (next_rowid (seq_users st) (map u_id (users st)))
            (seq_roles st) (seq_permissions st)
            (next_rowid (seq_user_roles st) (map ur_id (user_roles st)))
            (seq_role_permissions st).
Proof.
  unfold CreateUser. destruct (existsb _ (users st)) eqn:Eu; [discriminate|].
  destruct (getRoleIDByName st "user") as [userRoleID|e] eqn:Er; cbn [wrap rbind];
    [|discriminate].
  destruct (existsb _ (user_roles st)) eqn:Ea; [discriminate|].
  intros [= <-]. exists userRoleID. auto.
Qed.

Lemma exec_same_catalog st c :
  initialized st -> same_catalog st (exec scan st c).
Proof.
  intros Hinit. unfold exec. destruct c as [b|u e h|u r a|u r]; cbn [apply].
  - destruct (createTables b scan st) as [st'|] eqn:E; [|repeat split].
    destruct (createTables_rows _ _ _ _ E)
      as (st1 & uid & aid & added & promoted & H1 & _ & _ & _ & Hr & Hp & Hrp & _).
    destruct (initializeRBAC_again _ _ _ Hinit H1) as (_ & Hr1 & Hp1 & _ & Hrp1).
    unfold same_catalog. rewrite Hr, Hp, Hrp. auto.
  - destruct (CreateUser st u e h) as [st'|] eqn:E; [|repeat split].
    apply CreateUser_Ok in E as (id & _ & _ & _ & ->). repeat split.
  - repeat split.
  - repeat split.
Qed.

Lemma initialized_same_catalog st st' :
  same_catalog st st' -> initialized st -> initialized st'.
Proof. intros (H1 & H2 & H3). apply initialized_catalog; assumption. Qed.

Lemma first_start_catalog b :
  let st0 := exec scan empty_store (Start b) in
  initialized st0 /\
  exists st1, initializeRBAC b empty_store = Ok st1 /\ same_catalog st1 st0.
Proof.
  intros st0. subst st0. unfold exec. cbn [apply].
  destruct (createTables_succeeds b scan empty_store) as [st' E]. rewrite E.
  destruct (createTables_rows _ _ _ _ E)
    as (st1 & uid & aid & added & promoted & H1 & _ & _ & _ & Hr & Hp & Hrp & _).
  split.
  - apply (initialized_catalog st1); auto. apply (initializeRBAC_post b _ _ H1).
  - exists st1. split; [exact H1|]. repeat split; assumption.
Qed.

Lemma replay_catalog b cmds :
  initialized (replay scan (Start b :: cmds)) /\
  same_catalog (replay scan [Start b]) (replay scan (Start b :: cmds)).
Proof.
  induction cmds as [|c cmds IH] using rev_ind.
  - split; [apply (first_start_catalog b)|repeat split].
  - change (Start b :: (cmds ++ [c])%list) with ((Start b :: cmds) ++ [c])%list.
    rewrite replay_snoc. destruct IH as [Hinit (H1 & H2 & H3)].
    destruct (exec_same_catalog _ c Hinit) as (E1 & E2 & E3).
    split.
    + apply (initialized_same_catalog (replay scan (Start b :: cmds))); [|exact Hinit].
      repeat split; assumption.
    + unfold same_catalog. rewrite E1, E2, E3. auto.
Qed.

End Reach.

Lemma first_catalog_rows b st1 :
  initializeRBAC b empty_store = Ok st1 -> cataloged st1.
Proof.
  destruct b; vm_compute; intros [= <-]; (split; [reflexivity|]); (split; [reflexivity|]).
  - apply Permutation_refl.
  - change (Permutation ([(2, 2)] ++ [(1, 1); (1, 2); (1, 3); (1, 4); (1, 5); (1, 6)])%list
                        ([(1, 1); (1, 2); (1, 3); (1, 4); (1, 5); (1, 6)] ++ [(2, 2)])%list).
    apply Permutation_app_comm.
Qed.

Lemma cataloged_same_catalog st st' : same_catalog st st' -> cataloged st -> cataloged st'.
Proof.
  intros (H1 & H2 & H3) (C1 & C2 & C3). unfold cataloged. rewrite H1, H2, H3. auto.
Qed.

Lemma replay_cataloged scan b cmds : cataloged (replay scan (Start b :: cmds)).
Proof.
  destruct (replay_catalog scan b cmds) as [_ Hsame].
  destruct (first_start_catalog scan b) as [_ (st1 & H1 & Hsame1)].
  apply (cataloged_same_catalog _ _ Hsame).
  apply (cataloged_same_catalog _ _ Hsame1).
  apply (first_catalog_rows b). exact H1.
Qed.

(** The catalog of roles and permissions is fixed by the first start of the
    server: whatever registrations, grants, revocations and restarts come
    after it, the file holds the two roles [admin] (id 1) and [user] (id 2),
    the six permissions with ids 1 to 6, and the seven links that give
    [admin] every permission and [user] only [view_pdf]. *)
Theorem catalog_is_fixed_by_first_start
    (scan : list UserRow -> list UserRow) (b : bool) (cmds : list command) :
  let st := replay scan (Start b :: cmds) in
  roles st = [mkRoleRow 1 "admin" "System administrator with full access";
              mkRoleRow 2 "user" "Regular user with catalog access"] /\
  map (fun p => (p_id p, p_name p)) (permissions st) =
    [(1, "upload_pdf"); (2, "view_pdf"); (3, "edit_pdf"); (4, "delete_pdf");
     (5, "manage_users"); (6, "manage_roles")] /\
  Permutation (map (fun rp => (rp_role_id rp, rp_permission_id rp)) (role_permissions st))
              [(1, 1); (1, 2); (1, 3); (1, 4); (1, 5); (1, 6); (2, 2)] /\
  same_catalog (replay scan [Start b]) st.
Proof.
  intros st. subst st.
  destruct (replay_cataloged scan b cmds) as (Hr & Hp & Hrp).
  split; [exact Hr|]. split; [rewrite Hp; reflexivity|]. split; [exact Hrp|].
  apply replay_catalog.
Qed.

(* What the links of the catalog say, read through the names. *)
Lemma cataloged_permits st roleID p :
  cataloged st ->
  ((exists perm, In perm (permissionSet st roleID) /\ PermName perm = p) <->
   (exists r, In r (roles st) /\ r_id r = roleID /\ granted (r_name r) p = true)).
Proof.
  intros (Hr & Hp & Hrp). split.
  - intros (perm & Hin & Hn).
    apply permissionSet_In in Hin as (p0 & rp & Hp0 & Hrp0 & Hid & Hrole & ->).
    cbn [PermName] in Hn.
    assert (Hlink : In (link rp) (map link (role_permissions first_catalog))).
    { apply (Permutation_in _ Hrp). apply in_map. exact Hrp0. }
    assert (Hcheck :
      forallb (fun l =>
        forallb (fun p0 =>
          implb (p_id p0 =? snd l)
                (existsb (fun r => (r_id r =? fst l) && granted (r_name r) (p_name p0))
                         (roles first_catalog)))
          (permissions first_catalog))
        (map link (role_permissions first_catalog)) = true) by (vm_compute; reflexivity).
    rewrite forallb_forall in Hcheck. specialize (Hcheck _ Hlink).
    rewrite forallb_forall in Hcheck. rewrite Hp in Hp0. specialize (Hcheck _ Hp0).
    cbn [link fst snd] in Hcheck. rewrite Hid, Z.eqb_refl in Hcheck. cbn [implb] in Hcheck.
    apply existsb_exists in Hcheck as (r & Hin & Hc).
    apply andb_true_iff in Hc as [Hc1 Hc2]. apply Z.eqb_eq in Hc1.
    exists r. rewrite Hr. split; [exact Hin|]. split; [congruence|]. rewrite <- Hn. exact Hc2.
  - intros (r & Hin & Hid & Hg). rewrite Hr in Hin.
    unfold granted in Hg. apply existsb_exists in Hg as (entry & Hentry & Hg).
    apply andb_true_iff in Hg as [Hname Hperm].
    apply existsb_exists in Hperm as (nm & Hnm & Heq). apply String.eqb_eq in Heq. subst nm.
    assert (Hcheck :
      forallb (fun r =>
        forallb (fun entry =>
          implb (String.eqb (fst entry) (r_name r))
                (forallb (fun nm =>
                   existsb (fun p0 =>
                     String.eqb (p_name p0) nm &&
                     existsb (fun l => (fst l =? r_id r) && (snd l =? p_id p0))
                             (map link (role_permissions first_catalog)))
                     (permissions first_catalog))
                   (snd entry)))
          rolePermissions)
        (roles first_catalog) = true) by (vm_compute; reflexivity).
    rewrite forallb_forall in Hcheck. specialize (Hcheck _ Hin).
    rewrite forallb_forall in Hcheck. specialize (Hcheck _ Hentry).
    rewrite Hname in Hcheck. cbn [implb] in Hcheck.
    rewrite forallb_forall in Hcheck. specialize (Hcheck _ Hnm).
    apply existsb_exists in Hcheck as (p0 & Hp0 & Hc).
    apply andb_true_iff in Hc as [Hc1 Hc2]. apply String.eqb_eq in Hc1.
    apply existsb_exists in Hc2 as (l & Hl & Hc2).
    apply andb_true_iff in Hc2 as [Hl1 Hl2]. apply Z.eqb_eq in Hl1, Hl2.
    apply (Permutation_in _ (Permutation_sym Hrp)) in Hl.
    apply in_map_iff in Hl as (rp & <- & Hrp0). cbn [link fst snd] in Hl1, Hl2.
    exists (mkPermission (p_id p0) (p_name p0) (p_resource p0) (p_action p0)
                         (p_description p0)).
    split; [|exact Hc1]. apply permissionSet_In. exists p0, rp.
    rewrite Hp. repeat split; auto; congruence.
Qed.

Lemma cataloged_policy st u p :
  cataloged st ->
  HasPermission st u p = Ok (existsb (fun role => granted (RoleName role) p) (rolesOf st u)).
Proof.
  intros Hcat.
  destruct (HasPermission_answers st u p) as [answer Ha]. rewrite Ha. f_equal.
  assert (Hiff : HasPermission st u p = Ok true <->
                 existsb (fun role => granted (RoleName role) p) (rolesOf st u) = true).
  { rewrite HasPermission_through, existsb_exists. split.
    - intros (ur & perm & Hur & Hu & Hperm & Hn).
      destruct (proj1 (cataloged_permits st (ur_role_id ur) p Hcat)) as (r & Hr & Hid & Hg);
        [eauto|].
      exists (mkRole (r_id r) (r_name r) (r_description r) []). split; [|exact Hg].
      apply rolesOf_In. exists r, ur. auto.
    - intros (role & Hrole & Hg).
      apply rolesOf_In in Hrole as (r & ur & Hr & Hur & Hid & Hu & ->). cbn [RoleName] in Hg.
      destruct (proj2 (cataloged_permits st (r_id r) p Hcat)) as (perm & Hperm & Hn);
        [eauto|].
      exists ur, perm. rewrite <- Hid. auto. }
  rewrite Ha in Hiff.
  destruct answer, (existsb _ (rolesOf st u)); try reflexivity.
  - symmetry. apply Hiff. reflexivity.
  - assert (H : Ok false = @Ok error bool true) by (apply Hiff; reflexivity). discriminate H.
Qed.

Lemma granted_cases roleName p :
  granted roleName p = true <->
  (roleName = "admin" /\
   In p ["upload_pdf"; "view_pdf"; "edit_pdf"; "delete_pdf"; "manage_users"; "manage_roles"])
  \/ (roleName = "user" /\ p = "view_pdf").
Proof.
  unfold granted, rolePermissions. cbn [existsb fst snd].
  rewrite !orb_true_iff, !andb_true_iff, !orb_true_iff, !String.eqb_eq.
  cbn [In]. intuition (try discriminate; auto).
Qed.

(** The access matrix.  In every store that the data layer can reach from
    a new file, HasPermission answers true exactly when one of the roles
    that GetUserRoles reports for the user id is given the permission by the
    [rolePermissions] map of initializeRBAC: a holder of [admin] has the six
    permissions, a holder of [user] has [view_pdf], and nobody has anything
    else. *)
Theorem HasPermission_follows_rolePermissions
    (scan : list UserRow -> list UserRow) (b : bool) (cmds : list command)
    (userID : Z) (permissionName : string) :
  let st := replay scan (Start b :: cmds) in
  HasPermission st userID permissionName
    = Ok (existsb (fun role => granted (RoleName role) permissionName) (rolesOf st userID)) /\
  (HasPermission st userID permissionName = Ok true <->
     (holdsRole st userID "admin" = true /\
      In permissionName ["upload_pdf"; "view_pdf"; "edit_pdf"; "delete_pdf";
                         "manage_users"; "manage_roles"])
     \/ (holdsRole st userID "user" = true /\ permissionName = "view_pdf")).
Proof.
  intros st.
  assert (H : HasPermission st userID permissionName
              = Ok (existsb (fun role => granted (RoleName role) permissionName)
                            (rolesOf st userID)))
    by (apply cataloged_policy, replay_cataloged).
  split; [exact H|]. rewrite H. unfold holdsRole. split.
  - intros [= He]. apply existsb_exists in He as (role & Hin & Hg).
    apply granted_cases in Hg as [[Hn Hp]|[Hn Hp]].
    + left. split; [|exact Hp]. apply existsb_exists. exists role.
      split; [exact Hin|]. apply String.eqb_eq. exact Hn.
    + right. split; [|exact Hp]. apply existsb_exists. exists role.
      split; [exact Hin|]. apply String.eqb_eq. exact Hn.
  - intros Hc. f_equal. apply existsb_exists.
    destruct Hc as [[Hh Hp]|[Hh Hp]]; apply existsb_exists in Hh as (role & Hin & Hn);
      apply String.eqb_eq in Hn; exists role; (split; [exact Hin|]);
      apply granted_cases; auto.
Qed.

End HistoryLaws.

(** * The constraints of the schema in every reachable store *)

Module ConstraintLaws.
Import Models DB Schema Invariants History RBACSpec RoleLaws HistoryLaws.

Section Loop.
Context {A : Type}.
Variable body : Store -> A -> Result error Store.

Lemma forM_invariant (I : Store -> Prop) (l : list A) :
  (forall st x st', I st -> body st x = Ok st' -> I st') ->
  forall st st', I st -> forM l body st = Ok st' -> I st'.
Proof.
  intros Hbody. induction l as [|x l IH]; intros st st' HI Hrun.
  - injection Hrun as <-. exact HI.
  - cbn [forM] in Hrun. destruct (body st x) as [st1|e] eqn:Hx; [|discriminate].
    cbn [rbind] in Hrun. exact (IH st1 st' (Hbody _ _ _ HI Hx) Hrun).
Qed.

End Loop.

Lemma NoDup_map_filter {A B} (f : A -> B) (g : A -> bool) (l : list A) :
  List.NoDup (map f l) -> List.NoDup (map f (List.filter g l)).
Proof.
  induction l as [|a l IH]; cbn; [auto|]. intros H. inversion H as [|? ? Hn Hl]; subst.
  destruct (g a); [|auto]. cbn. constructor; [|auto].
  intros Hin. apply Hn. apply in_map_iff in Hin as (x & Hx & Hin).
  apply filter_In in Hin as [Hin _]. apply in_map_iff. eauto.
Qed.

Lemma existsb_false_all {A} (f : A -> bool) (l : list A) :
  existsb f l = false -> forall x, In x l -> f x = false.
Proof.
  intros H x Hin. destruct (f x) eqn:E; [|reflexivity].
  assert (Ht : existsb f l = true) by (apply existsb_exists; eauto). congruence.
Qed.

Lemma next_rowid_above_seq seq ids : seq < next_rowid seq ids.
Proof.
  unfold next_rowid. induction ids as [|i ids IH]; cbn; lia.
Qed.

(* What the accounts are: the two tables that initializeRBAC leaves alone,
   with their counters. *)
Lemma constrained_accounts st st' :
  users st' = users st -> user_roles st' = user_roles st ->
  seq_users st' = seq_users st -> seq_user_roles st' = seq_user_roles st ->
  constrained st -> constrained st'.
Proof.
  intros H1 H2 H3 H4.
  unfold constrained, pk_users, unique_usernames, unique_emails, pk_user_roles,
    unique_assignments, counters_cover.
  rewrite H1, H2, H3, H4. auto.
Qed.

Lemma insert_or_replace_constrained st userID roleID assignedBy :
  constrained st -> constrained (insert_or_replace_user_role st userID roleID assignedBy).
Proof.
  intros (K1 & K2 & K3 & K4 & K5 & K6 & K7).
  unfold constrained, pk_users, unique_usernames, unique_emails, pk_user_roles,
    unique_assignments, counters_cover.
  cbn [insert_or_replace_user_role users user_roles seq_users seq_user_roles].
  repeat (split; [assumption|]). rewrite !map_app. cbn [map ur_id ur_user_id ur_role_id].
  split; [|split; [|split]].
  - apply NoDup_snoc; [apply NoDup_map_filter; exact K4|].
    intros Hin. apply in_map_iff in Hin as (ur & Hid & Hin). apply filter_In in Hin as [Hin _].
    apply (next_rowid_fresh (seq_user_roles st) (map ur_id (user_roles st))).
    rewrite <- Hid. apply in_map. exact Hin.
  - apply NoDup_snoc; [apply NoDup_map_filter; exact K5|].
    intros Hin. apply in_map_iff in Hin as (ur & Hpair & Hin).
    apply filter_In in Hin as [_ Hc]. apply negb_true_iff in Hc.
    injection Hpair as Hu Hr.
    assert (Ht : same_pair userID roleID ur = true) by (apply same_pair_spec; auto).
    congruence.
  - exact K6.
  - intros ur Hin. apply in_app_iff in Hin as [Hin|[<-|[]]]; [|cbn; lia].
    apply filter_In in Hin as [Hin _].
    pose proof (next_rowid_above (seq_user_roles st) (map ur_id (user_roles st))
                  (ur_id ur) (in_map _ _ _ Hin)). lia.
Qed.

Lemma delete_user_role_constrained st userID roleID :
  constrained st -> constrained (delete_user_role st userID roleID).
Proof.
  intros (K1 & K2 & K3 & K4 & K5 & K6 & K7).
  unfold constrained, pk_users, unique_usernames, unique_emails, pk_user_roles,
    unique_assignments, counters_cover.
  cbn [delete_user_role users user_roles seq_users seq_user_roles].
  repeat (split; [assumption|]).
  split; [apply NoDup_map_filter; exact K4|].
  split; [apply NoDup_map_filter; exact K5|].
  split; [exact K6|]. intros ur Hin. apply filter_In in Hin as [Hin _]. auto.
Qed.

Lemma CreateUser_constrained st username email passwordHash st' :
  CreateUser st username email passwordHash = Ok st' -> constrained st -> constrained st'.
Proof.
  intros H (K1 & K2 & K3 & K4 & K5 & K6 & K7).
  apply CreateUser_Ok in H as (userRoleID & Hfree & _ & Hpair & ->).
  unfold constrained, pk_users, unique_usernames, unique_emails, pk_user_roles,
    unique_assignments, counters_cover.
  cbn [users user_roles seq_users seq_user_roles].
  rewrite !map_app. cbn [map u_id u_username u_email ur_id ur_user_id ur_role_id].
  assert (Hnone : forall u, In u (users st) ->
                    u_username u <> username /\ u_email u <> email).
  { intros u Hin. pose proof (existsb_false_all _ _ Hfree u Hin) as Hc. cbn beta in Hc.
    apply orb_false_iff in Hc as [H1 H2]. apply String.eqb_neq in H1, H2. auto. }
  split; [|split; [|split; [|split; [|split; [|split]]]]].
  - apply NoDup_snoc; [exact K1|]. apply next_rowid_fresh.
  - apply NoDup_snoc; [exact K2|]. intros Hin. apply in_map_iff in Hin as (u & Hu & Hin).
    apply (proj1 (Hnone u Hin)). exact Hu.
  - apply NoDup_snoc; [exact K3|]. intros Hin. apply in_map_iff in Hin as (u & Hu & Hin).
    apply (proj2 (Hnone u Hin)). exact Hu.
  - apply NoDup_snoc; [exact K4|]. apply next_rowid_fresh.
  - apply NoDup_snoc; [exact K5|]. intros Hin. apply in_map_iff in Hin as (ur & Hp & Hin).
    injection Hp as Hu Hr. pose proof (existsb_false_all _ _ Hpair ur Hin) as Hc.
    assert (Ht : same_pair (next_rowid (seq_users st) (map u_id (users st))) userRoleID ur
                 = true) by (apply same_pair_spec; auto).
    congruence.
  - intros u Hin. apply in_app_iff in Hin as [Hin|[<-|[]]]; [|cbn; lia].
    pose proof (next_rowid_above (seq_users st) (map u_id (users st))
                  (u_id u) (in_map _ _ _ Hin)). lia.
  - intros ur Hin. apply in_app_iff in Hin as [Hin|[<-|[]]]; [|cbn; lia].
    pose proof (next_rowid_above (seq_user_roles st) (map ur_id (user_roles st))
                  (ur_id ur) (in_map _ _ _ Hin)). lia.
Qed.

Lemma insert_or_ignore_role_accounts st name description :
  let st' := insert_or_ignore_role st name description in
  users st' = users st /\ user_roles st' = user_roles st /\
  seq_users st' = seq_users st /\ seq_user_roles st' = seq_user_roles st.
Proof. unfold insert_or_ignore_role. cbv zeta. destruct (existsb _ _); repeat split. Qed.

Lemma insert_or_ignore_permission_accounts st name resource action description :
  let st' := insert_or_ignore_permission st name resource action description in
  users st' = users st /\ user_roles st' = user_roles st /\
  seq_users st' = seq_users st /\ seq_user_roles st' = seq_user_roles st.
Proof. unfold insert_or_ignore_permission. cbv zeta. destruct (existsb _ _); repeat split. Qed.

Lemma insert_or_ignore_role_permission_accounts st roleID permID :
  let st' := insert_or_ignore_role_permission st roleID permID in
  users st' = users st /\ user_roles st' = user_roles st /\
  seq_users st' = seq_users st /\ seq_user_roles st' = seq_user_roles st.
Proof.
  unfold insert_or_ignore_role_permission. cbv zeta. destruct (existsb _ _); repeat split.
Qed.

Lemma initializeRBAC_constrained admin_first st st' :
  initializeRBAC admin_first st = Ok st' -> constrained st -> constrained st'.
Proof.
  unfold initializeRBAC. intros H.
  apply rbind_Ok in H as (st1 & H1 & H). apply rbind_Ok in H as (st2 & H2 & H3).
  intros K.
  apply (forM_invariant _ constrained) with (st := st) in H1; [|clear|exact K].
  2:{ intros s x s' Ks [= <-].
      destruct (insert_or_ignore_role_accounts s (fst x) (snd x)) as (E1 & E2 & E3 & E4).
      apply (constrained_accounts s); assumption. }
  apply (forM_invariant _ constrained) with (st := st1) in H2; [|clear|exact H1].
  2:{ intros s [[[name resource] action] description] s' Ks [= <-].
      destruct (insert_or_ignore_permission_accounts s name resource action description)
        as (E1 & E2 & E3 & E4).
      apply (constrained_accounts s); assumption. }
  apply (forM_invariant _ constrained) with (st := st2) in H3; [exact H3|clear|exact H2].
  intros s entry s' Ks Hb. cbv zeta in Hb.
  apply rbind_Ok in Hb as (roleID & _ & Hb).
  apply (forM_invariant _ constrained) with (st := s) in Hb; [exact Hb|clear|exact Ks].
  intros s0 permName s1 Ks0 Hb.
  apply rbind_Ok in Hb as (permID & _ & [= <-]).
  destruct (insert_or_ignore_role_permission_accounts s0 roleID permID)
    as (E1 & E2 & E3 & E4).
  apply (constrained_accounts s0); assumption.
Qed.

Lemma assignDefaultRoles_constrained scan st st' :
  assignDefaultRoles scan st = Ok st' -> constrained st -> constrained st'.
Proof.
  unfold assignDefaultRoles. cbv zeta. intros H K.
  apply rbind_Ok in H as (userRoleID & _ & H).
  apply rbind_Ok in H as (adminRoleID & _ & H).
  apply rbind_Ok in H as (mid & Hloop & H).
  apply (forM_invariant _ constrained) with (st := st) in Hloop; [|clear|exact K].
  2:{ intros s userID s' Ks Hb. cbn [GetUserRoles wrap rbind] in Hb.
      destruct (Nat.eqb _ 0).
      - rewrite AssignRole_Ok in Hb. cbn [wrap] in Hb. injection Hb as <-.
        apply insert_or_replace_constrained. exact Ks.
      - injection Hb as <-. exact Ks. }
  destruct (_ && _).
  - rewrite AssignRole_Ok in H. cbn [wrap] in H. injection H as <-.
    apply insert_or_replace_constrained. exact Hloop.
  - injection H as <-. exact Hloop.
Qed.

Lemma exec_constrained scan st c : constrained st -> constrained (exec scan st c).
Proof.
  intros K. unfold exec. destruct c as [b|u e h|u r a|u r]; cbn [apply].
  - destruct (createTables b scan st) as [st'|] eqn:E; [|exact K].
    apply createTables_Ok in E as (st1 & H1 & H2).
    eapply assignDefaultRoles_constrained; [exact H2|].
    eapply initializeRBAC_constrained; [exact H1|exact K].
  - destruct (CreateUser st u e h) as [st'|] eqn:E; [|exact K].
    eapply CreateUser_constrained; eauto.
  - apply insert_or_replace_constrained. exact K.
  - apply delete_user_role_constrained. exact K.
Qed.

Lemma empty_store_constrained : constrained empty_store.
Proof.
  unfold constrained, pk_users, unique_usernames, unique_emails, pk_user_roles,
    unique_assignments, counters_cover. cbn.
  repeat split; try constructor; intros ? [].
Qed.

Lemma replay_constrained scan cmds : constrained (replay scan cmds).
Proof.
  induction cmds as [|c cmds IH] using rev_ind; [apply empty_store_constrained|].
  rewrite replay_snoc. apply exec_constrained. exact IH.
Qed.

(** The UNIQUE and PRIMARY KEY constraints of [users] and [user_roles] hold
    in every store that the data layer reaches from a new file, and no
    rowid is above the AUTOINCREMENT counter of its table: ids are unique
    and are not used again after a row is deleted, a username or an email
    names at most one user, and a user holds a role through at most one
    assignment row. *)
Theorem reachable_store_keeps_constraints
    (scan : list UserRow -> list UserRow) (cmds : list command) :
  let st := replay scan cmds in
  pk_users st /\ unique_usernames st /\ unique_emails st /\
  pk_user_roles st /\ unique_assignments st /\ counters_cover st /\
  (forall userID roleID, (length (assignmentsOf st userID roleID) <= 1)%nat).
Proof.
  intros st. destruct (replay_constrained scan cmds) as (K1 & K2 & K3 & K4 & K5 & K6).
  fold st in K1, K2, K3, K4, K5, K6.
  repeat (split; [assumption|]).
  intros userID roleID. unfold assignmentsOf.
  unfold unique_assignments in K5. clear - K5.
  induction (user_roles st) as [|ur rows IH]; [cbn; lia|].
  cbn [map] in K5. inversion K5 as [|? ? Hn Hl]; subst. cbn [List.filter].
  destruct (same_pair userID roleID ur) eqn:E; [|auto].
  replace (List.filter (same_pair userID roleID) rows) with (@nil UserRoleRow); [cbn; lia|].
  symmetry. apply filter_nil_iff. intros ur' Hin.
  destruct (same_pair userID roleID ur') eqn:E'; [|reflexivity].
  exfalso. apply Hn. apply same_pair_spec in E as [E1 E2], E' as [E1' E2'].
  apply in_map_iff. exists ur'. split; [congruence|exact Hin].
Qed.

End ConstraintLaws.

(** * Registration in the data layer *)

Module AccountLaws.
Import Models DB Schema Invariants History Directory RBACSpec RoleLaws HistoryLaws
       ConstraintLaws.

Lemma find_snoc_None {A} (f : A -> bool) (l : list A) (x : A) :
  List.find f l = None -> List.find f (l ++ [x]) = if f x then Some x else None.
Proof. intros H. rewrite find_app_None by exact H. reflexivity. Qed.

Lemma find_snoc_other {A} (f : A -> bool) (l : list A) (x : A) :
  f x = false -> List.find f (l ++ [x]) = List.find f l.
Proof.
  intros H. destruct (List.find f l) as [y|] eqn:E.
  - apply find_app_Some. exact E.
  - rewrite find_app_None by exact E. cbn. rewrite H. reflexivity.
Qed.

Lemma rolesOf_snoc_other st st' row userID :
  roles st' = roles st -> user_roles st' = (user_roles st ++ [row])%list ->
  ur_user_id row <> userID -> rolesOf st' userID = rolesOf st userID.
Proof.
  intros Hr Hur Hne. unfold rolesOf, GetUserRoles. rewrite Hr, Hur.
  apply flat_map_ext. intros r. rewrite List.filter_app. cbn [List.filter].
  replace (ur_user_id row =? userID) with false by (symmetry; apply Z.eqb_neq; exact Hne).
  rewrite andb_false_r, app_nil_r. reflexivity.
Qed.

(* The id that the next row of [users] gets. *)
Lemma CreateUser_fails_or st username email passwordHash :
  CreateUser st username email passwordHash =
    if existsb (fun u => String.eqb (u_username u) username || String.eqb (u_email u) email)
               (users st)
    then Err ErrConstraint
    else match getRoleIDByName st "user" with
         | Err e => Err (Wrap "failed to get user role ID" e)
         | Ok userRoleID =>
             if existsb (same_pair (next_rowid (seq_users st) (map u_id (users st)))
                                   userRoleID) (user_roles st)
             then Err ErrConstraint
             else CreateUser st username email passwordHash
         end.
Proof.
  unfold CreateUser. destruct (existsb _ (users st)); [reflexivity|].
  destruct (getRoleIDByName st "user"); cbn [wrap rbind]; [|reflexivity].
  destruct (existsb _ (user_roles st)); reflexivity.
Qed.

Lemma CreateUser_free st username email passwordHash st' :
  CreateUser st username email passwordHash = Ok st' ->
  forall u, In u (users st) -> u_username u <> username /\ u_email u <> email.
Proof.
  intros H u Hin. apply CreateUser_Ok in H as (userRoleID & Hfree & _).
  pose proof (existsb_false_all _ _ Hfree u Hin) as Hc. cbn beta in Hc.
  apply orb_false_iff in Hc as [H1 H2]. apply String.eqb_neq in H1, H2. auto.
Qed.

Lemma GetUserByUsername_free st username :
  (forall u, In u (users st) -> u_username u <> username) ->
  GetUserByUsername st username = Err ErrNoRows.
Proof.
  intros Hfree. unfold GetUserByUsername.
  destruct (List.find _ (users st)) as [u|] eqn:Hf; [|reflexivity].
  apply find_some in Hf as [Hin Hn]. apply String.eqb_eq in Hn.
  exfalso. exact (Hfree u Hin Hn).
Qed.

Lemma CreateUser_lookup st username email passwordHash st' :
  CreateUser st username email passwordHash = Ok st' ->
  GetUserByUsername st' username
    = Ok (mkUser (next_rowid (seq_users st) (map u_id (users st)))
                 username email passwordHash []).
Proof.
  intros H. pose proof (CreateUser_free _ _ _ _ _ H) as Hfree.
  apply CreateUser_Ok in H as (userRoleID & _ & _ & _ & ->).
  unfold GetUserByUsername. cbn [users]. rewrite find_snoc_None.
  - cbn [u_username]. rewrite String.eqb_refl. reflexivity.
  - apply existsb_false_find. apply not_true_is_false. intros Hc.
    apply existsb_exists in Hc as (u & Hin & Hc). apply String.eqb_eq in Hc.
    exact (proj1 (Hfree u Hin) Hc).
Qed.

Lemma CreateUser_same_catalog st username email passwordHash st' :
  CreateUser st username email passwordHash = Ok st' -> same_catalog st st'.
Proof. intros H. apply CreateUser_Ok in H as (userRoleID & _ & _ & _ & ->). repeat split. Qed.

Lemma CreateUser_Err st username email passwordHash e :
  CreateUser st username email passwordHash = Err e ->
  e = ErrConstraint \/ e = Wrap "failed to get user role ID" ErrNoRows.
Proof.
  intros H. rewrite CreateUser_fails_or in H.
  destruct (existsb _ (users st)); [injection H as <-; auto|].
  destruct (getRoleIDByName st "user") as [id|e0] eqn:Hrole.
  - destruct (existsb _ (user_roles st)) eqn:Ep; [injection H as <-; auto|].
    unfold CreateUser in H.
    destruct (existsb _ (users st)); [injection H as <-; auto|].
    rewrite Hrole in H. cbn [wrap rbind] in H. rewrite Ep in H. discriminate H.
  - injection H as <-. right. unfold getRoleIDByName in Hrole.
    destruct (List.find _ (roles st)); [discriminate|]. injection Hrole as <-. reflexivity.
Qed.

(** CreateUser stores the account and its [user] assignment together or
    not at all.  It succeeds exactly when no account has the username or the
    email, the role [user] exists, and no assignment row already pairs the
    new id with that role.  After a success the account is found by its
    username and by its id, with the fields as given; the id is above every
    earlier id; every other lookup by username or id, and the roles of every
    other user id, are as before; and the new id holds the role [user]. *)
Theorem CreateUser_registers_account
    (st : Store) (username email passwordHash : string) :
  let userID := next_rowid (seq_users st) (map u_id (users st)) in
  ((exists st', CreateUser st username email passwordHash = Ok st') <->
     (forall u, In u (users st) -> u_username u <> username /\ u_email u <> email) /\
     exists userRoleID, getRoleIDByName st "user" = Ok userRoleID /\
                        assignmentsOf st userID userRoleID = []) /\
  (forall st', CreateUser st username email passwordHash = Ok st' ->
     GetUserByUsername st' username = Ok (mkUser userID username email passwordHash []) /\
     GetUserByID st' userID = Ok (mkUser userID username email passwordHash []) /\
     (forall u, In u (users st) -> u_id u < userID) /\
     (forall name, name <> username ->
        GetUserByUsername st' name = GetUserByUsername st name) /\
     (forall id, id <> userID -> GetUserByID st' id = GetUserByID st id) /\
     (forall id, id <> userID -> rolesOf st' id = rolesOf st id) /\
     holdsRole st' userID "user" = true /\
     same_catalog st st').
Proof.
  intros userID. split.
  - split.
    + intros [st' H]. apply CreateUser_Ok in H as (userRoleID & Hfree & Hrole & Hpair & _).
      split.
      * intros u Hin. pose proof (existsb_false_all _ _ Hfree u Hin) as Hc. cbn beta in Hc.
        apply orb_false_iff in Hc as [H1 H2]. apply String.eqb_neq in H1, H2. auto.
      * exists userRoleID. split; [exact Hrole|]. unfold assignmentsOf.
        apply filter_nil_iff. apply existsb_false_all. exact Hpair.
    + intros [Hfree (userRoleID & Hrole & Hnone)].
      unfold CreateUser.
      replace (existsb _ (users st)) with false.
      2:{ symmetry. apply not_true_is_false. intros Hc.
          apply existsb_exists in Hc as (u & Hin & Hc). destruct (Hfree u Hin) as [H1 H2].
          apply orb_true_iff in Hc as [Hc|Hc]; apply String.eqb_eq in Hc; contradiction. }
      rewrite Hrole. cbn [wrap rbind].
      replace (existsb _ (user_roles st)) with false; [eauto|].
      symmetry. apply not_true_is_false. intros Hc.
      apply existsb_exists in Hc as (ur & Hin & Hc).
      unfold assignmentsOf in Hnone. rewrite filter_nil_iff in Hnone.
      fold userID in Hc. rewrite (Hnone ur Hin) in Hc. discriminate Hc.
  - intros st' H. apply CreateUser_Ok in H as (userRoleID & Hfree & Hrole & Hpair & ->).
    fold userID.
    assert (Hnone : forall u, In u (users st) ->
                      u_username u <> username /\ u_email u <> email).
    { intros u Hin. pose proof (existsb_false_all _ _ Hfree u Hin) as Hc. cbn beta in Hc.
      apply orb_false_iff in Hc as [H1 H2]. apply String.eqb_neq in H1, H2. auto. }
    assert (Hlow : forall u, In u (users st) -> u_id u < userID).
    { intros u Hin. apply next_rowid_above. apply in_map. exact Hin. }
    split; [|split; [|split; [exact Hlow|split; [|split; [|split; [|split]]]]]].
    + unfold GetUserByUsername. cbn [users]. rewrite find_snoc_None.
      * cbn [u_username]. rewrite String.eqb_refl. reflexivity.
      * apply existsb_false_find. apply not_true_is_false. intros Hc.
        apply existsb_exists in Hc as (u & Hin & Hc). apply String.eqb_eq in Hc.
        exact (proj1 (Hnone u Hin) Hc).
    + unfold GetUserByID. cbn [users]. rewrite find_snoc_None.
      * cbn [u_id]. rewrite Z.eqb_refl. reflexivity.
      * apply existsb_false_find. apply not_true_is_false. intros Hc.
        apply existsb_exists in Hc as (u & Hin & Hc). apply Z.eqb_eq in Hc.
        specialize (Hlow u Hin). lia.
    + intros name Hne. unfold GetUserByUsername. cbn [users]. rewrite find_snoc_other;
        [reflexivity|]. cbn [u_username]. apply String.eqb_neq. congruence.
    + intros id Hne. unfold GetUserByID. cbn [users]. rewrite find_snoc_other;
        [reflexivity|]. cbn [u_id]. apply Z.eqb_neq. congruence.
    + intros id Hne. eapply rolesOf_snoc_other; [reflexivity|reflexivity|].
      cbn [ur_user_id]. congruence.
    + apply holdsRole_rows. apply getRoleIDByName_row in Hrole as (r & Hr & Hn & Hid).
      exists r. eexists. split; [exact Hr|]. cbn [user_roles]. split.
      * apply in_or_app. right. left. reflexivity.
      * cbn. auto.
    + repeat split.
Qed.

Lemma CreateUser_registers_account_witness :
  exists st', CreateUser Scenario.two_users_restarted "kim" "kim@example.org" "$2a$10$hash3"
              = Ok st'.
Proof.
  apply (proj2 (proj1 (CreateUser_registers_account Scenario.two_users_restarted
                         "kim" "kim@example.org" "$2a$10$hash3"))).
  split.
  - intros u Hin. cbn in Hin. destruct Hin as [<-|[<-|[]]]; split; discriminate.
  - exists 2. split; reflexivity.
Defined.

Lemma next_rowid_covered seq ids :
  (forall i, In i ids -> i <= seq) -> next_rowid seq ids = seq + 1.
Proof.
  intros H. unfold next_rowid.
  assert (E : fold_right Z.max seq ids = seq).
  { induction ids as [|i ids IH]; [reflexivity|]. cbn [fold_right].
    rewrite IH by (intros j Hj; apply H; right; exact Hj).
    specialize (H i (or_introl eq_refl)). lia. }
  rewrite E. lia.
Qed.

Lemma cataloged_user_role st : cataloged st -> getRoleIDByName st "user" = Ok 2.
Proof. intros (Hr & _). unfold getRoleIDByName. rewrite Hr. reflexivity. Qed.

Lemma cataloged_role_two st p :
  cataloged st ->
  ((exists perm, In perm (permissionSet st 2) /\ PermName perm = p) <-> p = "view_pdf").
Proof.
  intros Hcat. rewrite (cataloged_permits st 2 p Hcat). destruct Hcat as (Hr & _).
  rewrite Hr. split.
  - intros (r & Hin & Hid & Hg). cbn in Hin. destruct Hin as [<-|[<-|[]]].
    + discriminate Hid.
    + apply granted_cases in Hg as [[Hn _]|[_ Hp]]; [discriminate Hn|exact Hp].
  - intros ->. eexists. split; [right; left; reflexivity|]. split; reflexivity.
Qed.

(** What a new account may do.  In every store that the data layer can
    reach, a successful CreateUser gives the account the id one above the
    counter of [users], and the account has [view_pdf] together with
    whatever assignment rows already named that id gave: exactly [view_pdf]
    when every assignment row referred to an existing account, and the
    permissions of every other user id are as before.  Under that condition
    the call succeeds exactly when the username and the email are free. *)
Theorem CreateUser_gives_view_pdf
    (scan : list UserRow -> list UserRow) (b : bool) (cmds : list command)
    (username email passwordHash : string) (st' : Store) :
  let st := replay scan (Start b :: cmds) in
  let userID := seq_users st + 1 in
  CreateUser st username email passwordHash = Ok st' ->
  GetUserByUsername st' username = Ok (mkUser userID username email passwordHash []) /\
  (forall p, HasPermission st' userID p = Ok true <->
             p = "view_pdf" \/ HasPermission st userID p = Ok true) /\
  (fk_user_roles_user st ->
     forall p, HasPermission st' userID p = Ok true <-> p = "view_pdf") /\
  (forall u p, u <> userID -> HasPermission st' u p = HasPermission st u p).
Proof.
  intros st userID H.
  assert (Hcat : cataloged st) by apply replay_cataloged.
  destruct (replay_constrained scan (Start b :: cmds)) as (_ & _ & _ & _ & _ & Kc & _).
  fold st in Kc.
  assert (Hid : next_rowid (seq_users st) (map u_id (users st)) = userID).
  { apply next_rowid_covered. intros i Hi. apply in_map_iff in Hi as (u & <- & Hin). auto. }
  pose proof (CreateUser_lookup _ _ _ _ _ H) as Hname.
  pose proof (CreateUser_same_catalog _ _ _ _ _ H) as Hsame.
  rewrite Hid in Hname. split; [exact Hname|].
  assert (Hcat' : cataloged st') by (apply (cataloged_same_catalog st); assumption).
  apply CreateUser_Ok in H as (userRoleID & _ & Hrole & _ & Hst').
  rewrite (cataloged_user_role st Hcat) in Hrole. injection Hrole as <-.
  rewrite Hid in Hst'.
  assert (Hrows : forall ur, In ur (user_roles st') <->
                    In ur (user_roles st) \/
                    ur = mkUserRoleRow (next_rowid (seq_user_roles st)
                                          (map ur_id (user_roles st))) userID 2 None).
  { intros ur. rewrite Hst'. cbn [user_roles]. rewrite in_app_iff. cbn [In].
    intuition congruence. }
  assert (Hset : forall r, permissionSet st' r = permissionSet st r).
  { intros r. destruct Hsame as (_ & Hp & Hrp). apply permissionSet_catalog; assumption. }
  assert (Hmain : forall p, HasPermission st' userID p = Ok true <->
                            p = "view_pdf" \/ HasPermission st userID p = Ok true).
  { intros p. rewrite !HasPermission_through. split.
    - intros (ur & perm & Hur & Hu & Hperm & Hn). apply Hrows in Hur as [Hur| ->].
      + right. exists ur, perm. rewrite <- Hset. auto.
      + left. cbn [ur_role_id] in Hperm. apply (cataloged_role_two st' p Hcat'). eauto.
    - intros [->|(ur & perm & Hur & Hu & Hperm & Hn)].
      + destruct (proj2 (cataloged_role_two st' "view_pdf" Hcat') eq_refl)
          as (perm & Hperm & Hn).
        eexists. exists perm. split; [apply Hrows; right; reflexivity|]. cbn. auto.
      + exists ur, perm. rewrite Hset. split; [apply Hrows; left; exact Hur|]. auto. }
  split; [exact Hmain|]. split.
  - intros Hfk p. rewrite Hmain. split; [|auto]. intros [Hp|Hc]; [exact Hp|].
    apply HasPermission_through in Hc as (ur & perm & Hur & Hu & _).
    apply Hfk in Hur. unfold identities in Hur. apply in_map_iff in Hur as (u & Hu' & Hin).
    specialize (Kc u Hin). unfold userID in Hu. lia.
  - intros u p Hne. apply (HasPermission_eq st st' u u p).
    rewrite !HasPermission_through. split.
    + intros (ur & perm & Hur & Hu & Hperm & Hn). apply Hrows in Hur as [Hur| ->].
      * exists ur, perm. rewrite <- Hset. auto.
      * cbn in Hu. congruence.
    + intros (ur & perm & Hur & Hu & Hperm & Hn). exists ur, perm. rewrite Hset.
      split; [apply Hrows; left; exact Hur|]. auto.
Qed.

Lemma CreateUser_gives_view_pdf_witness :
  CreateUser one_user_store "amy" "amy@example.org" "$2a$10$hash2"
    = Ok Scenario.two_users_store /\
  HasPermission Scenario.two_users_store 2 "view_pdf" = Ok true /\
  HasPermission Scenario.two_users_store 2 "manage_roles" <> Ok true.
Proof.
  pose proof (CreateUser_gives_view_pdf scan_rowid true
                [Register "zed" "zed@example.org" "$2a$10$hash1"]
                "amy" "amy@example.org" "$2a$10$hash2" Scenario.two_users_store) as T.
  cbv zeta in T.
  assert (E : replay scan_rowid [Start true; Register "zed" "zed@example.org" "$2a$10$hash1"]
              = one_user_store) by (vm_compute; reflexivity).
  rewrite E in T.
  assert (H : CreateUser one_user_store "amy" "amy@example.org" "$2a$10$hash2"
              = Ok Scenario.two_users_store) by (vm_compute; reflexivity).
  split; [exact H|].
  destruct (T H) as (_ & _ & Hfk & _).
  assert (Hst : fk_user_roles_user one_user_store).
  { intros ur Hin. cbn in Hin. destruct Hin as [<-|[]]. left. reflexivity. }
  split.
  - apply (proj2 (Hfk Hst "view_pdf")). reflexivity.
  - intros Hc. apply (proj1 (Hfk Hst "manage_roles")) in Hc. discriminate Hc.
Defined.

End AccountLaws.

(** * Properties of the handlers *)

Module MiddlewareLaws.
Import Models Auth Http Access SessionSpec.

Lemma World_eta w : mkWorld (sessionManager w) (database w) = w.
Proof. destruct w. reflexivity. Qed.

Lemma After_le t u : After t u = false <-> t <= u.
Proof. unfold After. rewrite Z.ltb_ge. reflexivity. Qed.

Lemma After_lt t u : After t u = true <-> u < t.
Proof. unfold After. rewrite Z.ltb_lt. reflexivity. Qed.

Lemma DestroySession_absent sm token :
  sessions sm !! token = None -> DestroySession sm token = sm.
Proof.
  intros H. destruct sm as [m]. cbn in *. unfold DestroySession. cbn [sessions].
  f_equal. apply delete_id. exact H.
Qed.

(* A dead token is no live session. *)
Lemma dead_token_not_live env w r token :
  carries_dead_token env w r token ->
  forall token' session, ~ carries_session env w r token' session.
Proof.
  intros [Ht Hdead] token' session (Ht' & Hs & Hle).
  rewrite Ht in Ht'. injection Ht' as <-. specialize (Hdead session Hs). lia.
Qed.

(* The shape the three middlewares share, and its three outcomes. *)
Lemma middleware_cases (getUser : DB.Store -> Z -> Result DB.error User)
    (middleware : Handler -> Handler) env w r :
  (forall next, middleware next env w r =
     match GetSessionToken (Base r) with
     | Err _ => (w, [HttpRedirect "/login" StatusSeeOther])
     | Ok sessionToken =>
         let '(validated, sm) :=
           ValidateSession (sessionManager w) (now env) sessionToken in
         let w := mkWorld sm (database w) in
         match validated with
         | Err _ => (w, [ClearSessionCookie; HttpRedirect "/login" StatusSeeOther])
         | Ok session =>
             match getUser (database w) (UserID session) with
             | Err _ => (w, [HttpRedirect "/login" StatusSeeOther])
             | Ok user => next env w (WithUser r user)
             end
         end
     end) ->
  (exists token session user,
     carries_session env w r token session /\
     getUser (database w) (UserID session) = Ok user /\
     forall next, middleware next env w r = next env w (WithUser r user))
  \/
  (exists token,
     carries_dead_token env w r token /\
     forall next, middleware next env w r
                  = (mkWorld (DestroySession (sessionManager w) token) (database w),
                     [ClearSessionCookie; HttpRedirect "/login" StatusSeeOther]))
  \/
  ((forall token, ~ carries_dead_token env w r token) /\
   (forall token session user,
      carries_session env w r token session ->
      getUser (database w) (UserID session) = Ok user -> False) /\
   forall next, middleware next env w r = (w, [HttpRedirect "/login" StatusSeeOther])).
Proof.
  intros Hshape.
  destruct (GetSessionToken (Base r)) as [token|e] eqn:Htok.
  - destruct (sessions (sessionManager w) !! token) as [session|] eqn:Hl.
    + destruct (After (now env) (ExpiresAt session)) eqn:Ea.
      * right. left. exists token. split.
        { split; [exact Htok|]. intros s Hs. rewrite Hl in Hs. injection Hs as <-.
          apply After_lt. exact Ea. }
        intros next. rewrite Hshape, ?Htok, (ValidateSession_present _ _ _ _ Hl), Ea.
        reflexivity.
      * apply After_le in Ea.
        assert (Hlive : forall t, ~ carries_dead_token env w r t).
        { intros t [Ht Hs]. rewrite Htok in Ht. injection Ht as <-.
          specialize (Hs session Hl). lia. }
        destruct (getUser (database w) (UserID session)) as [user|e] eqn:Hu.
        -- left. exists token, session, user. split; [repeat split; assumption|].
           split; [exact Hu|]. intros next.
           rewrite Hshape, ?Htok, (ValidateSession_present _ _ _ _ Hl).
           rewrite (proj2 (After_le _ _) Ea). cbn [database]. rewrite Hu, World_eta.
           reflexivity.
        -- right. right. split; [exact Hlive|]. split.
           { intros t s u (Ht & Hs & _) Hu'. rewrite Htok in Ht. injection Ht as <-.
             rewrite Hl in Hs. injection Hs as <-. congruence. }
           intros next. rewrite Hshape, ?Htok, (ValidateSession_present _ _ _ _ Hl).
           rewrite (proj2 (After_le _ _) Ea). cbn [database]. rewrite Hu, World_eta.
           reflexivity.
    + right. left. exists token. split.
      { split; [exact Htok|]. intros s Hs. rewrite Hl in Hs. discriminate Hs. }
      intros next. rewrite Hshape, ?Htok, (ValidateSession_absent _ _ _ Hl).
      rewrite (DestroySession_absent _ _ Hl), World_eta. reflexivity.
  - right. right. split; [|split].
    + intros t [Ht _]. rewrite Htok in Ht. discriminate Ht.
    + intros t s u (Ht & _) _. rewrite Htok in Ht. discriminate Ht.
    + intros next. rewrite Hshape, ?Htok. reflexivity.
Qed.

Lemma guards_of_shape getUser (middleware : Handler -> Handler) env w r :
  (forall next, middleware next env w r =
     match GetSessionToken (Base r) with
     | Err _ => (w, [HttpRedirect "/login" StatusSeeOther])
     | Ok sessionToken =>
         let '(validated, sm) :=
           ValidateSession (sessionManager w) (now env) sessionToken in
         let w := mkWorld sm (database w) in
         match validated with
         | Err _ => (w, [ClearSessionCookie; HttpRedirect "/login" StatusSeeOther])
         | Ok session =>
             match getUser (database w) (UserID session) with
             | Err _ => (w, [HttpRedirect "/login" StatusSeeOther])
             | Ok user => next env w (WithUser r user)
             end
         end
     end) ->
  guards getUser middleware env w r.
Proof.
  intros Hshape.
  destruct (middleware_cases getUser middleware env w r Hshape)
    as [(token & session & user & Hc & Hu & Hnext)
       |[(token & Hdead & Hres)|(Hlive & Hnot & Hres)]].
  - split.
    + intros token' session' user' (Ht' & Hs' & _) Hu' next.
      destruct Hc as (Ht & Hs & _). rewrite Ht in Ht'. injection Ht' as <-.
      rewrite Hs in Hs'. injection Hs' as <-. rewrite Hu in Hu'. injection Hu' as <-.
      apply Hnext.
    + intros Hno. exfalso. exact (Hno token session user Hc Hu).
  - split.
    + intros token' session user Hc _. exfalso.
      exact (dead_token_not_live env w r token Hdead token' session Hc).
    + intros _.
      exists (mkWorld (DestroySession (sessionManager w) token) (database w)),
             [ClearSessionCookie].
      split; [exact Hres|]. split; [reflexivity|]. split.
      * intros token' [Ht' _]. destruct Hdead as [Ht _].
        rewrite Ht in Ht'. injection Ht' as <-. split; reflexivity.
      * intros Hnone. exfalso. exact (Hnone token Hdead).
  - split.
    + intros token session user Hc Hu. exfalso. exact (Hnot token session user Hc Hu).
    + intros _. exists w, []. split; [exact Hres|]. split; [reflexivity|]. split.
      * intros token Hdead. exfalso. exact (Hlive token Hdead).
      * intros _. split; reflexivity.
Qed.

(** The three middlewares let a request through to the wrapped handler
    exactly when it carries the token of a session that has not expired and
    whose user id the database knows; the handler then finds that user in
    the context (with the roles, for the admin and auth middlewares; without,
    for the library one) and the world unchanged.  Every other request is
    answered with a redirect to /login without the wrapped handler being
    run and without touching the database.  The redirect follows a cleared
    cookie exactly when the token carried is unknown to the registry or
    expired, and the entry of that token is then all the registry loses;
    otherwise nothing precedes the redirect and the world stays as it is. *)
Theorem AuthMiddleware_admits_live_sessions_only (env : Env) (w : World) (r : Request) :
  guards DB.GetUserWithRoles AdminHandler.AuthMiddleware env w r /\
  guards DB.GetUserWithRoles AuthHandler.AuthMiddleware env w r /\
  guards DB.GetUserByID LibraryHandler.AuthMiddleware env w r /\
  (forall session user,
     DB.GetUserWithRoles (database w) (UserID session) = Ok user ->
     ID user = UserID session /\
     Roles user = Schema.rolesOf (database w) (UserID session) /\
     exists plain, DB.GetUserByID (database w) (UserID session) = Ok plain /\
                   ID plain = ID user /\ Models.Username plain = Models.Username user /\
                   Roles plain = []).
Proof.
  split; [|split; [|split]].
  - apply guards_of_shape. intros next. reflexivity.
  - apply guards_of_shape. intros next. reflexivity.
  - apply guards_of_shape. intros next. reflexivity.
  - intros session user H. unfold DB.GetUserWithRoles in H.
    destruct (DB.GetUserByID (database w) (UserID session)) as [plain|e] eqn:Hp;
      [|discriminate].
    cbn [rbind DB.GetUserRoles] in H. injection H as <-. cbn [ID Roles Models.Username].
    unfold DB.GetUserByID in Hp.
    destruct (List.find _ (DB.users (database w))) as [u|] eqn:Hf; [|discriminate].
    injection Hp as <-. cbn [ID Models.Username Roles].
    apply find_some in Hf as [_ Hid]. apply Z.eqb_eq in Hid.
    split; [exact Hid|]. split; [reflexivity|].
    eexists. split; [reflexivity|]. cbn. auto.
Qed.

End MiddlewareLaws.

Module AdminLaws.
Import Models Http Access MiddlewareLaws RoleLaws.

Lemma hasPermission_true w r :
  AdminHandler.hasPermission (database w) (AdminHandler.getUserFromContext r) "manage_roles"
    = Ok true <->
  exists user, may_manage_roles w r user.
Proof.
  unfold AdminHandler.hasPermission, AdminHandler.getUserFromContext, Handlers.hasPermission,
    may_manage_roles.
  destruct (ContextUser r) as [user|].
  - split; [eauto|]. intros (u & [= <-] & H). exact H.
  - split; [discriminate|]. intros (u & H & _). discriminate H.
Qed.

Lemma hasPermission_cases w r :
  (exists user, may_manage_roles w r user /\
     AdminHandler.hasPermission (database w) (AdminHandler.getUserFromContext r)
                                "manage_roles" = Ok true)
  \/ ((forall user, ~ may_manage_roles w r user) /\
      AdminHandler.hasPermission (database w) (AdminHandler.getUserFromContext r)
                                 "manage_roles" = Ok false).
Proof.
  destruct (AdminHandler.hasPermission (database w) (AdminHandler.getUserFromContext r)
                                       "manage_roles") as [[|]|e] eqn:E.
  - left. apply hasPermission_true in E as [user Hu]. eauto.
  - right. split; [|reflexivity]. intros user Hu.
    assert (Ht : AdminHandler.hasPermission (database w) (AdminHandler.getUserFromContext r)
                                            "manage_roles" = Ok true)
      by (apply hasPermission_true; eauto).
    congruence.
  - exfalso. unfold AdminHandler.hasPermission, Handlers.hasPermission in E.
    destruct (AdminHandler.getUserFromContext r); [|discriminate].
    destruct (HasPermission_answers (database w) (ID u) "manage_roles") as [b Hb].
    congruence.
Qed.

(* The shape the two role handlers share, and its two outcomes. *)
Lemma role_cases_of_shape (handler : Handler)
    (change : DB.Store -> User -> Z -> Z -> DB.Store) env w r :
  handler env w r =
    (let user := AdminHandler.getUserFromContext r in
     match AdminHandler.hasPermission (database w) user "manage_roles" with
     | Err _ => (w, [HttpError "Failed to check permissions" StatusInternalServerError])
     | Ok false => (w, [HttpError "Access denied" StatusForbidden])
     | Ok true =>
         if negb (String.eqb (Method r) "POST")
         then (w, [HttpError "Method not allowed" StatusMethodNotAllowed])
         else
           if String.eqb (FormValue r "user_id") "" || String.eqb (FormValue r "role_id") ""
           then (w, [HttpError "User ID and Role ID are required" StatusBadRequest])
           else
             match Strconv.Atoi (FormValue r "user_id") with
             | Err _ => (w, [HttpError "Invalid User ID" StatusBadRequest])
             | Ok userID =>
                 match Strconv.Atoi (FormValue r "role_id") with
                 | Err _ => (w, [HttpError "Invalid Role ID" StatusBadRequest])
                 | Ok roleID =>
                     match user with
                     | None => (w, [Panic])
                     | Some user =>
                         (mkWorld (sessionManager w)
                                  (change (database w) user userID roleID),
                          [HttpRedirect "/admin" StatusSeeOther])
                     end
                 end
             end
     end) ->
  let result := handler env w r in
  (exists user userID roleID,
     may_manage_roles w r user /\ role_form r userID roleID /\
     result = (mkWorld (sessionManager w) (change (database w) user userID roleID),
               [HttpRedirect "/admin" StatusSeeOther]))
  \/ ((forall user, ~ may_manage_roles w r user) /\
      result = (w, [HttpError "Access denied" StatusForbidden]))
  \/ ((exists user, may_manage_roles w r user) /\ Method r <> "POST" /\
      result = (w, [HttpError "Method not allowed" StatusMethodNotAllowed]))
  \/ ((exists user, may_manage_roles w r user) /\ Method r = "POST" /\
      (forall userID roleID, ~ role_form r userID roleID) /\
      exists message, result = (w, [HttpError message StatusBadRequest])).
Proof.
  intros Hshape result. subst result. rewrite Hshape. cbv zeta.
  destruct (hasPermission_cases w r) as [(user & Hu & ->)|[Hno ->]].
  2:{ right. left. split; [exact Hno|reflexivity]. }
  assert (Hsome : exists u, may_manage_roles w r u) by eauto.
  destruct (String.eqb (Method r) "POST") eqn:Em; cbn [negb].
  2:{ right. right. left. apply String.eqb_neq in Em. auto. }
  apply String.eqb_eq in Em.
  destruct (String.eqb (FormValue r "user_id") "" || String.eqb (FormValue r "role_id") "")
    eqn:Ee.
  { right. right. right. split; [exact Hsome|]. split; [exact Em|]. split; [|eauto].
    intros a b (_ & Ha & Hb). apply orb_true_iff in Ee as [Ee|Ee];
      apply String.eqb_eq in Ee; rewrite Ee in *; discriminate. }
  destruct (Strconv.Atoi (FormValue r "user_id")) as [userID|e1] eqn:E1.
  2:{ right. right. right. split; [exact Hsome|]. split; [exact Em|]. split; [|eauto].
      intros a b (_ & Ha & _). congruence. }
  destruct (Strconv.Atoi (FormValue r "role_id")) as [roleID|e2] eqn:E2.
  2:{ right. right. right. split; [exact Hsome|]. split; [exact Em|]. split; [|eauto].
      intros a b (_ & _ & Hb). congruence. }
  left. exists user, userID, roleID. split; [exact Hu|]. split; [repeat split; auto|].
  destruct Hu as [Hctx _]. unfold AdminHandler.getUserFromContext. rewrite Hctx.
  reflexivity.
Qed.

Lemma role_handler_of_shape (handler : Handler) change env w r :
  handler env w r =
    (let user := AdminHandler.getUserFromContext r in
     match AdminHandler.hasPermission (database w) user "manage_roles" with
     | Err _ => (w, [HttpError "Failed to check permissions" StatusInternalServerError])
     | Ok false => (w, [HttpError "Access denied" StatusForbidden])
     | Ok true =>
         if negb (String.eqb (Method r) "POST")
         then (w, [HttpError "Method not allowed" StatusMethodNotAllowed])
         else
           if String.eqb (FormValue r "user_id") "" || String.eqb (FormValue r "role_id") ""
           then (w, [HttpError "User ID and Role ID are required" StatusBadRequest])
           else
             match Strconv.Atoi (FormValue r "user_id") with
             | Err _ => (w, [HttpError "Invalid User ID" StatusBadRequest])
             | Ok userID =>
                 match Strconv.Atoi (FormValue r "role_id") with
                 | Err _ => (w, [HttpError "Invalid Role ID" StatusBadRequest])
                 | Ok roleID =>
                     match user with
                     | None => (w, [Panic])
                     | Some user =>
                         (mkWorld (sessionManager w)
                                  (change (database w) user userID roleID),
                          [HttpRedirect "/admin" StatusSeeOther])
                     end
                 end
             end
     end) ->
  role_handler handler change env w r.
Proof.
  intros Hshape. pose proof (role_cases_of_shape handler change env w r Hshape) as Hcases.
  unfold role_handler. cbv zeta in *. set (result := handler env w r) in *.
  destruct Hcases as [(u & a & b & Hu & Hf & Hres)
                     |[(Hno & Hres)
                      |[((u & Hu) & Hm & Hres)
                       |((u & Hu) & Hm & Hnf & message & Hres)]]].
  - assert (Hctx : forall u', may_manage_roles w r u' -> u' = u).
    { intros u' [Hc' _]. destruct Hu as [Hc _]. congruence. }
    split; [intros Hno; exfalso; exact (Hno u Hu)|].
    split; [intros _ Hm; exfalso; apply Hm; apply Hf|].
    split; [intros _ _ Hnf; exfalso; exact (Hnf a b Hf)|].
    split.
    { intros u' a' b' Hu' Hf'. rewrite (Hctx u' Hu').
      destruct Hf as (_ & Ha & Hb), Hf' as (_ & Ha' & Hb').
      assert (a' = a) by congruence. assert (b' = b) by congruence. subst a' b'.
      exact Hres. }
    split; [intros _; eauto|]. rewrite Hres. split; [reflexivity|].
    cbn. intros [H|[]]; discriminate H.
  - split; [intros _; exact Hres|].
    split; [intros [u Hu]; exfalso; exact (Hno u Hu)|].
    split; [intros [u Hu]; exfalso; exact (Hno u Hu)|].
    split; [intros u a b Hu; exfalso; exact (Hno u Hu)|].
    rewrite Hres. split; [intros Hne; exfalso; apply Hne; reflexivity|].
    split; [reflexivity|]. cbn. intros [H|[]]; discriminate H.
  - split; [intros Hno; exfalso; exact (Hno u Hu)|].
    split; [intros _ _; exact Hres|].
    split; [intros _ Hp; contradiction|].
    split; [intros u' a b _ (Hp & _); contradiction|].
    rewrite Hres. split; [intros Hne; exfalso; apply Hne; reflexivity|].
    split; [reflexivity|]. cbn. intros [H|[]]; discriminate H.
  - split; [intros Hno; exfalso; exact (Hno u Hu)|].
    split; [intros _ Hp; contradiction|].
    split; [intros _ _ _; eauto|].
    split; [intros u' a b _ Hf; exfalso; exact (Hnf a b Hf)|].
    rewrite Hres. split; [intros Hne; exfalso; apply Hne; reflexivity|].
    split; [reflexivity|]. cbn. intros [H|[]]; discriminate H.
Qed.

Lemma RemoveRole_shape env w r :
  AdminHandler.RemoveRole env w r =
    (let user := AdminHandler.getUserFromContext r in
     match AdminHandler.hasPermission (database w) user "manage_roles" with
     | Err _ => (w, [HttpError "Failed to check permissions" StatusInternalServerError])
     | Ok false => (w, [HttpError "Access denied" StatusForbidden])
     | Ok true =>
         if negb (String.eqb (Method r) "POST")
         then (w, [HttpError "Method not allowed" StatusMethodNotAllowed])
         else
           if String.eqb (FormValue r "user_id") "" || String.eqb (FormValue r "role_id") ""
           then (w, [HttpError "User ID and Role ID are required" StatusBadRequest])
           else
             match Strconv.Atoi (FormValue r "user_id") with
             | Err _ => (w, [HttpError "Invalid User ID" StatusBadRequest])
             | Ok userID =>
                 match Strconv.Atoi (FormValue r "role_id") with
                 | Err _ => (w, [HttpError "Invalid Role ID" StatusBadRequest])
                 | Ok roleID =>
                     match user with
                     | None => (w, [Panic])
                     | Some user =>
                         (mkWorld (sessionManager w)
                                  (DB.delete_user_role (database w) userID roleID),
                          [HttpRedirect "/admin" StatusSeeOther])
                     end
                 end
             end
     end).
Proof.
  unfold AdminHandler.RemoveRole. cbv zeta. unfold AdminHandler.getUserFromContext.
  destruct (ContextUser r) as [user|]; reflexivity.
Qed.

(** The handlers behind /admin/assign-role and /admin/remove-role change
    the database only for a context user who has [manage_roles] and a POST
    whose [user_id] and [role_id] are decimal integers; they then run
    AssignRole, with the acting user as granter, or RemoveRole on that
    pair, whether or not such a user or role exists, and redirect to /admin.
    Every other request gets one error response and changes nothing: 403
    without the permission, whatever the method and the form; with the
    permission, 405 for a method other than POST; with the permission and a
    POST, 400 when an id is missing or is no integer.  Neither handler
    touches the session registry or dereferences a nil user. *)
Theorem role_handlers_require_manage_roles (env : Env) (w : World) (r : Request) :
  role_handler AdminHandler.AssignRole
    (fun db user userID roleID =>
       DB.insert_or_replace_user_role db userID roleID (Some (ID user))) env w r /\
  role_handler AdminHandler.RemoveRole
    (fun db user userID roleID => DB.delete_user_role db userID roleID) env w r.
Proof.
  split.
  - apply role_handler_of_shape. reflexivity.
  - apply role_handler_of_shape. apply RemoveRole_shape.
Qed.

End AdminLaws.

Module AuthLaws.
Import Models Auth Http Access Directory SessionSpec MiddlewareLaws.

Lemma CreateSession_result sm entropy now userID username :
  CreateSession sm entropy now userID username =
    (Ok (generateToken entropy), snd (CreateSession sm entropy now userID username)).
Proof. reflexivity. Qed.

Lemma CreateSession_validates sm entropy now userID username :
  let sm' := snd (CreateSession sm entropy now userID username) in
  ValidateSession sm' now (generateToken entropy)
    = (Ok (mkSession userID username (now + 24 * Hour)), sm').
Proof.
  intros sm'.
  assert (Hl : sessions sm' !! generateToken entropy
               = Some (mkSession userID username (now + 24 * Hour)))
    by apply (proj2 (CreateSession_lookup sm entropy now userID username)).
  rewrite (ValidateSession_present _ _ _ _ Hl). cbn [ExpiresAt].
  replace (After now (now + 24 * Hour)) with false; [reflexivity|].
  symmetry. apply After_false. rewrite day_length. lia.
Qed.

Lemma to_library_choice (r : Request) :
  to_library (if String.eqb (HeaderGet (Header (Base r)) "Hx-Request") "true"
              then [HeaderSet "HX-Redirect" "/library"; WriteHeader StatusOK]
              else [HttpRedirect "/library" StatusSeeOther]).
Proof. unfold to_library. destruct (String.eqb _ "true"); auto. Qed.

Lemma no_cookie_in_error message token :
  ~ In (SetSessionCookie token) (AuthHandler.renderAuthError message).
Proof. cbn. intros [H|[H|[H|[]]]]; discriminate H. Qed.

(** Logout always clears the cookie and redirects to the landing page; it
    never touches the database.  When the request carries a token, by
    cookie or by Bearer header, the session under that token is gone from
    the registry and every other session stays; when it carries none, the
    registry stays as it is.  Afterwards the same request is turned away
    by the middlewares, whatever the clock shows. *)
Theorem Logout_ends_the_session (env : Env) (w : World) (r : Request) :
  let result := AuthHandler.Logout env w r in
  snd result = [ClearSessionCookie; HttpRedirect "/" StatusSeeOther] /\
  database (fst result) = database w /\
  (forall token, GetSessionToken (Base r) = Ok token ->
     sessions (sessionManager (fst result)) !! token = None /\
     forall other, other <> token ->
       sessions (sessionManager (fst result)) !! other
         = sessions (sessionManager w) !! other) /\
  (forall e, GetSessionToken (Base r) = Err e -> fst result = w) /\
  (forall env',
     exists w' cleared,
       (forall next, AdminHandler.AuthMiddleware next env' (fst result) r
                     = (w', cleared ++ [HttpRedirect "/login" StatusSeeOther])%list) /\
       (forall next, LibraryHandler.AuthMiddleware next env' (fst result) r
                     = (w', cleared ++ [HttpRedirect "/login" StatusSeeOther])%list)).
Proof.
  intros result. subst result. unfold AuthHandler.Logout. cbv zeta. cbn [fst snd].
  split; [reflexivity|].
  destruct (GetSessionToken (Base r)) as [token|e] eqn:Htok.
  - cbn [database sessionManager]. split; [reflexivity|]. split; [|split; [discriminate|]].
    + intros t [= <-]. split.
      * rewrite DestroySession_lookup. rewrite decide_True by reflexivity. reflexivity.
      * intros other Hne. rewrite DestroySession_lookup.
        rewrite decide_False by congruence. reflexivity.
    + intros env'.
      set (w1 := mkWorld (DestroySession (sessionManager w) token) (database w)).
      assert (Hgone : sessions (sessionManager w1) !! token = None).
      { cbn [w1 sessionManager]. rewrite DestroySession_lookup.
        rewrite decide_True by reflexivity. reflexivity. }
      exists w1, [ClearSessionCookie]. split; intros next.
      * unfold AdminHandler.AuthMiddleware. rewrite Htok.
        rewrite (ValidateSession_absent _ _ _ Hgone), World_eta. reflexivity.
      * unfold LibraryHandler.AuthMiddleware. rewrite Htok.
        rewrite (ValidateSession_absent _ _ _ Hgone), World_eta. reflexivity.
  - split; [reflexivity|]. split; [discriminate|]. split; [reflexivity|].
    intros env'. exists w, []. split; intros next.
    + unfold AdminHandler.AuthMiddleware. rewrite Htok. reflexivity.
    + unfold LibraryHandler.AuthMiddleware. rewrite Htok. reflexivity.
Qed.

Section Passwords.

Variable CheckPassword : string -> string -> bool.

Lemma Login_cases env w r :
  let result := AuthHandler.Login CheckPassword env w r in
  (exists user,
     presents_credentials CheckPassword w r user /\
     result = (mkWorld (snd (CreateSession (sessionManager w) (entropy env) (now env)
                                           (ID user) (Models.Username user)))
                       (database w),
               SetSessionCookie (generateToken (entropy env)) ::
               if String.eqb (HeaderGet (Header (Base r)) "Hx-Request") "true"
               then [HeaderSet "HX-Redirect" "/library"; WriteHeader StatusOK]
               else [HttpRedirect "/library" StatusSeeOther]))
  \/ ((forall user, ~ presents_credentials CheckPassword w r user) /\
      fst result = w /\
      (snd result = [Render LoginPage] \/
       snd result = [HttpError "Method not allowed" StatusMethodNotAllowed] \/
       snd result = AuthHandler.renderAuthError "Username and password are required" \/
       snd result = AuthHandler.renderAuthError "Invalid username or password") /\
      (Method r = "POST" -> FormValue r "username" <> "" -> FormValue r "password" <> "" ->
       snd result = AuthHandler.renderAuthError "Invalid username or password")).
Proof.
  intros result. subst result. unfold AuthHandler.Login. cbv zeta.
  destruct (String.eqb (Method r) "GET") eqn:Eg.
  { right. apply String.eqb_eq in Eg. split.
    - intros user (Hm & _). rewrite Eg in Hm. discriminate Hm.
    - split; [reflexivity|]. split; [auto|]. intros Hm. rewrite Eg in Hm. discriminate Hm. }
  destruct (String.eqb (Method r) "POST") eqn:Ep; cbn [negb].
  2:{ right. apply String.eqb_neq in Ep. split.
      - intros user (Hm & _). contradiction.
      - split; [reflexivity|]. split; [auto|]. intros Hm. contradiction. }
  apply String.eqb_eq in Ep.
  destruct (String.eqb (FormValue r "username") "" || String.eqb (FormValue r "password") "")
    eqn:Ee.
  { right. apply orb_true_iff in Ee. split.
    - intros user (_ & Hu & Hp & _). destruct Ee as [Ee|Ee]; apply String.eqb_eq in Ee;
        contradiction.
    - split; [reflexivity|]. split; [auto|]. intros _ Hu Hp.
      destruct Ee as [Ee|Ee]; apply String.eqb_eq in Ee; contradiction. }
  apply orb_false_iff in Ee as [Eu Epw]. apply String.eqb_neq in Eu, Epw.
  destruct (GetUserByUsername (database w) (FormValue r "username")) as [user|e] eqn:Hu.
  2:{ right. split.
      - intros user (_ & _ & _ & Hc & _). congruence.
      - split; [reflexivity|]. split; [auto|]. auto. }
  destruct (CheckPassword (FormValue r "password") (PasswordHash user)) eqn:Hc; cbn [negb].
  2:{ right. split.
      - intros user' (_ & _ & _ & Hu' & Hc'). rewrite Hu in Hu'. injection Hu' as <-.
        congruence.
      - split; [reflexivity|]. split; [auto|]. auto. }
  left. exists user. split; [repeat split; assumption|]. reflexivity.
Qed.

(** Login opens a session only for a POST whose username names an account
    and whose password passes CheckPassword against the stored hash.  The
    session is that account's, it is valid at once, its token is the value of
    the cookie that is set, and the cookie's Max-Age is the lifetime of the
    session.  Every other request leaves the registry as it is and sets no
    cookie; an unknown username and a wrong password get the same answer.
    Login never changes the database. *)
Theorem Login_opens_session_for_checked_password_only
    (env : Env) (w : World) (r : Request) :
  let result := AuthHandler.Login CheckPassword env w r in
  database (fst result) = database w /\
  (forall user,
     presents_credentials CheckPassword w r user ->
     let token := generateToken (entropy env) in
     (exists tail, snd result = SetSessionCookie token :: tail /\ to_library tail) /\
     ValidateSession (sessionManager (fst result)) (now env) token
       = (Ok (mkSession (ID user) (Models.Username user) (now env + 24 * Hour)),
          sessionManager (fst result)) /\
     Models.Username user = FormValue r "username" /\
     (forall other, other <> token ->
        sessions (sessionManager (fst result)) !! other
          = sessions (sessionManager w) !! other)) /\
  ((forall user, ~ presents_credentials CheckPassword w r user) ->
     fst result = w /\
     (forall token, ~ In (SetSessionCookie token) (snd result)) /\
     (Method r = "POST" -> FormValue r "username" <> "" -> FormValue r "password" <> "" ->
      snd result = AuthHandler.renderAuthError "Invalid username or password")) /\
  (forall token c, SetSessionCookie token = HttpSetCookie c ->
     MaxAge c * Second = 24 * Hour /\ HttpOnly c = true /\ CookieName c = "session_token").
Proof.
  intros result.
  destruct (Login_cases env w r) as [(user & Hcred & Hres)|(Hno & Hw & Hshape & Hsame)];
    fold result in Hres || fold result in Hw, Hshape, Hsame.
  - split; [rewrite Hres; reflexivity|]. split; [|split].
    + intros user' Hcred' token.
      assert (user' = user).
      { destruct Hcred as (_ & _ & _ & Hu & _), Hcred' as (_ & _ & _ & Hu' & _). congruence. }
      subst user'. rewrite Hres. cbn [fst snd sessionManager].
      split; [eexists; split; [reflexivity|apply to_library_choice]|].
      split; [apply CreateSession_validates|]. split.
      * destruct Hcred as (_ & _ & _ & Hu & _). unfold GetUserByUsername in Hu.
        destruct (List.find _ (DB.users (database w))) as [u|] eqn:Hf; [|discriminate].
        injection Hu as <-. apply find_some in Hf as [_ Hn]. apply String.eqb_eq in Hn.
        exact Hn.
      * intros other Hne. cbn [CreateSession snd sessions].
        apply lookup_insert_ne. intros Heq. apply Hne. symmetry. exact Heq.
    + intros Hno. exfalso. exact (Hno user Hcred).
    + intros token c [= <-]. cbn. split; [reflexivity|auto].
  - split; [rewrite Hw; reflexivity|]. split; [|split].
    + intros user Hcred. exfalso. exact (Hno user Hcred).
    + intros _. split; [exact Hw|]. split; [|exact Hsame].
      intros token Hin.
      destruct Hshape as [H|[H|[H|H]]]; rewrite H in Hin;
        try (apply no_cookie_in_error in Hin; exact Hin);
        destruct Hin as [Hin|[]]; discriminate Hin.
    + intros token c [= <-]. cbn. split; [reflexivity|auto].
Qed.

End Passwords.

Lemma Login_opens_session_for_checked_password_only_witness :
  let w := mkWorld NewSessionManager Scenario.two_users_restarted in
  let r := mkHttpRequest "POST" "/login"
             {["username" := ["amy"]; "password" := ["secret1"]]} (mkRequest [] ∅) None in
  let result := AuthHandler.Login (fun password hash => String.eqb hash "$2a$10$hash2")
                                  (mkEnv 0 (repeat x00 32)) w r in
  exists tail, snd result = SetSessionCookie (generateToken (repeat x00 32)) :: tail /\
               to_library tail.
Proof.
  intros w r result.
  refine (proj1 (proj1 (proj2 (Login_opens_session_for_checked_password_only
                                 (fun password hash => String.eqb hash "$2a$10$hash2")
                                 (mkEnv 0 (repeat x00 32)) w r))
                       (mkUser 2 "amy" "amy@example.org" "$2a$10$hash2" []) _)).
  repeat split; try discriminate; vm_compute; reflexivity.
Defined.

End AuthLaws.

Module RegisterLaws.
Import Models Auth Http Access Directory SessionSpec MiddlewareLaws AuthLaws AccountLaws.

Section Passwords.

Variable HashPassword : string -> Result unit string.

Lemma Contains_unique_constraint (e : DB.error) :
  (e = DB.ErrConstraint ->
     AuthHandler.Contains (AuthHandler.ErrorText e) "UNIQUE constraint failed" = true) /\
  (e = DB.Wrap "failed to get user role ID" DB.ErrNoRows ->
     AuthHandler.Contains (AuthHandler.ErrorText e) "UNIQUE constraint failed" = false).
Proof. split; intros ->; vm_compute; reflexivity. Qed.

(* The outcomes of Register, by the checks in the order the code makes
   them. *)
Lemma Register_cases env w r :
  let result := AuthHandler.Register HashPassword env w r in
  let username := FormValue r "username" in
  let email := FormValue r "email" in
  let password := FormValue r "password" in
  (exists hash db,
     registration_form r /\ HashPassword password = Ok hash /\
     DB.CreateUser (database w) username email hash = Ok db /\
     result =
       (mkWorld (snd (CreateSession (sessionManager w) (entropy env) (now env)
                        (DB.next_rowid (DB.seq_users (database w))
                                       (map DB.u_id (DB.users (database w))))
                        username))
                db,
        SetSessionCookie (generateToken (entropy env)) ::
        if String.eqb (HeaderGet (Header (Base r)) "Hx-Request") "true"
        then [HeaderSet "HX-Redirect" "/library"; WriteHeader StatusOK]
        else [HttpRedirect "/library" StatusSeeOther]))
  \/ (fst result = w /\
      ((~ registration_form r /\
        (snd result = [Render RegisterPage] \/
         snd result = [HttpError "Method not allowed" StatusMethodNotAllowed] \/
         snd result = AuthHandler.renderAuthError "All fields are required" \/
         snd result = AuthHandler.renderAuthError "Passwords do not match" \/
         snd result = AuthHandler.renderAuthError "Password must be at least 6 characters"))
       \/ (registration_form r /\
           (exists user, GetUserByUsername (database w) username = Ok user) /\
           snd result = AuthHandler.renderAuthError "Username already exists")
       \/ (registration_form r /\
           GetUserByUsername (database w) username = Err DB.ErrNoRows /\
           (exists e, HashPassword password = Err e) /\
           snd result = [HttpError "Failed to hash password" StatusInternalServerError])
       \/ (registration_form r /\
           GetUserByUsername (database w) username = Err DB.ErrNoRows /\
           (exists hash, HashPassword password = Ok hash /\
              DB.CreateUser (database w) username email hash = Err DB.ErrConstraint) /\
           snd result = AuthHandler.renderAuthError "Username or email already exists")
       \/ (registration_form r /\
           GetUserByUsername (database w) username = Err DB.ErrNoRows /\
           (exists hash, HashPassword password = Ok hash /\
              DB.CreateUser (database w) username email hash
                = Err (DB.Wrap "failed to get user role ID" DB.ErrNoRows)) /\
           snd result = [HttpError "Failed to create user" StatusInternalServerError]))).
Proof.
  intros result username email password. subst result.
  unfold AuthHandler.Register. cbv zeta. fold username email password.
  destruct (String.eqb (Method r) "GET") eqn:Eg.
  { right. apply String.eqb_eq in Eg. split; [reflexivity|]. left. split; [|auto].
    intros (Hm & _). rewrite Eg in Hm. discriminate Hm. }
  destruct (String.eqb (Method r) "POST") eqn:Ep; cbn [negb].
  2:{ right. apply String.eqb_neq in Ep. split; [reflexivity|]. left. split; [|auto].
      intros (Hm & _). contradiction. }
  apply String.eqb_eq in Ep.
  destruct (String.eqb username "" || String.eqb email "" || String.eqb password "") eqn:Ee.
  { right. split; [reflexivity|]. left. split; [|auto 6].
    intros (_ & Hu & He & Hp & _).
    apply orb_true_iff in Ee as [Ee|Ee]; [apply orb_true_iff in Ee as [Ee|Ee]|];
      apply String.eqb_eq in Ee; contradiction. }
  apply orb_false_iff in Ee as [Ee Epw]. apply orb_false_iff in Ee as [Eu Eem].
  apply String.eqb_neq in Eu, Eem, Epw.
  destruct (String.eqb password (FormValue r "confirm-password")) eqn:Ec; cbn [negb].
  2:{ right. apply String.eqb_neq in Ec. split; [reflexivity|]. left. split; [|auto 6].
      intros (_ & _ & _ & _ & Hc & _). fold password in Hc. congruence. }
  apply String.eqb_eq in Ec.
  destruct (String.length password <? 6)%nat eqn:El.
  { right. apply Nat.ltb_lt in El. split; [reflexivity|]. left. split; [|auto 7].
    intros (_ & _ & _ & _ & _ & Hl). fold password in Hl. lia. }
  apply Nat.ltb_ge in El.
  assert (Hform : registration_form r) by (repeat split; auto).
  destruct (GetUserByUsername (database w) username) as [user|e] eqn:Hu.
  { right. split; [reflexivity|]. right. left. eauto. }
  assert (He : e = DB.ErrNoRows).
  { unfold GetUserByUsername in Hu. destruct (List.find _ _); [discriminate|].
    injection Hu as <-. reflexivity. }
  subst e.
  destruct (HashPassword password) as [hash|e] eqn:Hh.
  2:{ right. split; [reflexivity|]. right. right. left. eauto 6. }
  destruct (DB.CreateUser (database w) username email hash) as [db|e] eqn:Hc.
  - left. exists hash, db. repeat (split; [first [assumption|reflexivity]|]).
    cbn [database sessionManager]. rewrite (CreateUser_lookup _ _ _ _ _ Hc).
    cbn [ID Models.Username]. reflexivity.
  - right. destruct (CreateUser_Err _ _ _ _ _ Hc) as [-> | ->].
    + rewrite (proj1 (Contains_unique_constraint _) eq_refl).
      split; [reflexivity|]. right. right. right. left. eauto 8.
    + rewrite (proj2 (Contains_unique_constraint _) eq_refl).
      split; [reflexivity|]. right. right. right. right. eauto 8.
Qed.

(** Register creates the account and opens its session together, for a
    POST with all fields, matching passwords of six bytes or more, a hash
    from HashPassword and a CreateUser that succeeds; what is stored is the
    hash.  The session is valid at once and the cookie carries its token.
    Every other request changes neither the database nor the registry and
    sets no cookie.  A username that the lookup finds is answered with
    [Username already exists]; a constraint violation that CreateUser
    reports after the lookup found nothing is answered with [Username or
    email already exists], whichever constraint it was.  The branches
    [Failed to retrieve user] and [Failed to create session] are not taken. *)
Theorem Register_creates_account_with_session (env : Env) (w : World) (r : Request) :
  let result := AuthHandler.Register HashPassword env w r in
  let username := FormValue r "username" in
  let email := FormValue r "email" in
  let password := FormValue r "password" in
  let userID := DB.next_rowid (DB.seq_users (database w))
                              (map DB.u_id (DB.users (database w))) in
  let token := generateToken (entropy env) in
  (forall hash db,
     registration_form r -> HashPassword password = Ok hash ->
     DB.CreateUser (database w) username email hash = Ok db ->
     database (fst result) = db /\
     GetUserByUsername db username = Ok (mkUser userID username email hash []) /\
     ValidateSession (sessionManager (fst result)) (now env) token
       = (Ok (mkSession userID username (now env + 24 * Hour)),
          sessionManager (fst result)) /\
     (forall other, other <> token ->
        sessions (sessionManager (fst result)) !! other
          = sessions (sessionManager w) !! other) /\
     exists tail, snd result = SetSessionCookie token :: tail /\ to_library tail) /\
  ((fst result <> w \/ exists t, In (SetSessionCookie t) (snd result)) ->
     exists hash db,
       registration_form r /\ HashPassword password = Ok hash /\
       DB.CreateUser (database w) username email hash = Ok db) /\
  (forall user,
     registration_form r -> GetUserByUsername (database w) username = Ok user ->
     result = (w, AuthHandler.renderAuthError "Username already exists")) /\
  (forall e hash,
     registration_form r -> GetUserByUsername (database w) username = Err e ->
     HashPassword password = Ok hash ->
     DB.CreateUser (database w) username email hash = Err DB.ErrConstraint ->
     result = (w, AuthHandler.renderAuthError "Username or email already exists")) /\
  snd result <> [HttpError "Failed to retrieve user" StatusInternalServerError] /\
  snd result <> [HttpError "Failed to create session" StatusInternalServerError] /\
  ~ In Panic (snd result).
Proof.
  intros result username email password userID token.
  pose proof (Register_cases env w r) as Hcases. cbv zeta in Hcases.
  fold result username email password userID token in Hcases.
  assert (Hno : forall message t, ~ In (SetSessionCookie t)
                                       (AuthHandler.renderAuthError message))
    by (intros; apply no_cookie_in_error).
  assert (Hfail : fst result = w ->
            (snd result = [Render RegisterPage] \/
             (exists m s, snd result = [HttpError m s] /\
                m <> "Failed to retrieve user" /\ m <> "Failed to create session") \/
             exists m, snd result = AuthHandler.renderAuthError m) ->
            (forall t, ~ In (SetSessionCookie t) (snd result)) /\
            snd result <> [HttpError "Failed to retrieve user" StatusInternalServerError] /\
            snd result <> [HttpError "Failed to create session" StatusInternalServerError] /\
            ~ In Panic (snd result)).
  { intros _ [H|[(m & s & H & Hm1 & Hm2)|(m & H)]]; rewrite H.
    - split; [intros t [Hc|[]]; discriminate Hc|].
      split; [discriminate|]. split; [discriminate|]. intros [Hc|[]]; discriminate Hc.
    - split; [intros t [Hc|[]]; discriminate Hc|].
      split; [intros [= Hc _]; contradiction|]. split; [intros [= Hc _]; contradiction|].
      intros [Hc|[]]; discriminate Hc.
    - split; [apply Hno|]. split; [discriminate|]. split; [discriminate|].
      cbn. intros [Hc|[Hc|[Hc|[]]]]; discriminate Hc. }
  destruct Hcases as [(hash & db & Hform & Hh & Hc & Hres)|(Hw & Hcase)].
  - split; [|split; [|split; [|split; [|split; [|split]]]]].
    + intros hash' db' _ Hh' Hc'. rewrite Hh in Hh'. injection Hh' as <-.
      rewrite Hc in Hc'. injection Hc' as <-. rewrite Hres. cbn [fst snd database sessionManager].
      split; [reflexivity|]. split; [apply (CreateUser_lookup _ _ _ _ _ Hc)|].
      split; [apply CreateSession_validates|]. split.
      * intros other Hne. cbn [CreateSession snd sessions].
        apply lookup_insert_ne. intros Heq. apply Hne. symmetry. exact Heq.
      * eexists. split; [reflexivity|apply to_library_choice].
    + intros _. eauto.
    + intros user _ Hu. exfalso.
      pose proof (CreateUser_free _ _ _ _ _ Hc) as Hfree.
      assert (Hu' : GetUserByUsername (database w) username = Err DB.ErrNoRows)
        by (apply GetUserByUsername_free; intros u Hin; apply (Hfree u Hin)).
      congruence.
    + intros e hash' _ _ Hh' Hc'. rewrite Hh in Hh'. injection Hh' as <-. congruence.
    + rewrite Hres. cbn [snd]. discriminate.
    + rewrite Hres. cbn [snd]. discriminate.
    + rewrite Hres. cbn [snd]. intros [H|H]; [discriminate H|].
      destruct (String.eqb _ "true"); cbn in H; intuition discriminate.
  - assert (Hshape : snd result = [Render RegisterPage] \/
             (exists m s, snd result = [HttpError m s] /\
                m <> "Failed to retrieve user" /\ m <> "Failed to create session") \/
             exists m, snd result = AuthHandler.renderAuthError m).
    { destruct Hcase as [[_ H]|[(_ & _ & H)|[(_ & _ & _ & H)|[(_ & _ & _ & H)|(_ & _ & _ & H)]]]].
      - destruct H as [H|[H|[H|[H|H]]]]; eauto.
        right. left. eexists _, _. split; [exact H|]. split; discriminate.
      - eauto.
      - right. left. eexists _, _. split; [exact H|]. split; discriminate.
      - eauto.
      - right. left. eexists _, _. split; [exact H|]. split; discriminate. }
    destruct (Hfail Hw Hshape) as (Hnocookie & Hn1 & Hn2 & Hn3).
    assert (Hnot : forall hash db, HashPassword password = Ok hash ->
                     DB.CreateUser (database w) username email hash = Ok db ->
                     registration_form r -> False).
    { intros hash db Hh Hc Hform.
      pose proof (CreateUser_free _ _ _ _ _ Hc) as Hfree.
      assert (Hu : GetUserByUsername (database w) username = Err DB.ErrNoRows)
        by (apply GetUserByUsername_free; intros u Hin; apply (Hfree u Hin)).
      destruct Hcase as [[Hn _]|[(_ & (user & Hu') & _)|[(_ & _ & (e & He) & _)
                        |[(_ & _ & (h & Hh' & Hc') & _)|(_ & _ & (h & Hh' & Hc') & _)]]]];
        try contradiction; try congruence. }
    assert (Hpair : forall effects, snd result = effects -> result = (w, effects)).
    { intros effects He. rewrite (surjective_pairing result), Hw, He. reflexivity. }
    split; [|split; [|split; [|split; [|split; [|split]]]]]; try assumption.
    + intros hash db Hform Hh Hc. exfalso. exact (Hnot hash db Hh Hc Hform).
    + intros [Hne|[t Ht]]; [contradiction|]. exfalso. exact (Hnocookie t Ht).
    + intros user Hform Hu. apply Hpair.
      destruct Hcase as [[Hn _]|[(_ & _ & H)|[(_ & Hu' & _)
                        |[(_ & Hu' & _)|(_ & Hu' & _)]]]];
        try contradiction; try congruence.
    + intros e hash Hform Hu Hh Hc. apply Hpair.
      destruct Hcase as [[Hn _]|[(_ & (user & Hu') & _)|[(_ & _ & (e' & He) & _)
                        |[(_ & _ & _ & H)|(_ & _ & (h & Hh' & Hc') & _)]]]];
        try contradiction; try congruence.
Qed.

End Passwords.

Lemma Register_creates_account_with_session_witness :
  let w := mkWorld NewSessionManager Scenario.two_users_restarted in
  let r := mkHttpRequest "POST" "/register"
             {["username" := ["kim"]; "email" := ["kim@example.org"];
               "password" := ["secret1"]; "confirm-password" := ["secret1"]]}
             (mkRequest [] ∅) None in
  let result := AuthHandler.Register (fun password => Ok ("$hash$" ++ password))
                                     (mkEnv 0 (repeat x00 32)) w r in
  exists tail, snd result = SetSessionCookie (generateToken (repeat x00 32)) :: tail /\
               to_library tail.
Proof.
  intros w r result.
  assert (Hc : exists db, DB.CreateUser Scenario.two_users_restarted "kim" "kim@example.org"
                            "$hash$secret1" = Ok db) by (vm_compute; eauto).
  destruct Hc as [db Hc].
  refine (proj2 (proj2 (proj2 (proj2 (proj1 (Register_creates_account_with_session
            (fun password => Ok ("$hash$" ++ password)) (mkEnv 0 (repeat x00 32)) w r)
            "$hash$secret1" db _ _ _))))).
  - repeat split; try discriminate; try (vm_compute; reflexivity). vm_compute. lia.
  - reflexivity.
  - exact Hc.
Defined.

End RegisterLaws.

(** * The admin page *)

Module DirectoryLaws.
Import Models DB Schema Directory Http Access RBACSpec AdminLaws.

Section OrderBy.

Context {A : Type}.
Variable key : A -> string.

Lemma insert_by_perm x rows : Permutation (insert_by key x rows) (x :: rows).
Proof.
  induction rows as [|y rows IH]; cbn [insert_by]; [apply Permutation_refl|].
  destruct (String.leb (key x) (key y)); [apply Permutation_refl|].
  apply Permutation_trans with (y :: x :: rows);
    [apply perm_skip; exact IH|apply perm_swap].
Qed.

Lemma order_by_perm rows : Permutation (order_by key rows) rows.
Proof.
  induction rows as [|x rows IH]; [apply Permutation_refl|]. cbn [order_by fold_right].
  apply Permutation_trans with (x :: order_by key rows);
    [apply insert_by_perm|apply perm_skip; exact IH].
Qed.

Lemma insert_by_HdRel a x rows :
  in_order key a x -> HdRel (in_order key) a rows -> HdRel (in_order key) a (insert_by key x rows).
Proof.
  intros Hax Hrows. destruct rows as [|y rows]; cbn [insert_by]; [constructor; exact Hax|].
  destruct (String.leb (key x) (key y)); constructor; [exact Hax|].
  inversion Hrows; assumption.
Qed.

Lemma insert_by_sorted x rows :
  Sorted (in_order key) rows -> Sorted (in_order key) (insert_by key x rows).
Proof.
  induction rows as [|y rows IH]; intros Hs; cbn [insert_by].
  - constructor; constructor.
  - inversion Hs as [|? ? Hrest Hhd]; subst.
    destruct (String.leb (key x) (key y)) eqn:E.
    + constructor; [exact Hs|]. constructor. exact E.
    + constructor; [apply IH; exact Hrest|].
      apply insert_by_HdRel; [|exact Hhd].
      unfold in_order. destruct (String.leb_total (key x) (key y)) as [H|H]; [congruence|exact H].
Qed.

Lemma order_by_sorted rows : Sorted (in_order key) (order_by key rows).
Proof.
  induction rows as [|x rows IH]; [constructor|]. cbn [order_by fold_right].
  apply insert_by_sorted. exact IH.
Qed.

End OrderBy.

Lemma Sorted_map {A B} (f : A -> B) (R : A -> A -> Prop) (S : B -> B -> Prop) (l : list A) :
  (forall a b, R a b -> S (f a) (f b)) -> Sorted R l -> Sorted S (map f l).
Proof.
  intros Hf. induction 1 as [|a l Hs IH Hhd]; cbn [map]; constructor; [exact IH|].
  destruct Hhd; cbn [map]; constructor. auto.
Qed.

(* The account as the admin page shows it. *)
Lemma scanUsersWithRoles_rows st rows users :
  scanUsersWithRoles st rows users =
    Ok (users ++ map (fun u => mkUser (u_id u) (u_username u) (u_email u)
                                      (u_password_hash u) (rolesOf st (u_id u))) rows)%list.
Proof.
  revert users. induction rows as [|u rows IH]; intros users; cbn [scanUsersWithRoles map].
  - rewrite app_nil_r. reflexivity.
  - cbn [GetUserRoles rbind]. rewrite IH, <- app_assoc. reflexivity.
Qed.

(** The admin page lists every account exactly once, in ascending order of
    the username, each with the roles GetUserRoles reports for it, and
    every role exactly once in ascending order of its name, whenever the two
    queries return their lists.  The page is shown only to a context user
    who has [manage_roles], anyone else gets 403; the handler changes
    nothing. *)
Theorem admin_page_lists_accounts_and_roles (env : Env) (w : World) (r : Request) :
  let st := database w in
  (forall users, GetAllUsersWithRoles st = Ok users ->
     Permutation users
       (map (fun u => mkUser (u_id u) (u_username u) (u_email u) (u_password_hash u)
                             (rolesOf st (u_id u))) (DB.users st)) /\
     Sorted (fun a b => String.leb (Models.Username a) (Models.Username b) = true) users) /\
  (forall roles, GetAllRoles st = Ok roles ->
     Permutation roles
       (map (fun r => mkRole (r_id r) (r_name r) (r_description r) []) (DB.roles st)) /\
     Sorted (fun a b => String.leb (RoleName a) (RoleName b) = true) roles) /\
  fst (AdminHandler.Index env w r) = w /\
  ((forall user, ~ may_manage_roles w r user) ->
     snd (AdminHandler.Index env w r) = [HttpError "Access denied" StatusForbidden]) /\
  (forall user users roles,
     may_manage_roles w r user ->
     GetAllUsersWithRoles st = Ok users -> GetAllRoles st = Ok roles ->
     snd (AdminHandler.Index env w r) = [Render (AdminIndexPage users roles (Some user))]).
Proof.
  intros st. subst st.
  assert (Hu : GetAllUsersWithRoles (database w) =
               Ok (map (fun u => mkUser (u_id u) (u_username u) (u_email u)
                                        (u_password_hash u)
                                        (rolesOf (database w) (u_id u)))
                       (order_by u_username (DB.users (database w))))).
  { unfold GetAllUsersWithRoles. rewrite scanUsersWithRoles_rows. reflexivity. }
  split.
  { intros users Hus. rewrite Hu in Hus. injection Hus as <-.
    split; [apply Permutation_map, order_by_perm|].
    apply (Sorted_map _ (in_order u_username)); [auto|apply order_by_sorted]. }
  split.
  { intros roles Hrs. unfold GetAllRoles in Hrs. injection Hrs as <-.
    split; [apply Permutation_map, order_by_perm|].
    apply (Sorted_map _ (in_order r_name)); [auto|apply order_by_sorted]. }
  unfold AdminHandler.Index. cbv zeta.
  destruct (hasPermission_cases w r) as [(user & Hm & Hp)|[Hno Hp]]; rewrite Hp.
  - split.
    { destruct (GetAllUsersWithRoles (database w)); [|reflexivity].
      destruct (GetAllRoles (database w)); reflexivity. }
    split.
    + intros H. exfalso. exact (H user Hm).
    + intros user' users roles Hm' Hus Hrs. rewrite Hus, Hrs.
      destruct Hm' as [Hc' _]. unfold AdminHandler.getUserFromContext. rewrite Hc'.
      reflexivity.
  - split; [reflexivity|]. split; [reflexivity|].
    intros user users roles Hm. exfalso. exact (Hno user Hm).
Qed.

Lemma admin_page_lists_accounts_and_roles_witness :
  let w := mkWorld Auth.NewSessionManager Scenario.two_users_restarted in
  let zed := mkUser 1 "zed" "zed@example.org" "$2a$10$hash1" [] in
  let r := mkHttpRequest "GET" "/admin" ∅ (Auth.mkRequest [] ∅) (Some zed) in
  exists users roles,
    snd (AdminHandler.Index (mkEnv 0 []) w r) = [Render (AdminIndexPage users roles (Some zed))] /\
    map Models.Username users = ["amy"; "zed"] /\ map RoleName roles = ["admin"; "user"].
Proof.
  intros w zed r.
  destruct (GetAllUsersWithRoles (database w)) as [users|e] eqn:Hus;
    [|vm_compute in Hus; discriminate Hus].
  destruct (GetAllRoles (database w)) as [roles|e] eqn:Hrs;
    [|vm_compute in Hrs; discriminate Hrs].
  exists users, roles. split.
  - apply (proj2 (proj2 (proj2 (proj2
             (admin_page_lists_accounts_and_roles (mkEnv 0 []) w r))))).
    + split; [reflexivity|]. vm_compute. reflexivity.
    + exact Hus.
    + exact Hrs.
  - vm_compute in Hus, Hrs. injection Hus as <-. injection Hrs as <-.
    split; reflexivity.
Defined.

End DirectoryLaws.

(** * The routes of [main.go], one request at a time *)

Module RouteLaws.
Import Models Auth Http Access Directory Main.
Import SessionSpec RBACSpec RoleLaws AccountLaws.
Import MiddlewareLaws AdminLaws AuthLaws RegisterLaws.

Lemma Index_world env w r : fst (AdminHandler.Index env w r) = w.
Proof.
  unfold AdminHandler.Index. cbv zeta.
  destruct (AdminHandler.hasPermission _ _ _) as [[|]|]; try reflexivity.
  destruct (GetAllUsersWithRoles (database w)); [|reflexivity].
  destruct (GetAllRoles (database w)); reflexivity.
Qed.

Lemma GetUserWithRoles_ID st userID user :
  DB.GetUserWithRoles st userID = Ok user -> ID user = userID.
Proof.
  unfold DB.GetUserWithRoles, DB.GetUserByID.
  destruct (List.find _ (DB.users st)) as [u|] eqn:Hf; [|discriminate].
  cbn. intros [= <-]. cbn. apply find_some in Hf as [_ H]. apply Z.eqb_eq in H. exact H.
Qed.

Lemma GetUserByUsername_row st username user :
  GetUserByUsername st username = Ok user ->
  exists u, In u (DB.users st) /\ DB.u_id u = ID user /\
            DB.u_username u = Models.Username user /\ DB.u_username u = username.
Proof.
  unfold GetUserByUsername.
  destruct (List.find _ (DB.users st)) as [u|] eqn:Hf; [|discriminate].
  intros [= <-]. apply find_some in Hf as [Hin Hn]. apply String.eqb_eq in Hn.
  exists u. auto.
Qed.

Lemma drops_dead_token_refl env r w : drops_dead_token env r w w.
Proof. split; [reflexivity|left; reflexivity]. Qed.

Lemma home_world env w r : drops_dead_token env r w (fst (home env w r)).
Proof.
  unfold home. destruct (String.eqb (Path r) "/"); [|apply drops_dead_token_refl].
  destruct (GetSessionToken (Base r)) as [token|e] eqn:Htok; [|apply drops_dead_token_refl].
  destruct (sessions (sessionManager w) !! token) as [s0|] eqn:Hl.
  - rewrite (ValidateSession_present _ _ _ _ Hl).
    destruct (After (now env) (ExpiresAt s0)) eqn:Ea; cbn [fst].
    + split; [reflexivity|]. right. exists token. split; [|reflexivity].
      split; [exact Htok|]. intros s Hs. rewrite Hl in Hs. injection Hs as <-.
      apply After_lt. exact Ea.
    + rewrite World_eta. apply drops_dead_token_refl.
  - rewrite (ValidateSession_absent _ _ _ Hl). cbn [fst]. rewrite World_eta.
    apply drops_dead_token_refl.
Qed.

(* A request through a middleware: the wrapped handler runs on the world
   as it is for a live session of a user the query finds, or the world only
   loses the dead token. *)
Lemma middleware_route (getUser : DB.Store -> Z -> Result DB.error User)
    (middleware : Handler -> Handler) env w r next :
  (forall next, middleware next env w r =
     match GetSessionToken (Base r) with
     | Err _ => (w, [HttpRedirect "/login" StatusSeeOther])
     | Ok sessionToken =>
         let '(validated, sm) :=
           ValidateSession (sessionManager w) (now env) sessionToken in
         let w := mkWorld sm (database w) in
         match validated with
         | Err _ => (w, [ClearSessionCookie; HttpRedirect "/login" StatusSeeOther])
         | Ok session =>
             match getUser (database w) (UserID session) with
             | Err _ => (w, [HttpRedirect "/login" StatusSeeOther])
             | Ok user => next env w (WithUser r user)
             end
         end
     end) ->
  (exists token session user,
     carries_session env w r token session /\
     getUser (database w) (UserID session) = Ok user /\
     middleware next env w r = next env w (WithUser r user))
  \/ drops_dead_token env r w (fst (middleware next env w r)).
Proof.
  intros Hshape.
  destruct (middleware_cases getUser middleware env w r Hshape)
    as [(token & session & user & Hc & Hu & Hnext)
       |[(token & Hdead & Hres)|(_ & _ & Hres)]].
  - left. exists token, session, user. auto.
  - right. rewrite Hres. cbn [fst]. split; [reflexivity|]. right. exists token. auto.
  - right. rewrite Hres. cbn [fst]. apply drops_dead_token_refl.
Qed.

(* A role handler changes the world in one case only. *)
Lemma role_world (handler : Handler)
    (change : DB.Store -> User -> Z -> Z -> DB.Store) env w r :
  ((exists user userID roleID,
      may_manage_roles w r user /\ role_form r userID roleID /\
      handler env w r =
        (mkWorld (sessionManager w) (change (database w) user userID roleID),
         [HttpRedirect "/admin" StatusSeeOther]))
   \/ ((forall user, ~ may_manage_roles w r user) /\
       handler env w r = (w, [HttpError "Access denied" StatusForbidden]))
   \/ ((exists user, may_manage_roles w r user) /\ Method r <> "POST" /\
       handler env w r = (w, [HttpError "Method not allowed" StatusMethodNotAllowed]))
   \/ ((exists user, may_manage_roles w r user) /\ Method r = "POST" /\
       (forall userID roleID, ~ role_form r userID roleID) /\
       exists message, handler env w r = (w, [HttpError message StatusBadRequest]))) ->
  (exists user userID roleID,
     may_manage_roles w r user /\ role_form r userID roleID /\
     fst (handler env w r)
       = mkWorld (sessionManager w) (change (database w) user userID roleID))
  \/ fst (handler env w r) = w.
Proof.
  intros [(u & a & b & Hu & Hf & ->)
         |[(_ & ->)|[(_ & _ & ->)|(_ & _ & _ & m & ->)]]]; [|auto..].
  left. exists u, a, b. auto.
Qed.

(* A request through the admin middleware to a role handler. *)
Lemma admin_role_route (handler : Handler)
    (change : DB.Store -> User -> Z -> Z -> DB.Store) env w r :
  (forall w0 r0,
     (exists user userID roleID,
        may_manage_roles w0 r0 user /\ role_form r0 userID roleID /\
        fst (handler env w0 r0)
          = mkWorld (sessionManager w0) (change (database w0) user userID roleID))
     \/ fst (handler env w0 r0) = w0) ->
  let w' := fst (AdminHandler.AuthMiddleware handler env w r) in
  drops_dead_token env r w w'
  \/ exists token session user userID roleID,
       carries_session env w r token session /\
       DB.GetUserWithRoles (database w) (UserID session) = Ok user /\
       ID user = UserID session /\
       DB.HasPermission (database w) (UserID session) "manage_roles" = Ok true /\
       role_form r userID roleID /\
       w' = mkWorld (sessionManager w) (change (database w) user userID roleID).
Proof.
  intros Hhandler w'. subst w'.
  destruct (middleware_route DB.GetUserWithRoles AdminHandler.AuthMiddleware env w r handler
              (fun next => eq_refl))
    as [(token & session & user & Hc & Hu & ->)|Hdrop]; [|left; exact Hdrop].
  pose proof (GetUserWithRoles_ID _ _ _ Hu) as Hid.
  destruct (Hhandler w (WithUser r user)) as [(u & a & b & [Hctx Hp] & Hform & ->)| ->].
  - right. cbn [WithUser ContextUser] in Hctx. injection Hctx as <-.
    exists token, session, user, a, b. split; [exact Hc|]. split; [exact Hu|].
    split; [exact Hid|]. split; [rewrite <- Hid; exact Hp|]. split; [exact Hform|].
    reflexivity.
  - left. apply drops_dead_token_refl.
Qed.

Section Routes.

Variable CheckPassword : string -> string -> bool.
Variable HashPassword : string -> Result unit string.
Variable library : Env -> World -> Request -> list Effect.

(* What each route does to the world. *)
Lemma route_cases rt env w r :
  let w' := fst (mux CheckPassword HashPassword library rt env w r) in
  drops_dead_token env r w w'
  \/ (rt = RouteLogin /\
      exists user, presents_credentials CheckPassword w r user /\
        w' = mkWorld (snd (CreateSession (sessionManager w) (entropy env) (now env)
                                         (ID user) (Models.Username user)))
                     (database w))
  \/ (rt = RouteRegister /\
      exists hash db, registration_form r /\
        HashPassword (FormValue r "password") = Ok hash /\
        DB.CreateUser (database w) (FormValue r "username") (FormValue r "email") hash
          = Ok db /\
        w' = mkWorld (snd (CreateSession (sessionManager w) (entropy env) (now env)
                             (DB.next_rowid (DB.seq_users (database w))
                                            (map DB.u_id (DB.users (database w))))
                             (FormValue r "username")))
                     db)
  \/ (rt = RouteLogout /\
      exists token, GetSessionToken (Base r) = Ok token /\
        w' = mkWorld (DestroySession (sessionManager w) token) (database w))
  \/ (exists token session user userID roleID,
        carries_session env w r token session /\
        DB.GetUserWithRoles (database w) (UserID session) = Ok user /\
        ID user = UserID session /\
        DB.HasPermission (database w) (UserID session) "manage_roles" = Ok true /\
        role_form r userID roleID /\
        ((rt = RouteAdminAssignRole /\
          w' = mkWorld (sessionManager w)
                       (DB.insert_or_replace_user_role (database w) userID roleID
                                                       (Some (UserID session))))
         \/ (rt = RouteAdminRemoveRole /\
             w' = mkWorld (sessionManager w)
                          (DB.delete_user_role (database w) userID roleID)))).
Proof.
  intros w'. subst w'. destruct rt; cbn [mux].
  - left. apply home_world.
  - destruct (Login_cases CheckPassword env w r) as [(user & Hcred & ->)|(_ & -> & _)];
      [|left; apply drops_dead_token_refl].
    right. left. split; [reflexivity|]. exists user. split; [exact Hcred|reflexivity].
  - destruct (Register_cases HashPassword env w r)
      as [(hash & db & Hform & Hh & Hc & ->)|(-> & _)];
      [|left; apply drops_dead_token_refl].
    right. right. left. split; [reflexivity|]. exists hash, db. auto.
  - unfold AuthHandler.Logout. cbv zeta. cbn [fst].
    destruct (GetSessionToken (Base r)) as [token|e] eqn:Htok;
      [|left; apply drops_dead_token_refl].
    right. right. right. left. split; [reflexivity|]. exists token. auto.
  - left.
    destruct (middleware_route DB.GetUserByID LibraryHandler.AuthMiddleware env w r
                (fun env w r => (w, library env w r)) (fun next => eq_refl))
      as [(token & session & user & _ & _ & ->)|Hdrop]; [|exact Hdrop].
    cbn [fst]. apply drops_dead_token_refl.
  - left.
    destruct (middleware_route DB.GetUserWithRoles AdminHandler.AuthMiddleware env w r
                AdminHandler.Index (fun next => eq_refl))
      as [(token & session & user & _ & _ & ->)|Hdrop]; [|exact Hdrop].
    rewrite Index_world. apply drops_dead_token_refl.
  - destruct (admin_role_route AdminHandler.AssignRole
                (fun db user userID roleID =>
                   DB.insert_or_replace_user_role db userID roleID (Some (ID user)))
                env w r)
      as [Hdrop|(token & session & user & a & b & Hc & Hu & Hid & Hp & Hf & Hw)].
    + intros w0 r0.
      apply (role_world AdminHandler.AssignRole
               (fun db user userID roleID =>
                  DB.insert_or_replace_user_role db userID roleID (Some (ID user)))).
      apply (role_cases_of_shape AdminHandler.AssignRole
               (fun db user userID roleID =>
                  DB.insert_or_replace_user_role db userID roleID (Some (ID user)))).
      reflexivity.
    + left. exact Hdrop.
    + right. right. right. right. exists token, session, user, a, b.
      repeat (split; [assumption|]). left. split; [reflexivity|].
      rewrite <- Hid. exact Hw.
  - destruct (admin_role_route AdminHandler.RemoveRole
                (fun db user userID roleID => DB.delete_user_role db userID roleID)
                env w r)
      as [Hdrop|(token & session & user & a & b & Hc & Hu & Hid & Hp & Hf & Hw)].
    + intros w0 r0.
      apply (role_world AdminHandler.RemoveRole
               (fun db user userID roleID => DB.delete_user_role db userID roleID)).
      apply (role_cases_of_shape AdminHandler.RemoveRole
               (fun db user userID roleID => DB.delete_user_role db userID roleID)).
      apply RemoveRole_shape.
    + left. exact Hdrop.
    + right. right. right. right. exists token, session, user, a, b.
      repeat (split; [assumption|]). right. split; [reflexivity|exact Hw].
Qed.


(** Through the routes of [main.go] one request adds a session only on the
    login and register routes, from a POST, for the account of the database
    that the form names: the session carries the id and the username of
    that account, under the new token, with an expiry 24 hours ahead.  The
    only session a request takes out of the registry is the one whose token
    it carries, at logout or when that session has expired; a new session
    replaces what was stored under its token. *)
Theorem request_opens_sessions_for_accounts_only
    (rt : route) (env : Env) (w : World) (r : Request) :
  let w' := fst (mux CheckPassword HashPassword library rt env w r) in
  (forall token session,
     sessions (sessionManager w') !! token = Some session ->
     sessions (sessionManager w) !! token = Some session \/
     ((rt = RouteLogin \/ rt = RouteRegister) /\ Method r = "POST" /\
      FormValue r "username" = Auth.Username session /\
      opened_for_account env (database w') token session)) /\
  (forall token session,
     sessions (sessionManager w) !! token = Some session ->
     sessions (sessionManager w') !! token = Some session \/
     (GetSessionToken (Base r) = Ok token /\
      (rt = RouteLogout \/ ExpiresAt session < now env)) \/
     ((rt = RouteLogin \/ rt = RouteRegister) /\ token = generateToken (entropy env))).
Proof.
  intros w'.
  assert (Hopen : forall userID username db,
            (rt = RouteLogin \/ rt = RouteRegister) -> Method r = "POST" ->
            FormValue r "username" = username ->
            (exists u, In u (DB.users db) /\ DB.u_id u = userID /\
                       DB.u_username u = username) ->
            w' = mkWorld (snd (CreateSession (sessionManager w) (entropy env) (now env)
                                             userID username)) db ->
            (forall token session,
               sessions (sessionManager w') !! token = Some session ->
               sessions (sessionManager w) !! token = Some session \/
               ((rt = RouteLogin \/ rt = RouteRegister) /\ Method r = "POST" /\
                FormValue r "username" = Auth.Username session /\
                opened_for_account env (database w') token session)) /\
            (forall token session,
               sessions (sessionManager w) !! token = Some session ->
               sessions (sessionManager w') !! token = Some session \/
               (GetSessionToken (Base r) = Ok token /\
                (rt = RouteLogout \/ ExpiresAt session < now env)) \/
               ((rt = RouteLogin \/ rt = RouteRegister) /\
                token = generateToken (entropy env)))).
  { intros userID username db Hrt Hm Hname Hrow Hw. rewrite Hw.
    cbn [sessionManager database CreateSession snd sessions]. split.
    - intros token session. rewrite lookup_insert.
      destruct (decide (generateToken (entropy env) = token)) as [<-|Hne]; [|auto].
      intros [= <-]. right. cbn [Auth.Username]. repeat (split; [assumption|]).
      split; [reflexivity|]. split; [reflexivity|exact Hrow].
    - intros token session Hs. rewrite lookup_insert.
      destruct (decide (generateToken (entropy env) = token)) as [<-|Hne]; auto. }
  destruct (route_cases rt env w r)
    as [[_ Hsm]
       |[(Hrt & user & Hcred & Hw)
        |[(Hrt & hash & db & Hform & Hh & Hc & Hw)
         |[(Hrt & carried & Htok & Hw)
          |(token & session & user & a & b & _ & _ & _ & _ & _ & Hcase)]]]];
    fold w' in Hsm || fold w' in Hw || fold w' in Hcase.
  - destruct Hsm as [Hsm|(carried & [Htok Hdead] & Hsm)]; rewrite Hsm.
    + split; intros token session Hs; left; exact Hs.
    + split; intros token session; rewrite DestroySession_lookup;
        destruct (decide (carried = token)) as [<-|Hne]; try discriminate; auto.
      intros Hs. right. left. split; [exact Htok|]. right. exact (Hdead session Hs).
  - destruct Hcred as (Hm & _ & _ & Hu & _).
    apply GetUserByUsername_row in Hu as (u & Hin & Hid & Hname & Hform).
    apply (Hopen (ID user) (Models.Username user) (database w)); auto.
    + congruence.
    + exists u. auto.
  - apply (Hopen (DB.next_rowid (DB.seq_users (database w))
                                (map DB.u_id (DB.users (database w))))
                 (FormValue r "username") db); auto.
    + apply Hform.
    + pose proof (CreateUser_lookup _ _ _ _ _ Hc) as Hl.
      apply GetUserByUsername_row in Hl as (u & Hin & Hid & Hname & _).
      exists u. cbn [ID Models.Username] in Hid, Hname. auto.
  - rewrite Hw. cbn [sessionManager].
    split; intros token session; rewrite DestroySession_lookup;
      destruct (decide (carried = token)) as [<-|Hne]; try discriminate; auto.
  - assert (Hsm : sessionManager w' = sessionManager w)
      by (destruct Hcase as [[_ ->]|[_ ->]]; reflexivity).
    rewrite Hsm. split; intros t s Hs; left; exact Hs.
Qed.

End Routes.

End RouteLaws.

(** * Registration, then login; the landing page *)

Module JourneyLaws.
Import Models Auth Http Access Directory Main.
Import SessionSpec MiddlewareLaws AuthLaws RegisterLaws AccountLaws.

Section Passwords.

Variable CheckPassword : string -> string -> bool.
Variable HashPassword : string -> Result unit string.

(** Who registered can log in.  After a registration that succeeded, a
    POST to the login handler with the same username and password opens a
    session of the new account, provided CheckPassword accepts the password
    against the hash that HashPassword returned for it; with a password that
    CheckPassword rejects against that hash it opens none and the answer is
    [Invalid username or password].  The database is as registration left
    it. *)
Theorem Login_after_Register
    (env env' : Env) (w : World) (r r' : Request) (hash : string) (db : DB.Store) :
  registration_form r ->
  HashPassword (FormValue r "password") = Ok hash ->
  DB.CreateUser (database w) (FormValue r "username") (FormValue r "email") hash = Ok db ->
  Method r' = "POST" -> FormValue r' "username" = FormValue r "username" ->
  FormValue r' "password" <> "" ->
  let w1 := fst (AuthHandler.Register HashPassword env w r) in
  let result := AuthHandler.Login CheckPassword env' w1 r' in
  let userID := DB.next_rowid (DB.seq_users (database w))
                              (map DB.u_id (DB.users (database w))) in
  database (fst result) = db /\
  (CheckPassword (FormValue r' "password") hash = true ->
     (exists tail, snd result = SetSessionCookie (generateToken (entropy env')) :: tail /\
                   to_library tail) /\
     ValidateSession (sessionManager (fst result)) (now env') (generateToken (entropy env'))
       = (Ok (mkSession userID (FormValue r "username") (now env' + 24 * Hour)),
          sessionManager (fst result))) /\
  (CheckPassword (FormValue r' "password") hash = false ->
     fst result = w1 /\
     snd result = AuthHandler.renderAuthError "Invalid username or password").
Proof.
  intros Hform Hh Hc Hm Hu Hp w1 result userID.
  destruct (Register_cases HashPassword env w r)
    as [(hash' & db' & _ & Hh' & Hc' & Hres)|(Hw & Hcase)].
  2:{ exfalso.
      pose proof (CreateUser_free _ _ _ _ _ Hc) as Hfree.
      assert (Hnone : GetUserByUsername (database w) (FormValue r "username")
                      = Err DB.ErrNoRows)
        by (apply GetUserByUsername_free; intros u Hin; apply (Hfree u Hin)).
      destruct Hcase as [[Hn _]|[(_ & (user & Hu') & _)|[(_ & _ & (e & He) & _)
                        |[(_ & _ & (h & Hh' & Hc') & _)|(_ & _ & (h & Hh' & Hc') & _)]]]];
        try contradiction; congruence. }
  rewrite Hh in Hh'. injection Hh' as <-. rewrite Hc in Hc'. injection Hc' as <-.
  assert (Hdb : database w1 = db) by (subst w1; rewrite Hres; reflexivity).
  assert (Hl : GetUserByUsername (database w1) (FormValue r' "username")
               = Ok (mkUser userID (FormValue r "username") (FormValue r "email") hash []))
    by (rewrite Hdb, Hu; apply (CreateUser_lookup _ _ _ _ _ Hc)).
  assert (Hname : FormValue r' "username" <> "")
    by (rewrite Hu; apply Hform).
  destruct (Login_cases CheckPassword env' w1 r')
    as [(user & Hcred & Hlog)|(Hno & Hw & _ & Hsame)]; fold result in Hlog || fold result in Hw, Hsame.
  - destruct Hcred as (_ & _ & _ & Hl' & Hcheck). rewrite Hl in Hl'. injection Hl' as <-.
    cbn [PasswordHash] in Hcheck.
    split; [rewrite Hlog; exact Hdb|]. split.
    + intros _. rewrite Hlog. cbn [fst snd sessionManager ID Models.Username].
      split; [eexists; split; [reflexivity|apply to_library_choice]|].
      apply CreateSession_validates.
    + intros Hf. congruence.
  - split; [rewrite Hw; exact Hdb|]. split.
    + intros Ht. exfalso.
      apply (Hno (mkUser userID (FormValue r "username") (FormValue r "email") hash [])).
      repeat split; assumption.
    + intros _. split; [exact Hw|]. apply Hsame; assumption.
Qed.

End Passwords.

Lemma Login_after_Register_witness :
  let w := mkWorld NewSessionManager Scenario.two_users_restarted in
  let r := mkHttpRequest "POST" "/register"
             {["username" := ["kim"]; "email" := ["kim@example.org"];
               "password" := ["secret1"]; "confirm-password" := ["secret1"]]}
             (mkRequest [] ∅) None in
  let r' := mkHttpRequest "POST" "/login"
              {["username" := ["kim"]; "password" := ["secret1"]]} (mkRequest [] ∅) None in
  let check := fun password hash => String.eqb hash ("$hash$" ++ password) in
  let hasher := fun password => @Ok unit string ("$hash$" ++ password) in
  let w1 := fst (AuthHandler.Register hasher (mkEnv 0 (repeat x00 32)) w r) in
  exists tail,
    snd (AuthHandler.Login check (mkEnv 5 (repeat x01 32)) w1 r')
      = SetSessionCookie (generateToken (repeat x01 32)) :: tail /\
    to_library tail.
Proof.
  intros w r r' check hasher w1.
  assert (Hc : exists db, DB.CreateUser Scenario.two_users_restarted "kim" "kim@example.org"
                            "$hash$secret1" = Ok db) by (vm_compute; eauto).
  destruct Hc as [db Hc].
  refine (proj1 (proj1 (proj2 (Login_after_Register check hasher
            (mkEnv 0 (repeat x00 32)) (mkEnv 5 (repeat x01 32)) w r r'
            "$hash$secret1" db _ _ _ _ _ _)) _)).
  - repeat split; try discriminate; try (vm_compute; reflexivity). vm_compute. lia.
  - reflexivity.
  - exact Hc.
  - reflexivity.
  - reflexivity.
  - discriminate.
  - vm_compute. reflexivity.
Defined.

(** The landing page.  Any path but [/] under the pattern [/] is not
    found.  On [/], a request that carries the token of a session that has
    not expired is redirected to /library, and every other request is shown
    the landing page.  The handler never sets or clears a cookie and never
    changes the database; it can only drop the expired session whose token
    the request carried. *)
Theorem home_redirects_live_sessions (env : Env) (w : World) (r : Request) :
  let result := home env w r in
  (Path r <> "/" -> result = (w, [HttpNotFound])) /\
  (Path r = "/" ->
     (forall token session,
        carries_session env w r token session ->
        result = (w, [HttpRedirect "/library" StatusSeeOther])) /\
     ((forall token session, ~ carries_session env w r token session) ->
        snd result = [Render LandingPage])) /\
  database (fst result) = database w /\
  (forall t s, sessions (sessionManager (fst result)) !! t = Some s ->
               sessions (sessionManager w) !! t = Some s) /\
  (forall t, sessions (sessionManager (fst result)) !! t = None ->
             sessions (sessionManager w) !! t <> None ->
             GetSessionToken (Base r) = Ok t) /\
  (forall c, ~ In (HttpSetCookie c) (snd result)).
Proof.
  intros result. subst result. unfold home.
  destruct (String.eqb (Path r) "/") eqn:Ep.
  2:{ apply String.eqb_neq in Ep. cbn [fst snd].
      split; [reflexivity|]. split; [intros H; contradiction|].
      split; [reflexivity|]. split; [auto|]. split; [intros t H1 H2; contradiction|].
      intros c [H|[]]. discriminate H. }
  apply String.eqb_eq in Ep. split; [intros H; contradiction|].
  destruct (GetSessionToken (Base r)) as [token|e] eqn:Htok.
  2:{ cbn [fst snd]. split.
      - intros _. split.
        + intros t s (Ht & _). rewrite Htok in Ht. discriminate Ht.
        + reflexivity.
      - split; [reflexivity|]. split; [auto|]. split; [intros t H1 H2; contradiction|].
        intros c [H|[]]. discriminate H. }
  destruct (sessions (sessionManager w) !! token) as [session|] eqn:Hl.
  - rewrite (ValidateSession_present _ _ _ _ Hl).
    destruct (After (now env) (ExpiresAt session)) eqn:Ea; cbn [fst snd database sessionManager].
    + split.
      * intros _. split; [|reflexivity].
        intros t s (Ht & Hs & Hle). rewrite Htok in Ht. injection Ht as <-.
        rewrite Hl in Hs. injection Hs as <-.
        apply After_le in Hle. congruence.
      * split; [reflexivity|]. split.
        -- intros t s. rewrite DestroySession_lookup.
           destruct (decide (token = t)); [discriminate|auto].
        -- split.
           ++ intros t. rewrite DestroySession_lookup.
              destruct (decide (token = t)) as [->|]; [reflexivity|]. intros H1 H2.
              contradiction.
           ++ intros c [H|[]]. discriminate H.
    + rewrite World_eta. split.
      * intros _. split; [reflexivity|].
        intros Hno. exfalso. apply (Hno token session).
        split; [exact Htok|]. split; [exact Hl|]. apply After_le. exact Ea.
      * split; [reflexivity|]. split; [auto|]. split; [intros t H1 H2; contradiction|].
        intros c [H|[]]. discriminate H.
  - rewrite (ValidateSession_absent _ _ _ Hl). cbn [fst snd database sessionManager].
    rewrite World_eta. split.
    + intros _. split; [|reflexivity].
      intros t s (Ht & Hs & _). rewrite Htok in Ht. injection Ht as <-. congruence.
    + split; [reflexivity|]. split; [auto|]. split; [intros t H1 H2; contradiction|].
      intros c [H|[]]. discriminate H.
Qed.

End JourneyLaws.
